(** * VEHICLE_AUCTIONS: the ingestion pipeline of [main.py]

    A shallow embedding of the auction pipeline: the domain types
    ([Transmission], [Engine], [Vehicle], [Auction]), the date parser
    ([DataProcessor.parse_auction_date]), the file processor
    ([DataProcessor.process_file]) and the merge loop of [run_pipeline].

    Python values are modelled as follows.
    - [str] is [string]; a character is a code point below 256.
    - An exception is a value of [exn]; a call that may raise returns
      [result].
    - [datetime] is a record of integer fields; arithmetic on it goes through
      the proleptic Gregorian ordinal, as in CPython's [datetime] module.
    - A [dict] is an association list in insertion order. *)

From Stdlib Require Import ZArith Lia List Bool Ascii String Permutation Sorted
  DecimalString.
Import ListNotations.
Open Scope string_scope.
Open Scope list_scope.
Open Scope Z_scope.

(* ================================================================== *)
(** ** Python strings *)

Module PyStr.

Definition code (c : ascii) : N := N_of_ascii c.

(** [str.isspace] on one character, for code points below 256. *)
Definition isspace (c : ascii) : bool :=
  let n := code c in
  ((9 <=? n) && (n <=? 13) || (28 <=? n) && (n <=? 32)
   || (n =? 133) || (n =? 160))%N.

(** [str.isdecimal] on one character (what [\d] matches). *)
Definition isdigit (c : ascii) : bool :=
  let n := code c in ((48 <=? n) && (n <=? 57))%N.

Definition isupper_ascii (c : ascii) : bool :=
  let n := code c in ((65 <=? n) && (n <=? 90))%N.

Definition islower_ascii (c : ascii) : bool :=
  let n := code c in ((97 <=? n) && (n <=? 122))%N.

(** What [[a-zA-Z]] matches. *)
Definition isalpha_ascii (c : ascii) : bool :=
  isupper_ascii c || islower_ascii c.

(** [str.lower] on one character: A-Z and the Latin-1 capitals
    U+00C0..U+00DE (the multiplication sign U+00D7 apart). *)
Definition lower_char (c : ascii) : ascii :=
  let n := code c in
  if ((65 <=? n) && (n <=? 90)
      || (192 <=? n) && (n <=? 222) && negb (n =? 215))%N
  then ascii_of_N (n + 32) else c.

Fixpoint lower (s : string) : string :=
  match s with
  | EmptyString => EmptyString
  | String c r => String (lower_char c) (lower r)
  end.

Fixpoint lstrip (s : string) : string :=
  match s with
  | EmptyString => EmptyString
  | String c r => if isspace c then lstrip r else s
  end.

Fixpoint rstrip (s : string) : string :=
  match s with
  | EmptyString => EmptyString
  | String c r =>
      match rstrip r with
      | EmptyString => if isspace c then EmptyString else String c EmptyString
      | r' => String c r'
      end
  end.

(** [str.strip()] with no argument. *)
Definition strip (s : string) : string := rstrip (lstrip s).

(** Truth value of a string: the empty string is false. *)
Definition truthy (s : string) : bool :=
  match s with EmptyString => false | _ => true end.

(** [s.startswith(p)], returning what follows the prefix. *)
Fixpoint strip_prefix (p s : string) : option string :=
  match p, s with
  | EmptyString, _ => Some s
  | String a p', String b s' =>
      if Ascii.eqb a b then strip_prefix p' s' else None
  | String _ _, EmptyString => None
  end.

(** [str.replace(old, new)] for a non-empty [old]: occurrences are
    replaced left to right and do not overlap.  [skip] counts the
    characters of an occurrence still to be dropped. *)
Fixpoint replace_from (old new : string) (skip : nat) (s : string) : string :=
  match s with
  | EmptyString => EmptyString
  | String c r =>
      match skip with
      | S k => replace_from old new k r
      | O =>
          match strip_prefix old s with
          | Some _ => (new ++ replace_from old new (String.length old - 1) r)%string
          | None => String c (replace_from old new O r)
          end
      end
  end.

Definition replace (old new s : string) : string := replace_from old new O s.

End PyStr.

(* ================================================================== *)
(** ** Exceptions *)

Inductive exn : Type :=
| FileNotFoundError   (* the directory, or a file, is missing *)
| OSError             (* any other failure of [open] or of reading *)
| CsvError            (* [csv.Error]: the reader rejects the file *)
| KeyError            (* a required column is absent from the header *)
| ValueError          (* [strptime] or [int] rejects a string *)
| TypeError           (* [int(None)] *)
| AttributeError      (* [None.replace] *)
| ValidationError     (* pydantic rejects a field *)
| RecursionError.     (* the interpreter's recursion limit *)

Inductive result (A : Type) : Type :=
| Ok (a : A)
| Raise (e : exn).
Arguments Ok {A} a.
Arguments Raise {A} e.

Definition bind {A B : Type} (r : result A) (k : A -> result B) : result B :=
  match r with
  | Ok a => k a
  | Raise e => Raise e
  end.

Notation "x <- r ;; k" := (bind r (fun x => k))
  (at level 61, r at next level, right associativity).

Definition is_ok {A : Type} (r : result A) : bool :=
  match r with Ok _ => true | Raise _ => false end.

(* ================================================================== *)
(** ** Domain types *)

Inductive Transmission : Type := AUTOMATIC | MANUAL | UNKNOWN.

(** The members in definition order, as [for member in cls] visits them. *)
Definition Transmission_members : list Transmission :=
  [AUTOMATIC; MANUAL; UNKNOWN].

Definition Transmission_value (m : Transmission) : string :=
  match m with
  | AUTOMATIC => "Automatic"
  | MANUAL => "Manual"
  | UNKNOWN => "Unknown"
  end.

(** [Transmission.from_str].  The argument is a string or [None]. *)
Definition from_str (value : option string) : Transmission :=
  let clean_val :=
    match value with
    | Some s => if PyStr.truthy s then PyStr.strip s else ""
    | None => ""
    end in
  if negb (PyStr.truthy clean_val) then UNKNOWN
  else
    match find (fun member =>
                  String.eqb (PyStr.lower (Transmission_value member))
                             (PyStr.lower clean_val))
               Transmission_members with
    | Some member => member
    | None => UNKNOWN
    end.

(* ================================================================== *)
(** ** Calendar arithmetic of CPython's [datetime] *)

Module Calendar.

Definition is_leap (year : Z) : bool :=
  (year mod 4 =? 0) && (negb (year mod 100 =? 0) || (year mod 400 =? 0)).

Definition DAYS_IN_MONTH (month : Z) : Z :=
  match month with
  | 1 => 31 | 2 => 28 | 3 => 31 | 4 => 30 | 5 => 31 | 6 => 30
  | 7 => 31 | 8 => 31 | 9 => 30 | 10 => 31 | 11 => 30 | 12 => 31
  | _ => -1
  end.

Definition DAYS_BEFORE_MONTH (month : Z) : Z :=
  match month with
  | 1 => 0 | 2 => 31 | 3 => 59 | 4 => 90 | 5 => 120 | 6 => 151
  | 7 => 181 | 8 => 212 | 9 => 243 | 10 => 273 | 11 => 304 | 12 => 334
  | _ => -1
  end.

Definition days_before_year (year : Z) : Z :=
  let y := year - 1 in y * 365 + y / 4 - y / 100 + y / 400.

Definition days_in_month (year month : Z) : Z :=
  if (month =? 2) && is_leap year then 29 else DAYS_IN_MONTH month.

Definition days_before_month (year month : Z) : Z :=
  DAYS_BEFORE_MONTH month + (if (2 <? month) && is_leap year then 1 else 0).

Definition ymd2ord (year month day : Z) : Z :=
  days_before_year year + days_before_month year month + day.

Definition DI400Y : Z := 146097.
Definition DI100Y : Z := 36524.
Definition DI4Y : Z := 1461.

(** [_ord2ymd]: the date of a proleptic Gregorian ordinal. *)
Definition ord2ymd (n : Z) : Z * Z * Z :=
  let n := n - 1 in
  let n400 := n / DI400Y in
  let n := n mod DI400Y in
  let year := n400 * 400 + 1 in
  let n100 := n / DI100Y in
  let n := n mod DI100Y in
  let n4 := n / DI4Y in
  let n := n mod DI4Y in
  let n1 := n / 365 in
  let n := n mod 365 in
  let year := year + n100 * 100 + n4 * 4 + n1 in
  if (n1 =? 4) || (n100 =? 4) then (year - 1, 12, 31)
  else
    let leapyear := (n1 =? 3) && (negb (n4 =? 24) || (n100 =? 3)) in
    let month := Z.shiftr (n + 50) 5 in
    let preceding :=
      DAYS_BEFORE_MONTH month + (if (2 <? month) && leapyear then 1 else 0) in
    if n <? preceding then
      let month := month - 1 in
      let preceding :=
        preceding
        - (DAYS_IN_MONTH month + (if (month =? 2) && leapyear then 1 else 0)) in
      (year, month, n - preceding + 1)
    else (year, month, n - preceding + 1).

(** [date.weekday()]: Monday is 0, Sunday is 6. *)
Definition weekday (year month day : Z) : Z :=
  (ymd2ord year month day + 6) mod 7.

End Calendar.

(* ================================================================== *)
(** ** [datetime] values *)

(** The three [tzinfo] objects the program meets: [pytz.UTC] and the two
    [US/Central] instances pytz attaches to a localized time. *)
Inductive tzinfo : Type := UTC | CST | CDT.

(** [utcoffset], in minutes. *)
Definition utcoffset (tz : tzinfo) : Z :=
  match tz with UTC => 0 | CST => -360 | CDT => -300 end.

(** [tz._dst], in minutes. *)
Definition dst (tz : tzinfo) : Z :=
  match tz with CDT => 60 | _ => 0 end.

(** A [datetime].  The layout parsed by the program has no seconds, so
    [second] and [microsecond] are 0 throughout and are left out. *)
Record datetime : Type := mkdatetime {
  year : Z;
  month : Z;
  day : Z;
  hour : Z;
  minute : Z;
  tz : option tzinfo
}.

Definition tzinfo_eqb (a b : tzinfo) : bool :=
  match a, b with
  | UTC, UTC | CST, CST | CDT, CDT => true
  | _, _ => false
  end.

Definition option_eqb {A : Type} (eqb : A -> A -> bool) (a b : option A) : bool :=
  match a, b with
  | Some x, Some y => eqb x y
  | None, None => true
  | _, _ => false
  end.

Definition datetime_eqb (a b : datetime) : bool :=
  (year a =? year b) && (month a =? month b) && (day a =? day b)
  && (hour a =? hour b) && (minute a =? minute b)
  && option_eqb tzinfo_eqb (tz a) (tz b).

(** The constructor's range checks ([_check_date_fields],
    [_check_time_fields]). *)
Definition datetime_new (y mo d h mi : Z) : result datetime :=
  if (1 <=? y) && (y <=? 9999) && (1 <=? mo) && (mo <=? 12)
     && (1 <=? d) && (d <=? Calendar.days_in_month y mo)
     && (0 <=? h) && (h <=? 23) && (0 <=? mi) && (mi <=? 59)
  then Ok (mkdatetime y mo d h mi None)
  else Raise ValueError.

(** Wall-clock minutes since the start of ordinal day 0: the value of
    [timedelta(days=toordinal(), hours=hour, minutes=minute)] that
    [datetime.__add__] and the comparisons of naive datetimes work on. *)
Definition to_minutes (dt : datetime) : Z :=
  Calendar.ymd2ord (year dt) (month dt) (day dt) * 1440
  + hour dt * 60 + minute dt.

(** The datetime of a minute count, with the given [tzinfo] attached. *)
Definition of_minutes (m : Z) (t : option tzinfo) : datetime :=
  let '(y, mo, d) := Calendar.ord2ymd (m / 1440) in
  let rem := m mod 1440 in
  mkdatetime y mo d (rem / 60) (rem mod 60) t.

(* ================================================================== *)
(** ** Regular expressions, as backtracking matchers *)

Module Re.

(** A matcher maps the text at the current position to the texts that
    remain after each way of matching, in the order in which the
    backtracking engine of [re] tries them. *)
Definition matcher : Type := string -> list string.

Definition chr (p : ascii -> bool) : matcher :=
  fun s =>
    match s with
    | String c r => if p c then [r] else []
    | EmptyString => []
    end.

Definition lit (c : ascii) : matcher := chr (Ascii.eqb c).

(** A lower-case literal under [IGNORECASE]. *)
Definition ilit (c : ascii) : matcher :=
  chr (fun x => Ascii.eqb (PyStr.lower_char x) c).

Definition eps : matcher := fun s => [s].

Definition seq (m1 m2 : matcher) : matcher := fun s => flat_map m2 (m1 s).

Definition alt (m1 m2 : matcher) : matcher := fun s => m1 s ++ m2 s.

Definition alts (ms : list matcher) : matcher :=
  fold_right alt (fun _ => []) ms.

Fixpoint istr (w : string) : matcher :=
  match w with
  | EmptyString => eps
  | String c r => seq (ilit c) (istr r)
  end.

(** [p+], greedy: the longest run first. *)
Fixpoint plus (p : ascii -> bool) (s : string) : list string :=
  match s with
  | String c r => if p c then plus p r ++ [r] else []
  | EmptyString => []
  end.

Definition seqs (ms : list matcher) : matcher :=
  fold_right seq eps ms.

Fixpoint times (n : nat) (m : matcher) : matcher :=
  match n with
  | O => eps
  | S k => seq m (times k m)
  end.

(** The text consumed between [s] and the remainder [rest]. *)
Definition matched (s rest : string) : string :=
  substring 0 (String.length s - String.length rest) s.

(** [re.match]: the first way of matching at the start of [s]. *)
Definition rmatch (m : matcher) (s : string) : option string :=
  match m s with
  | rest :: _ => Some rest
  | [] => None
  end.

(** [re.search(...).group(0)]: the match at the leftmost position that
    has one. *)
Fixpoint search (m : matcher) (s : string) : option string :=
  match rmatch m s with
  | Some rest => Some (matched s rest)
  | None =>
      match s with
      | String _ r => search m r
      | EmptyString => None
      end
  end.

(** Parsers: matchers that also return the captured groups. *)
Definition parser (A : Type) : Type := string -> list (A * string).

Definition ret {A : Type} (a : A) : parser A := fun s => [(a, s)].

Definition pbind {A B : Type} (p : parser A) (k : A -> parser B) : parser B :=
  fun s => flat_map (fun '(a, r) => k a r) (p s).

Definition group (m : matcher) : parser string :=
  fun s => map (fun r => (matched s r, r)) (m s).

Definition skip (m : matcher) : parser unit :=
  fun s => map (fun r => (tt, r)) (m s).

End Re.

Notation "x <~ p ;; k" := (Re.pbind p (fun x => k))
  (at level 61, p at next level, right associativity).

(* ================================================================== *)
(** ** [int(str)] *)

Definition digit_value (c : ascii) : Z := Z.of_N (PyStr.code c) - 48.

(** The value of a run of digits in which single underscores may separate
    digits; [acc] is the value so far and [prev] tells whether the previous
    character was a digit. *)
Fixpoint digits_value (acc : Z) (prev : bool) (s : string) : option Z :=
  match s with
  | EmptyString => if prev then Some acc else None
  | String c r =>
      if PyStr.isdigit c then digits_value (acc * 10 + digit_value c) true r
      else if Ascii.eqb c "_" then
        if prev then digits_value acc false r else None
      else None
  end.

(** The blanks [int] skips around a number: those of [str.isspace] but for
    the separators U+001C to U+001F, which [int] rejects. *)
Definition int_isspace (c : ascii) : bool :=
  PyStr.isspace c && negb ((28 <=? PyStr.code c) && (PyStr.code c <=? 31))%N.

Fixpoint int_lstrip (s : string) : string :=
  match s with
  | EmptyString => EmptyString
  | String c r => if int_isspace c then int_lstrip r else s
  end.

Fixpoint int_rstrip (s : string) : string :=
  match s with
  | EmptyString => EmptyString
  | String c r =>
      match int_rstrip r with
      | EmptyString => if int_isspace c then EmptyString else String c EmptyString
      | r' => String c r'
      end
  end.

(** [int(s)] in base 10: surrounding whitespace, an optional sign, digits.
    The cap CPython puts on the number of digits is left out. *)
Definition int_of_str (s : string) : result Z :=
  let body := int_rstrip (int_lstrip s) in
  let '(sign, ds) :=
    match body with
    | String "-" r => (-1, r)
    | String "+" r => (1, r)
    | _ => (1, body)
    end in
  match digits_value 0 false ds with
  | Some v => Ok (sign * v)
  | None => Raise ValueError
  end.

(** [str(n)] for an integer. *)
Definition str_of_int (n : Z) : string :=
  DecimalString.NilZero.string_of_int (Z.to_int n).

(* ================================================================== *)
(** ** [datetime.strptime] for the layout ["%Y %a %b %d, %I:%M%p"] *)

Module Strptime.
Import Re.

(** Names of the C locale ([locale_time.a_weekday], [a_month], [am_pm]). *)
Definition a_weekday : list string :=
  ["mon"; "tue"; "wed"; "thu"; "fri"; "sat"; "sun"].
Definition a_month : list string :=
  [""; "jan"; "feb"; "mar"; "apr"; "may"; "jun";
   "jul"; "aug"; "sep"; "oct"; "nov"; "dec"].
Definition am_pm : list string := ["am"; "pm"].

Definition digit : matcher := chr PyStr.isdigit.
Definition range (lo hi : ascii) : matcher :=
  chr (fun c => (PyStr.code lo <=? PyStr.code c)%N
                && (PyStr.code c <=? PyStr.code hi)%N).

(** [\s+]: every blank of the format becomes this. *)
Definition spaces : matcher := plus PyStr.isspace.

(** ["(?P<Y>\d\d\d\d)"] *)
Definition re_Y : matcher := times 4 digit.
(** ["(?P<d>3[0-1]|[1-2]\d|0[1-9]|[1-9]| [1-9])"] *)
Definition re_d : matcher :=
  alts [seq (lit "3") (range "0" "1"); seq (range "1" "2") digit;
        seq (lit "0") (range "1" "9"); range "1" "9";
        seq (lit " ") (range "1" "9")].
(** ["(?P<I>1[0-2]|0[1-9]|[1-9])"] *)
Definition re_I : matcher :=
  alts [seq (lit "1") (range "0" "2"); seq (lit "0") (range "1" "9");
        range "1" "9"].
(** ["(?P<M>[0-5]\d|\d)"] *)
Definition re_M : matcher := alts [seq (range "0" "5") digit; digit].
(** A list of names of one length, tried in order. *)
Definition seqToRE (names : list string) : matcher :=
  alts (map istr names).

Record found_dict : Type := mkfound {
  g_Y : string; g_a : string; g_b : string; g_d : string;
  g_I : string; g_M : string; g_p : string
}.

(** The compiled format. *)
Definition format_regex : parser found_dict :=
  Y <~ group re_Y ;; _ <~ skip spaces ;;
  a <~ group (seqToRE a_weekday) ;; _ <~ skip spaces ;;
  b <~ group (seqToRE (tl a_month)) ;; _ <~ skip spaces ;;
  d <~ group re_d ;; _ <~ skip (lit ",") ;; _ <~ skip spaces ;;
  I <~ group re_I ;; _ <~ skip (lit ":") ;;
  M <~ group re_M ;;
  p <~ group (seqToRE am_pm) ;;
  ret (mkfound Y a b d I M p).

(** [list.index]. *)
Fixpoint index (x : string) (l : list string) : Z :=
  match l with
  | [] => -1
  | y :: r => if String.eqb x y then 0 else
                let i := index x r in if i <? 0 then -1 else 1 + i
  end.

(** [int] on a captured group; the groups of this layout hold digits,
    or one blank and a digit. *)
Definition int_group (s : string) : Z :=
  match int_of_str s with Ok v => v | Raise _ => 0 end.

Definition hour_of (I p : string) : Z :=
  let hour := int_group I in
  let ampm := PyStr.lower p in
  if String.eqb ampm "" || String.eqb ampm "am" then
    if hour =? 12 then 0 else hour
  else if String.eqb ampm "pm" then
    if negb (hour =? 12) then hour + 12 else hour
  else hour.

(** The match of the text against the compiled format: the first way
    of matching from the start of the text ([format_regex.match]), and
    nothing may remain after it. *)
Definition match_format (data_string : string) : option found_dict :=
  match format_regex data_string with
  | [] => None
  | (found, rest) :: _ => if PyStr.truthy rest then None else Some found
  end.

Definition year_of (found : found_dict) : Z := int_group (g_Y found).
Definition month_of (found : found_dict) : Z :=
  index (PyStr.lower (g_b found)) a_month.
Definition day_of (found : found_dict) : Z := int_group (g_d found).
Definition minute_of (found : found_dict) : Z := int_group (g_M found).

(** [strptime]: a text that does not match the format is rejected, and so
    are fields that do not name a date. *)
Definition strptime (data_string : string) : result datetime :=
  match match_format data_string with
  | None => Raise ValueError
  | Some found =>
      datetime_new (year_of found) (month_of found) (day_of found)
                   (hour_of (g_I found) (g_p found)) (minute_of found)
  end.

End Strptime.

(* ================================================================== *)
(** ** pytz: the zone [US/Central] *)

Module Pytz.

(** A localized datetime: the wall clock, in minutes as [to_minutes]
    counts them, and the [tzinfo] instance attached to it.  pytz adds
    and subtracts [timedelta]s and compares naive datetimes; on the
    minute count these are integer addition and comparison. *)
Record localtime : Type := mklocal { wall : Z; zone : tzinfo }.

Definition d (y mo dd h : Z) : Z := Calendar.ymd2ord y mo dd * 1440 + h * 60.

(** [_utc_transition_times] zipped with [_transition_info], from the end
    of daylight saving in 2006.  The compiled zone ends in 2037. *)
Definition transitions : list (Z * tzinfo) :=
  [(d 2006 10 29 7, CST);
   (d 2007 3 11 8, CDT); (d 2007 11 4 7, CST);
   (d 2008 3 9 8, CDT); (d 2008 11 2 7, CST);
   (d 2009 3 8 8, CDT); (d 2009 11 1 7, CST);
   (d 2010 3 14 8, CDT); (d 2010 11 7 7, CST);
   (d 2011 3 13 8, CDT); (d 2011 11 6 7, CST);
   (d 2012 3 11 8, CDT); (d 2012 11 4 7, CST);
   (d 2013 3 10 8, CDT); (d 2013 11 3 7, CST);
   (d 2014 3 9 8, CDT); (d 2014 11 2 7, CST);
   (d 2015 3 8 8, CDT); (d 2015 11 1 7, CST);
   (d 2016 3 13 8, CDT); (d 2016 11 6 7, CST);
   (d 2017 3 12 8, CDT); (d 2017 11 5 7, CST);
   (d 2018 3 11 8, CDT); (d 2018 11 4 7, CST);
   (d 2019 3 10 8, CDT); (d 2019 11 3 7, CST);
   (d 2020 3 8 8, CDT); (d 2020 11 1 7, CST);
   (d 2021 3 14 8, CDT); (d 2021 11 7 7, CST);
   (d 2022 3 13 8, CDT); (d 2022 11 6 7, CST);
   (d 2023 3 12 8, CDT); (d 2023 11 5 7, CST);
   (d 2024 3 10 8, CDT); (d 2024 11 3 7, CST);
   (d 2025 3 9 8, CDT); (d 2025 11 2 7, CST);
   (d 2026 3 8 8, CDT); (d 2026 11 1 7, CST);
   (d 2027 3 14 8, CDT); (d 2027 11 7 7, CST);
   (d 2028 3 12 8, CDT); (d 2028 11 5 7, CST);
   (d 2029 3 11 8, CDT); (d 2029 11 4 7, CST);
   (d 2030 3 10 8, CDT); (d 2030 11 3 7, CST);
   (d 2031 3 9 8, CDT); (d 2031 11 2 7, CST);
   (d 2032 3 14 8, CDT); (d 2032 11 7 7, CST);
   (d 2033 3 13 8, CDT); (d 2033 11 6 7, CST);
   (d 2034 3 12 8, CDT); (d 2034 11 5 7, CST);
   (d 2035 3 11 8, CDT); (d 2035 11 4 7, CST);
   (d 2036 3 9 8, CDT); (d 2036 11 2 7, CST);
   (d 2037 3 8 8, CDT); (d 2037 11 1 7, CST)].

Definition utc_transition_times : list Z := map fst transitions.
Definition transition_info : list tzinfo := map snd transitions.

(** [bisect_right] on a sorted list: the index of the first element
    greater than [x]. *)
Fixpoint bisect_right (a : list Z) (x : Z) : nat :=
  match a with
  | [] => O
  | t :: r => if t <=? x then S (bisect_right r x) else O
  end.

(** The info in force at the UTC time [x]:
    [_transition_info[max(0, bisect_right(_utc_transition_times, x) - 1)]]. *)
Definition info_at (x : Z) : tzinfo :=
  nth (Nat.pred (bisect_right utc_transition_times x)) transition_info CST.

Definition fromutc (x : Z) : localtime :=
  let inf := info_at x in mklocal (x + utcoffset inf) inf.

Definition normalize (lt : localtime) : localtime :=
  fromutc (wall lt - utcoffset (zone lt)).

(** Aware datetimes are equal when they name one instant. *)
Definition utc_time (lt : localtime) : Z := wall lt - utcoffset (zone lt).
Definition same_instant (a b : localtime) : bool := utc_time a =? utc_time b.

(** One round of the loop over [delta]: the zone in force a day before
    or after, kept if the wall clock survives normalization. *)
Definition candidate (dt delta : Z) : list localtime :=
  let tzinfo := info_at (dt + delta) in
  let loc_dt := normalize (mklocal dt tzinfo) in
  if wall loc_dt =? dt then [loc_dt] else [].

(** [set.add]. *)
Definition set_add (x : localtime) (s : list localtime) : list localtime :=
  if existsb (same_instant x) s then s else s ++ [x].

Definition possible_loc_dt (dt : Z) : list localtime :=
  fold_left (fun s x => set_add x s)
            (candidate dt (-1440) ++ candidate dt 1440) [].

(** The element with the latest UTC time ([dates[max(dates)]]). *)
Fixpoint latest (best : localtime) (l : list localtime) : localtime :=
  match l with
  | [] => best
  | x :: r => latest (if utc_time best <? utc_time x then x else best) r
  end.

(** [localize(dt)] with [is_dst=False].  [fuel] bounds the depth of the
    recursion taken for a wall time that does not exist. *)
Fixpoint localize_fuel (fuel : nat) (dt : Z) : result localtime :=
  match possible_loc_dt dt with
  | [x] => Ok x
  | [] =>
      match fuel with
      | O => Raise RecursionError
      | S f =>
          r <- localize_fuel f (dt - 360) ;;
          Ok (mklocal (wall r + 360) (zone r))
      end
  | x :: l =>
      match filter (fun p => Bool.eqb (negb (dst (zone p) =? 0)) false)
                   (x :: l) with
      | [y] => Ok y
      | [] => Ok (latest x l)
      | y :: l' => Ok (latest y l')
      end
  end.

Definition localize (dt : Z) : result localtime := localize_fuel 1000 dt.

End Pytz.

(* ================================================================== *)
(** ** The date parser *)

Module DataProcessor.

Definition alpha : Re.matcher := Re.chr PyStr.isalpha_ascii.
Definition digit : Re.matcher := Re.chr PyStr.isdigit.
Definition APM : Re.matcher :=
  Re.chr (fun c => Ascii.eqb c "A" || Ascii.eqb c "P" || Ascii.eqb c "M").

(** ["[a-zA-Z]{3} [a-zA-Z]{3} \d{2}, \d{1,2}:\d{2}[APM]{2}"] *)
Definition date_pattern : Re.matcher :=
  Re.seqs [Re.times 3 alpha; Re.lit " "; Re.times 3 alpha; Re.lit " ";
           Re.times 2 digit; Re.lit ","; Re.lit " ";
           Re.alt (Re.times 2 digit) (Re.times 1 digit); Re.lit ":";
           Re.times 2 digit; Re.times 2 APM].

(** The first two steps of [parse_auction_date]: the meridiem in capitals,
    then the text of the first match of the pattern, or the whole text
    when there is none. *)
Definition clean_date (date_str : string) : string :=
  let clean_date := PyStr.replace "pm" "PM" (PyStr.replace "am" "AM" date_str) in
  match Re.search date_pattern clean_date with
  | Some group0 => group0
  | None => clean_date
  end.

(** [f"{current_year} {clean_date}"] *)
Definition date_with_year (current_year : Z) (date_str : string) : string :=
  (str_of_int current_year ++ " " ++ clean_date date_str)%string.

(** [localized.astimezone(pytz.UTC)] *)
Definition astimezone_utc (localized : Pytz.localtime) : datetime :=
  of_minutes (Pytz.wall localized - utcoffset (Pytz.zone localized)) (Some UTC).

(** [parse_auction_date].  [current_year] is [datetime.now().year]. *)
Definition parse_auction_date (current_year : Z) (date_str : string)
  : result datetime :=
  naive_date <- Strptime.strptime (date_with_year current_year date_str) ;;
  localized <- Pytz.localize (to_minutes naive_date) ;;
  Ok (astimezone_utc localized).

End DataProcessor.

(* ================================================================== *)
(** ** Validated records *)

(** A value handed to a validated field: [None], a string or an integer. *)
Inductive pyval : Type :=
| PNone
| PStr (s : string)
| PInt (n : Z).

(** Every character of the text is the digit 0. *)
Fixpoint all_zeros (s : string) : bool :=
  match s with
  | EmptyString => true
  | String c r => Ascii.eqb c "0" && all_zeros r
  end.

(** The text without a fraction of zeros: it is cut at its first point
    when nothing but zeros follows that point. *)
Fixpoint strip_decimal_zeros (s : string) : string :=
  match s with
  | EmptyString => EmptyString
  | String c r =>
      if Ascii.eqb c "."
      then if all_zeros r then EmptyString else s
      else String c (strip_decimal_zeros r)
  end.

(** The sign in front of a number, and the text after it. *)
Definition split_sign (s : string) : Z * string :=
  match s with
  | String "-" r => (-1, r)
  | String "+" r => (1, r)
  | _ => (1, s)
  end.

(** What pydantic reads a string as in an [int] field (lax mode;
    [str_as_int] of pydantic-core 2): the blanks around the text are
    dropped, then a fraction of zeros, and what is left must be a number
    of base ten as [int] reads one, with no blank left in it.  So "2020",
    " 2020 " and "2020.0" are read as 2020, and "2020.5" is not read.
    The cap on the number of digits is left out. *)
Definition str_as_int (s : string) : option Z :=
  let t := strip_decimal_zeros (int_rstrip (int_lstrip s)) in
  let '(sign, ds) := split_sign t in
  match digits_value 0 false ds with
  | Some v => Some (sign * v)
  | None => None
  end.

(** The coercion of an [int] field: an integer passes, a string goes
    through [str_as_int], and [None] is rejected. *)
Definition validate_int (v : pyval) : result Z :=
  match v with
  | PInt n => Ok n
  | PStr s =>
      match str_as_int s with
      | Some n => Ok n
      | None => Raise ValidationError
      end
  | PNone => Raise ValidationError
  end.

(** The check of a [str] field, on a string or [None]. *)
Definition validate_str (v : option string) : result string :=
  match v with
  | Some s => Ok s
  | None => Raise ValidationError
  end.

Record Engine : Type := mkEngine {
  description : string;
  cylinders : option string
}.

(** [Engine(description, cylinders)]. *)
Definition Engine_init (description : option string) (cylinders : option string)
  : result Engine :=
  d <- validate_str description ;;
  Ok (mkEngine d cylinders).

(** [vehicle_year] is the field [year]. *)
Record Vehicle : Type := mkVehicle {
  vehicle_year : Z;
  make : string;
  model : string;
  vin : string;
  engine : Engine;
  transmission : Transmission
}.

(** [Vehicle(year=..., make=..., model=..., vin=..., engine=...,
    transmission=...)]; fields are validated in declaration order. *)
Definition Vehicle_init (year : pyval) (make model vin : option string)
    (engine : Engine) (transmission : Transmission) : result Vehicle :=
  y <- validate_int year ;;
  mk <- validate_str make ;;
  md <- validate_str model ;;
  vn <- validate_str vin ;;
  Ok (mkVehicle y mk md vn engine transmission).

(** [Auction]: a plain frozen dataclass, nothing is validated.  Each
    instance gets a list of its own from [default_factory=list]. *)
Record Auction : Type := mkAuction {
  date_utc : datetime;
  location : option string;
  vehicles : list Vehicle
}.

(* ================================================================== *)
(** ** The file processor *)

(** What [csv.reader] yields for a file: the header row, the rows after
    it, and the exception, if any, that the reader raises after the last
    of them. *)
Record csv_file : Type := mkcsv {
  fieldnames : list string;
  records : list (list string);
  trailer : option exn
}.

(** A row as [csv.DictReader] yields it. *)
Definition row_dict : Type := list (string * option string).

(** [dict(zip(fieldnames, row))], then [restval=None] for the fields the
    row is short of. *)
Fixpoint dict_of_row (names : list string) (row : list string) : row_dict :=
  match names, row with
  | [], _ => []
  | n :: ns, [] => (n, None) :: dict_of_row ns []
  | n :: ns, x :: xs => (n, Some x) :: dict_of_row ns xs
  end.

(** The value under [k]; of two columns of one name the later wins. *)
Fixpoint lookup (k : string) (row : row_dict) : option (option string) :=
  match row with
  | [] => None
  | (n, v) :: r =>
      match lookup k r with
      | Some w => Some w
      | None => if String.eqb n k then Some v else None
      end
  end.

(** [row[k]]. *)
Definition getitem (row : row_dict) (k : string) : result (option string) :=
  match lookup k row with
  | Some v => Ok v
  | None => Raise KeyError
  end.

(** [row.get(k, default)]. *)
Definition get (row : row_dict) (k : string) (default : option string)
  : option string :=
  match lookup k row with
  | Some v => v
  | None => default
  end.

Definition triple : Type := datetime * option string * Vehicle.

(** A list comprehension over a fallible body: the first exception ends it. *)
Fixpoint mapM {A B : Type} (f : A -> result B) (l : list A) : result (list B) :=
  match l with
  | [] => Ok []
  | x :: r => y <- f x ;; ys <- mapM f r ;; Ok (y :: ys)
  end.

Module FileProcessor.
Import DataProcessor.

(** The body of the comprehension of [process_file], for one row. *)
Definition process_row (current_year : Z) (row : row_dict) : result triple :=
  auction_date <- getitem row "Auction Date" ;;
  date <- match auction_date with
          | Some s => parse_auction_date current_year s
          | None => Raise AttributeError
          end ;;
  branch <- getitem row "Branch Name" ;;
  year_text <- getitem row "Year" ;;
  year <- match year_text with
          | Some s => int_of_str s
          | None => Raise TypeError
          end ;;
  make <- getitem row "Make" ;;
  model <- getitem row "Model" ;;
  vin <- getitem row "Vin#" ;;
  engine_text <- getitem row "Engine" ;;
  engine <- Engine_init engine_text (get row "Cylinders" (Some "N/A")) ;;
  let transmission := from_str (get row "Transmission Type" (Some "")) in
  vehicle <- Vehicle_init (PInt year) make model vin engine transmission ;;
  Ok (date, branch, vehicle).

(** The rows [DictReader] hands out: blank rows are skipped. *)
Definition reader_rows (f : csv_file) : list row_dict :=
  map (dict_of_row (fieldnames f))
      (filter (fun r => negb (Nat.eqb (List.length r) 0)) (records f)).

(** [process_file], on the outcome of opening and reading the file. *)
Definition process_file (current_year : Z) (opened : result csv_file)
  : result (list triple) :=
  f <- opened ;;
  rows <- mapM (process_row current_year) (reader_rows f) ;;
  match trailer f with
  | Some e => Raise e
  | None => Ok rows
  end.

End FileProcessor.

(* ================================================================== *)
(** ** The pipeline *)

Definition Path : Type := string.

(** The part of the file system the pipeline reads. *)
Record filesystem : Type := mkfs {
  path_exists : Path -> bool;            (* [Path.exists] *)
  glob_csv : Path -> list Path;          (* [list(path.glob("*.csv"))] *)
  open_csv : Path -> result csv_file     (* [open] and [csv.reader] *)
}.

(** The grouping key [(date_utc, loc)]. *)
Definition key : Type := datetime * option string.

Definition key_eqb (a b : key) : bool :=
  datetime_eqb (fst a) (fst b) && option_eqb String.eqb (snd a) (snd b).

(** The dict [auctions], in insertion order. *)
Definition auctions_dict : Type := list (key * Auction).

(** [key in auctions]. *)
Definition contains (k : key) (auctions : auctions_dict) : bool :=
  existsb (fun e => key_eqb (fst e) k) auctions.

(** [auctions[key] = a] for a key that is not in the dict. *)
Definition insert_new (k : key) (a : Auction) (auctions : auctions_dict)
  : auctions_dict :=
  auctions ++ [(k, a)].

(** [auctions[key].vehicles.append(vehicle)]: the list of the one Auction
    stored under [key] grows; the dict keeps its order. *)
Fixpoint append_vehicle (k : key) (v : Vehicle) (auctions : auctions_dict)
  : auctions_dict :=
  match auctions with
  | [] => []
  | (k', a) :: r =>
      if key_eqb k' k
      then (k', mkAuction (date_utc a) (location a) (vehicles a ++ [v])) :: r
      else (k', a) :: append_vehicle k v r
  end.

(** The body of the inner loop of the merge. *)
Definition merge_triple (auctions : auctions_dict) (t : triple) : auctions_dict :=
  let '(date_utc, loc, vehicle) := t in
  let k := (date_utc, loc) in
  let auctions :=
    if negb (contains k auctions)
    then insert_new k (mkAuction date_utc loc []) auctions
    else auctions in
  append_vehicle k vehicle auctions.

(** The two nested loops over [results]. *)
Definition merge_dict (results : list (list triple)) : auctions_dict :=
  fold_left (fun auctions file_result => fold_left merge_triple file_result auctions)
            results [].

(** [list(auctions.values())]. *)
Definition merge (results : list (list triple)) : list Auction :=
  map snd (merge_dict results).

(** [asyncio.gather] without [return_exceptions]: the exception of the
    task that fails first is raised; [completion] lists the tasks by
    index in the order in which they finish. *)
Fixpoint first_raised {A : Type} (completion : list nat) (tasks : list (result A))
  : option exn :=
  match completion with
  | [] => None
  | i :: r =>
      match nth_error tasks i with
      | Some (Raise e) => Some e
      | _ => first_raised r tasks
      end
  end.

Definition gather {A : Type} (completion : list nat) (tasks : list (result A))
  : result (list A) :=
  match first_raised completion tasks with
  | Some e => Raise e
  | None => mapM (fun t => t) tasks
  end.

(** What a call of [run_pipeline] does: its outcome and the files it has
    had opened. *)
Record run : Type := mkrun {
  outcome : result (list Auction);
  opened_files : list Path
}.

(** [run_pipeline].  [current_year] is the year of the clock and
    [completion] the order in which the worker threads finish. *)
Definition run_pipeline (fs : filesystem) (current_year : Z)
    (completion : list nat) (directory_name : Path) : run :=
  if negb (path_exists fs directory_name)
  then mkrun (Raise FileNotFoundError) []
  else
    let files := glob_csv fs directory_name in
    let tasks :=
      map (fun f => FileProcessor.process_file current_year (open_csv fs f)) files in
    mkrun (results <- gather completion tasks ;; Ok (merge results)) files.

(* ================================================================== *)
(** ** Enum members by value *)

(** [Transmission(value)], the call of the enum class that [tests.py]
    makes: the member whose value is [value], and a [ValueError] when no
    member has it. *)
Definition Transmission_of_value (value : string) : result Transmission :=
  match find (fun member => String.eqb (Transmission_value member) value)
             Transmission_members with
  | Some member => Ok member
  | None => Raise ValueError
  end.

(* ================================================================== *)
(** * Vocabulary of the statements *)

Import DataProcessor FileProcessor Re Strptime.

(** ** Grouping *)

(** The grouping key and the vehicle of a triple. *)
Definition key_of (t : triple) : key := (fst (fst t), snd (fst t)).
Definition vehicle_of (t : triple) : Vehicle := snd t.

(** The key made of the fields of an Auction. *)
Definition auction_key (a : Auction) : key := (date_utc a, location a).

(** A vehicle with the given VIN, and the date of the samples. *)
Definition sample_vehicle (vin : string) : Vehicle :=
  mkVehicle 2020 "Audi" "A4" vin (mkEngine "V6" (Some "6")) AUTOMATIC.

Definition sample_day : datetime := mkdatetime 2026 12 1 14 30 (Some UTC).

(** The vehicles of the triples filed under [k], in the order of [ts]. *)
Definition vehicles_for (k : key) (ts : list triple) : list Vehicle :=
  map vehicle_of (filter (fun t => key_eqb (key_of t) k) ts).

(** The triples an Auction list stands for. *)
Definition triples_of (out : list Auction) : list triple :=
  flat_map (fun a => map (fun v => (date_utc a, location a, v)) (vehicles a)) out.

(** An Auction with one more vehicle at the end of its list. *)
Definition grow (a : Auction) (v : Vehicle) : Auction :=
  mkAuction (date_utc a) (location a) (vehicles a ++ [v]).

(** What the dict holds after the triples [ts] have been merged. *)
Record merge_inv (d : auctions_dict) (ts : list triple) : Prop := {
  inv_nodup : NoDup (map fst d);
  inv_keys : forall k, In k (map fst d) <-> In k (map key_of ts);
  inv_entry : forall k a, In (k, a) d ->
      k = auction_key a /\ vehicles a = vehicles_for k ts;
  inv_perm : Permutation (triples_of (map snd d)) ts
}.

(** ** Texts and values *)

(** No character of the text is a blank. *)
Definition no_space (s : string) : bool :=
  forallb (fun c => negb (PyStr.isspace c)) (list_ascii_of_string s).

(** ** Files and tasks *)

(** The tasks [run_pipeline] hands to the pool, in the order of [files]. *)
Definition file_tasks (fs : filesystem) (now : Z) (dir : Path)
  : list (result (list triple)) :=
  map (fun f => process_file now (open_csv fs f)) (glob_csv fs dir).

(** A sample file: no "Cylinders" and no "Transmission Type" column. *)
Definition sample_header : list string :=
  ["Auction Date"; "Branch Name"; "Year"; "Make"; "Model"; "Vin#"; "Engine"].

Definition sample_file : csv_file :=
  mkcsv sample_header
        [["Mon Dec 01, 8:30am CST"; "Dallas"; "2019"; "Audi"; "A4"; "VIN1"; "V6"];
         [];
         ["Mon Dec 01, 8:30am CST"; "Dallas"; "2020"; "Ford"; "F150"; "VIN2"; "V8"]]
        None.

(** A file whose second row has a year that is no number. *)
Definition bad_file : csv_file :=
  mkcsv sample_header
        [["Mon Dec 01, 8:30am CST"; "Austin"; "2019"; "Audi"; "A4"; "VIN3"; "V6"];
         ["Mon Dec 01, 8:30am CST"; "Austin"; "STARY"; "Fiat"; "500"; "VIN4"; "R4"]]
        None.

(** A file whose only row has a date that cannot be read, a file whose
    only row stops after the branch, a file without a "Year" column, and
    a file the CSV reader gives up on after its first row. *)
Definition bad_date_file : csv_file :=
  mkcsv sample_header
        [["tomorrow"; "Austin"; "2019"; "Audi"; "A4"; "VIN5"; "V6"]] None.

Definition short_row_file : csv_file :=
  mkcsv sample_header [["Mon Dec 01, 8:30am CST"; "Austin"]] None.

Definition no_year_file : csv_file :=
  mkcsv ["Auction Date"; "Branch Name"; "Make"; "Model"; "Vin#"; "Engine"]
        [["Mon Dec 01, 8:30am CST"; "Austin"; "Audi"; "A4"; "VIN6"; "V6"]] None.

Definition broken_csv_file : csv_file :=
  mkcsv sample_header
        [["Mon Dec 01, 8:30am CST"; "Austin"; "2019"; "Audi"; "A4"; "VIN7"; "V6"]]
        (Some CsvError).

(** A directory [csv_files] with the sample file and the file with the
    bad year, and a directory [good_files] with the sample file alone. *)
Definition sample_fs : filesystem :=
  mkfs (fun p => String.eqb p "csv_files" || String.eqb p "good_files")
       (fun p => if String.eqb p "good_files" then ["a.csv"]
                 else ["a.csv"; "b.csv"])
       (fun f => if String.eqb f "a.csv" then Ok sample_file
                 else if String.eqb f "b.csv" then Ok bad_file
                 else Raise FileNotFoundError).

(** The data rows of a file: the records that are not blank lines. *)
Definition data_rows (f : csv_file) : list (list string) :=
  filter (fun r => match r with [] => false | _ :: _ => true end) (records f).

(** The value a record has in the column called [k]: the field at the
    place of the last column of that name in the header, and [None] when
    the record stops before that place. *)
Definition column (names record : list string) (k : string)
    (v : option string) : Prop :=
  exists i, nth_error names i = Some k
            /\ (forall j, (i < j)%nat -> nth_error names j <> Some k)
            /\ v = nth_error record i.

(** The value of an optional column: that of the column when the header
    has it, and the default when it has not. *)
Definition optional_column (names record : list string) (k default : string)
    (v : option string) : Prop :=
  (In k names /\ column names record k v)
  \/ (~ In k names /\ v = Some default).

(** The triple a record gives: the date parsed from "Auction Date", the
    branch as it is written, and the vehicle made of the year read as an
    integer, the make, the model, the VIN, the engine with its cylinders
    (default "N/A") and the transmission read from its column (default
    the empty text). *)
Definition row_gives (now : Z) (names record : list string) (t : triple) : Prop :=
  exists d b y mk md vn en cyl tr date n,
    column names record "Auction Date" (Some d)
    /\ column names record "Branch Name" b
    /\ column names record "Year" (Some y)
    /\ column names record "Make" (Some mk)
    /\ column names record "Model" (Some md)
    /\ column names record "Vin#" (Some vn)
    /\ column names record "Engine" (Some en)
    /\ optional_column names record "Cylinders" "N/A" cyl
    /\ optional_column names record "Transmission Type" "" tr
    /\ parse_auction_date now d = Ok date
    /\ int_of_str y = Ok n
    /\ t = (date, b, mkVehicle n mk md vn (mkEngine en cyl) (from_str tr)).

(** ** The US rule for daylight saving time *)

(** The day of the month of the [n]-th Sunday of a month. *)
Definition nth_sunday (y mo n : Z) : Z :=
  1 + (6 - Calendar.weekday y mo 1) mod 7 + 7 * (n - 1).

(** The wall-clock minute at which the clocks change: 02:00 on the second
    Sunday of March and 02:00 on the first Sunday of November. *)
Definition dst_start (y : Z) : Z :=
  Calendar.ymd2ord y 3 (nth_sunday y 3 2) * 1440 + 120.

Definition dst_end (y : Z) : Z :=
  Calendar.ymd2ord y 11 (nth_sunday y 11 1) * 1440 + 120.

(** The offset of US Central from UTC, in minutes, at a wall-clock time:
    daylight time (UTC-5) from 03:00 on the second Sunday of March up to
    01:00 on the first Sunday of November, and standard time (UTC-6)
    otherwise.  The hour that is skipped in March (02:00 to 03:00) and the
    hour that comes twice in November (01:00 to 02:00) count as standard
    time. *)
Definition central_utcoffset (naive : datetime) : Z :=
  let m := to_minutes naive in
  if (dst_start (year naive) + 60 <=? m) && (m <? dst_end (year naive) - 60)
  then -300 else -360.

(** The first minute of a year. *)
Definition year_start (y : Z) : Z := Calendar.ymd2ord y 1 1 * 1440.

(** The years the table of [Pytz.transitions] serves. *)
Definition table_years : list Z := map Z.of_nat (List.seq 2007 31).

(** Each element is less than the next. *)
Definition sortedb (l : list Z) : bool :=
  match l with
  | [] => true
  | a :: r => snd (fold_left (fun '(p, ok) t => (t, ok && (p <? t))) r (a, true))
  end.

(** The entries of [Pytz.transitions] around a year and the US rule
    agree, with room on both sides of the year. *)
Definition year_okb (y : Z) : bool :=
  let i := Z.to_nat (2 * (y - 2007)) in
  match nth_error Pytz.transitions i,
        nth_error Pytz.transitions (S i),
        nth_error Pytz.transitions (S (S i)) with
  | Some (p, CST), Some (a, CDT), Some (b, CST) =>
      (p <=? year_start y - 1800)
      && (a =? dst_start y + 360) && (b =? dst_end y + 300)
      && (year_start y + 4000 <=? a) && (a + 4000 <=? b)
      && (b + 4000 <=? year_start (y + 1))
      && match nth_error Pytz.transitions (S (S (S i))) with
         | Some (n, _) => year_start (y + 1) + 1800 <=? n
         | None => true
         end
  | _, _, _ => false
  end.

(** Every date of a year lies between the first minutes of that year and
    of the next. *)
Definition month_okb (y mo : Z) : bool :=
  (year_start y <=? Calendar.ymd2ord y mo 1 * 1440)
  && (Calendar.ymd2ord y mo (Calendar.days_in_month y mo) * 1440 + 1440
      <=? year_start (y + 1)).

(** The zone of a wall-clock minute count, given the UTC minute counts [a]
    and [b] at which daylight time starts and ends. *)
Definition zone_of (a b m : Z) : tzinfo :=
  if (a - 300 <=? m) && (m <? b - 360) then CDT else CST.

(** The fields of a datetime that the constructor accepts. *)
Definition valid_datetime (dt : datetime) : Prop :=
  1 <= month dt <= 12
  /\ 1 <= day dt <= Calendar.days_in_month (year dt) (month dt)
  /\ 0 <= hour dt <= 23 /\ 0 <= minute dt <= 59.

(** ** Checks over the years, the days and the characters *)

(** The 256 characters. *)
Definition all_ascii : list ascii := map ascii_of_nat (List.seq 0 256).

Definition in_range (lo hi v : Z) : bool := (lo <=? v) && (v <=? hi).

(** [str] writes the year with four characters, and [int] reads it back. *)
Definition year_textb (y : Z) : bool :=
  match str_of_int y with
  | String _ (String _ (String _ (String _ EmptyString))) =>
      int_group (str_of_int y) =? y
  | _ => false
  end.

(** The ordinals of the days from 1 January 2007 to 31 December 2038. *)
Definition first_ordinal : Z := Calendar.ymd2ord 2007 1 1.

Definition ordinal_count : nat := Z.to_nat 11688.

(** [ord2ymd] gives a date of the calendar, [ymd2ord] takes it back, and
    the year is the one the ordinal falls in. *)
Definition ord_okb (n : Z) : bool :=
  let '(y, mo, d) := Calendar.ord2ymd n in
  (Calendar.ymd2ord y mo d =? n)
  && (1 <=? mo) && (mo <=? 12)
  && (1 <=? d) && (d <=? Calendar.days_in_month y mo)
  && (2007 <=? y) && (y <=? 2038)
  && (year_start y <=? n * 1440) && (n * 1440 <? year_start (y + 1)).

(** A later year starts no earlier than the year after [y]. *)
Definition year_monob (y y' : Z) : bool :=
  implb (y <? y') (year_start (y + 1) <=? year_start y').

(** The years a result can fall in. *)
Definition result_years : list Z := map Z.of_nat (List.seq 2007 32).

(** ** The layout, in words *)

(** Every character of the text is of the class [p]. *)
Definition all_chars (p : ascii -> bool) (w : string) : bool :=
  forallb p (list_ascii_of_string w).

(** One blank or more. *)
Definition blanks (w : string) : bool :=
  PyStr.truthy w && all_chars PyStr.isspace w.

(** The number a run of digits writes. *)
Fixpoint decimal (acc : Z) (w : string) : Z :=
  match w with
  | EmptyString => acc
  | String c r => decimal (acc * 10 + digit_value c) r
  end.

(** One or two digits that write a number from [lo] to [hi]. *)
Definition numeral (lo hi : Z) (w : string) : bool :=
  ((String.length w =? 1) || (String.length w =? 2))%nat
  && all_chars PyStr.isdigit w
  && (lo <=? decimal 0 w) && (decimal 0 w <=? hi).

(** One of the names of a list, in any mix of capitals and small letters. *)
Definition name_of (names : list string) (w : string) : bool :=
  existsb (String.eqb (PyStr.lower w)) names.

(** The fixed layout: a year of four digits, the abbreviated weekday,
    the abbreviated month, the day, a comma, hour, colon, minute and the
    meridiem, with blanks where the layout has a blank. *)
Definition layout (s : string) : Prop :=
  exists Y w1 a w2 b w3 d w4 I M p,
    s = (Y ++ w1 ++ a ++ w2 ++ b ++ w3 ++ d ++ "," ++ w4 ++ I ++ ":" ++ M ++ p)%string
    /\ String.length Y = 4%nat /\ all_chars PyStr.isdigit Y = true
    /\ blanks w1 = true /\ name_of a_weekday a = true
    /\ blanks w2 = true /\ name_of (tl a_month) b = true
    /\ blanks w3 = true /\ numeral 1 31 d = true
    /\ blanks w4 = true /\ numeral 1 12 I = true
    /\ numeral 0 59 M = true /\ name_of am_pm p = true.

(** The text without its first [n] characters. *)
Fixpoint drop (n : nat) (s : string) : string :=
  match n, s with
  | S k, String _ r => drop k r
  | _, _ => s
  end.

(** The text without its leading digits. *)
Fixpoint drop_digits (s : string) : string :=
  match s with
  | String c r => if PyStr.isdigit c then drop_digits r else s
  | EmptyString => EmptyString
  end.

(** Where a match of the format ends: the text left after the year, the
    names, the numbers and the blanks between them, each taken as far as
    it goes. *)
Definition format_end (s : string) : string :=
  let r := PyStr.lstrip (drop 4 s) in
  let r := PyStr.lstrip (drop 3 r) in
  let r := PyStr.lstrip (drop 3 r) in
  let r := PyStr.lstrip (drop 1 (drop_digits r)) in
  let r := drop 1 (drop_digits r) in
  drop 2 (drop_digits r).

(** The text starts with a character of the class [p]. *)
Definition first_is (p : ascii -> bool) (s : string) : bool :=
  match s with
  | String c _ => p c
  | EmptyString => false
  end.

(** The text starts with a letter of the ASCII alphabet. *)
Definition starts_with_letter (s : string) : bool :=
  first_is (fun c => PyStr.islower_ascii (PyStr.lower_char c)) s.

(** A text that starts with a number of one or two digits. *)
Definition starts_numeral (lo hi : Z) (s r : string) : Prop :=
  (exists c1 c2, s = String c1 (String c2 r)
                 /\ numeral lo hi (String c1 (String c2 "")) = true)
  \/ (exists c, s = String c r /\ numeral lo hi (String c "") = true).

(** ** The year of a vehicle *)







(** ** What a date says *)

(** The number of the month of an abbreviated name, in any mix of
    capitals and small letters; 0 for any other text. *)
Definition month_number (b : string) : Z :=
  let n := PyStr.lower b in
  if String.eqb n "jan" then 1 else if String.eqb n "feb" then 2
  else if String.eqb n "mar" then 3 else if String.eqb n "apr" then 4
  else if String.eqb n "may" then 5 else if String.eqb n "jun" then 6
  else if String.eqb n "jul" then 7 else if String.eqb n "aug" then 8
  else if String.eqb n "sep" then 9 else if String.eqb n "oct" then 10
  else if String.eqb n "nov" then 11 else if String.eqb n "dec" then 12
  else 0.

(** The meridiem of the afternoon. *)
Definition is_pm (p : string) : bool := String.eqb (PyStr.lower p) "pm".

(** The hour of the day of an hour of the 12-hour clock: 12 AM is hour 0
    and 12 PM is hour 12. *)
Definition clock24 (h : Z) (pm : bool) : Z :=
  h mod 12 + (if pm then 12 else 0).

(** The text has the layout and says month [mo], day [d], hour [h] of the
    12-hour clock, minute [mi], and the afternoon when [pm] is true. *)
Definition reads (s : string) (mo d h mi : Z) (pm : bool) : Prop :=
  exists Y w1 a w2 b w3 dt w4 I M p,
    s = (Y ++ w1 ++ a ++ w2 ++ b ++ w3 ++ dt ++ "," ++ w4 ++ I ++ ":" ++ M ++ p)%string
    /\ String.length Y = 4%nat /\ all_chars PyStr.isdigit Y = true
    /\ blanks w1 = true /\ name_of a_weekday a = true
    /\ blanks w2 = true /\ name_of (tl a_month) b = true
    /\ blanks w3 = true /\ numeral 1 31 dt = true
    /\ blanks w4 = true /\ numeral 1 12 I = true
    /\ numeral 0 59 M = true /\ name_of am_pm p = true
    /\ mo = month_number b /\ d = decimal 0 dt /\ h = decimal 0 I
    /\ mi = decimal 0 M /\ pm = is_pm p.

(** The leading digits of a text. *)
Fixpoint take_digits (s : string) : string :=
  match s with
  | String c r => if PyStr.isdigit c then String c (take_digits r) else EmptyString
  | EmptyString => EmptyString
  end.

(** Where the fields of a text of the layout start, found by going over
    the text from the left: past the four characters of the year and the
    blanks, past the three letters of a name and the blanks, past the
    digits of a number and the sign after it. *)
Definition at_weekday (s : string) : string := PyStr.lstrip (drop 4 s).
Definition at_month (s : string) : string := PyStr.lstrip (drop 3 (at_weekday s)).
Definition at_day (s : string) : string := PyStr.lstrip (drop 3 (at_month s)).
Definition at_hour (s : string) : string :=
  PyStr.lstrip (drop 1 (drop_digits (at_day s))).
Definition at_minute (s : string) : string := drop 1 (drop_digits (at_hour s)).

(** The texts of the fields. *)
Definition month_text (s : string) : string := substring 0 3 (at_month s).
Definition day_text (s : string) : string := take_digits (at_day s).
Definition hour_text (s : string) : string := take_digits (at_hour s).
Definition minute_text (s : string) : string := take_digits (at_minute s).
Definition meridiem_text (s : string) : string := drop_digits (at_minute s).

(** [int] reads a number of one or two digits as the number it writes,
    also after one blank. *)
Definition int_digit_okb (c : ascii) : bool :=
  implb (PyStr.isdigit c)
        ((int_group (String c "") =? decimal 0 (String c ""))
         && (int_group (String " " (String c "")) =? decimal 0 (String c ""))).

Definition int_digits_okb (c1 c2 : ascii) : bool :=
  implb (PyStr.isdigit c1 && PyStr.isdigit c2)
        (int_group (String c1 (String c2 "")) =? decimal 0 (String c1 (String c2 ""))).

(** [str] writes a year with four digits. *)
Definition year_digitsb (y : Z) : bool :=
  (String.length (str_of_int y) =? 4)%nat
  && all_chars PyStr.isdigit (str_of_int y).

(** The text is a date of the layout the pattern of [parse_auction_date]
    looks for, with anything after it: a weekday of three letters, a blank,
    a month of three letters, a blank, a day of two digits, a comma and a
    blank, an hour of one or two digits, a colon, a minute of two digits
    and the meridiem.  It says month [mo], day [d], hour [h] of the
    12-hour clock, minute [mi], and the afternoon when [pm] is true. *)
Definition written (date_str : string) (mo d h mi : Z) (pm : bool) : Prop :=
  exists a b dd I MM p rest,
    date_str
    = (a ++ " " ++ b ++ " " ++ dd ++ ", " ++ I ++ ":" ++ MM ++ p ++ rest)%string
    /\ name_of a_weekday a = true
    /\ name_of (tl a_month) b = true /\ mo = month_number b
    /\ String.length dd = 2%nat /\ all_chars PyStr.isdigit dd = true
    /\ d = decimal 0 dd
    /\ numeral 1 12 I = true /\ h = decimal 0 I
    /\ String.length MM = 2%nat /\ all_chars PyStr.isdigit MM = true
    /\ mi = decimal 0 MM /\ mi <= 59
    /\ In p ["AM"; "PM"; "am"; "pm"] /\ pm = is_pm p.

(** No place in the text where [c1] is followed by [c2]. *)
Fixpoint pair_free (c1 c2 : ascii) (s : string) : bool :=
  match s with
  | String a r =>
      negb (Ascii.eqb a c1 && first_is (Ascii.eqb c2) r) && pair_free c1 c2 r
  | EmptyString => true
  end.

(** The meridiem in capitals. *)
Definition meridiem_capitals (p : string) : string :=
  if is_pm p then "PM" else "AM".

(** A character [lower] leaves as it is. *)
Definition small (c : ascii) : bool := Ascii.eqb (PyStr.lower_char c) c.

(** The names of the layout hold no "am" and no "pm". *)
Definition meridiem_free (w : string) : bool :=
  pair_free "a" "m" w && pair_free "p" "m" w.

(** ** The date parser *)

(** The text handed to [strptime], which is the text after the first two
    steps with the current year in front, has the layout. *)
Definition conforms_to_layout (now : Z) (date_str : string) : Prop :=
  layout (date_with_year now date_str).

(** The hours US Central is behind UTC at a wall-clock time: 5 in
    daylight time and 6 in standard time. *)
Definition hours_behind (naive : datetime) : Z :=
  (0 - central_utcoffset naive) / 60.

(** 31 December, from 18:00 on: the Central times whose UTC time falls in
    the next year. *)
Definition late_on_new_years_eve (naive : datetime) : bool :=
  (month naive =? 12) && (day naive =? 31) && (18 <=? hour naive).



(** The year ends a day after 31 December, and every earlier month ends
    more than six hours before the year does. *)
Definition year_end_okb (y mo : Z) : bool :=
  if mo =? 12
  then (Calendar.ymd2ord y 12 31 + 1) * 1440 =? year_start (y + 1)
  else (Calendar.ymd2ord y mo (Calendar.days_in_month y mo) + 1) * 1440 + 360
       <=? year_start (y + 1).

(** ** The merged list *)

(** The keys of a list, each kept at the place where it comes first. *)
Fixpoint distinct (ks : list key) : list key :=
  match ks with
  | [] => []
  | k :: r => k :: filter (fun k' => negb (key_eqb k' k)) (distinct r)
  end.

(** The key the dict files a triple under is not among the keys of [d]. *)
Definition absent_from (d : auctions_dict) (k : key) : bool :=
  negb (contains k d).

(** What the merge leaves in an Auction list: keys that differ pairwise
    and no Auction without a vehicle. *)
Definition merged_shape (out : list Auction) : Prop :=
  NoDup (map auction_key out) /\ Forall (fun a => vehicles a <> []) out.

(** The second list of triples has none of the keys of the first. *)
Definition keys_apart (ts us : list triple) : Prop :=
  forall t u, In t ts -> In u us -> key_of t <> key_of u.

(** ** Members and values *)

(** ** Rows and runs *)

(** The columns [process_row] reads with [row[...]]. *)
Definition required_columns : list string :=
  ["Auction Date"; "Branch Name"; "Year"; "Make"; "Model"; "Vin#"; "Engine"].

(** The columns whose value goes into a validated [str] field. *)
Definition text_columns : list string := ["Make"; "Model"; "Vin#"; "Engine"].

(** What in the row makes [process_row] raise an exception of each kind. *)
Definition cause (now : Z) (row : row_dict) (e : exn) : Prop :=
  match e with
  | KeyError => exists k, In k required_columns /\ lookup k row = None
  | AttributeError => lookup "Auction Date" row = Some None
  | TypeError => lookup "Year" row = Some None
  | ValueError =>
      (exists s, lookup "Auction Date" row = Some (Some s)
                 /\ parse_auction_date now s = Raise ValueError)
      \/ (exists s, lookup "Year" row = Some (Some s)
                    /\ int_of_str s = Raise ValueError)
  | ValidationError => exists k, In k text_columns /\ lookup k row = Some None
  | _ => False
  end.

(** A row with a field for every column of the header. *)
Definition full_row (names : list string) (row : list string) : Prop :=
  (List.length names <= List.length row)%nat.

(** A directory that exists and holds no CSV file. *)
Definition empty_dir_fs : filesystem :=
  mkfs (fun _ => true) (fun _ => []) (fun _ => Raise FileNotFoundError).

(* ================================================================== *)
(** * Lemmas and theorems *)


(** ** The merge *)

Lemma tzinfo_eqb_eq (a b : tzinfo) : tzinfo_eqb a b = true <-> a = b.
Proof. destruct a, b; simpl; split; congruence. Qed.

Lemma datetime_eqb_eq (a b : datetime) : datetime_eqb a b = true <-> a = b.
Proof.
  destruct a as [y1 m1 d1 h1 n1 t1], b as [y2 m2 d2 h2 n2 t2].
  unfold datetime_eqb; simpl.
  rewrite !andb_true_iff, !Z.eqb_eq.
  split.
  - intros [[[[[-> ->] ->] ->] ->] Ht].
    destruct t1 as [t1|], t2 as [t2|]; simpl in Ht; try discriminate.
    + apply tzinfo_eqb_eq in Ht. now subst.
    + reflexivity.
  - intros H; injection H as -> -> -> -> -> ->.
    repeat split; try reflexivity.
    destruct t2 as [t2|]; simpl; [now apply tzinfo_eqb_eq | reflexivity].
Qed.

Lemma key_eqb_eq (a b : key) : key_eqb a b = true <-> a = b.
Proof.
  destruct a as [d1 l1], b as [d2 l2]. unfold key_eqb; simpl.
  rewrite andb_true_iff, datetime_eqb_eq.
  split.
  - intros [-> Hl]. destruct l1, l2; simpl in Hl; try discriminate.
    + apply String.eqb_eq in Hl. now subst.
    + reflexivity.
  - intros H; injection H as -> ->. split; [reflexivity|].
    destruct l2; simpl; [apply String.eqb_refl | reflexivity].
Qed.

Lemma key_eqb_refl (k : key) : key_eqb k k = true.
Proof. now apply key_eqb_eq. Qed.

Lemma key_eqb_neq (a b : key) : key_eqb a b = false <-> a <> b.
Proof.
  rewrite <- key_eqb_eq. destruct (key_eqb a b); split; congruence.
Qed.

Lemma contains_In (k : key) (d : auctions_dict) :
  contains k d = true <-> In k (map fst d).
Proof.
  unfold contains. rewrite existsb_exists. split.
  - intros [e [He Hk]]. apply key_eqb_eq in Hk. subst. now apply in_map.
  - intros H. apply in_map_iff in H as [e [<- He]].
    exists e. split; [assumption | apply key_eqb_refl].
Qed.

Lemma append_vehicle_absent (k : key) (v : Vehicle) (d : auctions_dict) :
  ~ In k (map fst d) -> append_vehicle k v d = d.
Proof.
  induction d as [|[k' a] d IH]; simpl; intros H; [reflexivity|].
  destruct (key_eqb k' k) eqn:E.
  - apply key_eqb_eq in E. tauto.
  - rewrite IH; tauto.
Qed.

Lemma append_vehicle_app (k : key) (v : Vehicle) (d e : auctions_dict) :
  ~ In k (map fst d) -> append_vehicle k v (d ++ e) = d ++ append_vehicle k v e.
Proof.
  induction d as [|[k' a] d IH]; simpl; intros H; [reflexivity|].
  destruct (key_eqb k' k) eqn:E.
  - apply key_eqb_eq in E. tauto.
  - rewrite IH; tauto.
Qed.

Lemma in_keys_split (k : key) (d : auctions_dict) :
  In k (map fst d) ->
  exists d1 a d2, d = d1 ++ (k, a) :: d2 /\ ~ In k (map fst d1).
Proof.
  induction d as [|[k' a] d IH]; simpl; [tauto|].
  intros H. destruct (key_eqb k' k) eqn:E.
  - apply key_eqb_eq in E. subst. exists [], a, d. simpl. tauto.
  - apply key_eqb_neq in E. destruct H as [H|H]; [congruence|].
    destruct (IH H) as [d1 [a' [d2 [-> Hn]]]].
    exists ((k', a) :: d1), a', d2. simpl. split; [reflexivity|]. tauto.
Qed.

(** The merge of one triple, in closed form. *)
Lemma merge_triple_spec (d : auctions_dict) (t : triple) :
  let k := key_of t in
  (~ In k (map fst d) /\
   merge_triple d t = d ++ [(k, mkAuction (fst k) (snd k) [vehicle_of t])])
  \/
  (exists d1 a d2, d = d1 ++ (k, a) :: d2 /\ ~ In k (map fst d1) /\
     merge_triple d t = d1 ++ (k, grow a (vehicle_of t)) :: d2).
Proof.
  destruct t as [[dt loc] v]. unfold key_of, vehicle_of; simpl.
  destruct (contains (dt, loc) d) eqn:C.
  - right. apply contains_In in C.
    destruct (in_keys_split _ _ C) as [d1 [a [d2 [-> Hn]]]].
    exists d1, a, d2. repeat split; try assumption.
    simpl. rewrite append_vehicle_app by assumption. simpl.
    now rewrite key_eqb_refl.
  - left. assert (Hn : ~ In (dt, loc) (map fst d)).
    { intros H. apply contains_In in H. congruence. }
    split; [assumption|].
    simpl.
    unfold insert_new. rewrite append_vehicle_app by assumption.
    simpl. now rewrite key_eqb_refl.
Qed.

Lemma fold_merge_concat (results : list (list triple)) (d : auctions_dict) :
  fold_left (fun auctions file_result => fold_left merge_triple file_result auctions)
            results d
  = fold_left merge_triple (List.concat results) d.
Proof.
  revert d. induction results as [|r rs IH]; intros d; simpl; [reflexivity|].
  now rewrite fold_left_app, IH.
Qed.

Lemma vehicles_for_app (k : key) (ts us : list triple) :
  vehicles_for k (ts ++ us) = vehicles_for k ts ++ vehicles_for k us.
Proof. unfold vehicles_for. now rewrite filter_app, map_app. Qed.

Lemma vehicles_for_absent (k : key) (ts : list triple) :
  ~ In k (map key_of ts) -> vehicles_for k ts = [].
Proof.
  unfold vehicles_for. induction ts as [|t ts IH]; simpl; intros H; [reflexivity|].
  destruct (key_eqb (key_of t) k) eqn:E.
  - apply key_eqb_eq in E. tauto.
  - apply IH. tauto.
Qed.

Lemma vehicles_for_present (k : key) (ts : list triple) :
  In k (map key_of ts) -> vehicles_for k ts <> [].
Proof.
  unfold vehicles_for. induction ts as [|t ts IH]; simpl; [tauto|].
  intros H. destruct (key_eqb (key_of t) k) eqn:E; simpl; [discriminate|].
  apply key_eqb_neq in E. destruct H; [congruence | auto].
Qed.

Lemma merge_inv_nil : merge_inv [] [].
Proof.
  split; simpl; try tauto.
  - constructor.
  - constructor.
Qed.

Lemma triples_of_app (l1 l2 : list Auction) :
  triples_of (l1 ++ l2) = triples_of l1 ++ triples_of l2.
Proof. unfold triples_of. apply flat_map_app. Qed.

Lemma merge_inv_step (d : auctions_dict) (ts : list triple) (t : triple) :
  merge_inv d ts -> merge_inv (merge_triple d t) (ts ++ [t]).
Proof.
  intros [Hnd Hkeys Hent Hperm].
  assert (Hkt : forall k, In k (map key_of (ts ++ [t])) <->
                          In k (map key_of ts) \/ k = key_of t).
  { intros k. rewrite map_app, in_app_iff. simpl. intuition congruence. }
  assert (Hvt : vehicles_for (key_of t) [t] = [vehicle_of t]).
  { unfold vehicles_for. simpl. now rewrite key_eqb_refl. }
  assert (Hvo : forall k, k <> key_of t -> vehicles_for k [t] = []).
  { intros k Hk. unfold vehicles_for. simpl.
    destruct (key_eqb (key_of t) k) eqn:E; [|reflexivity].
    apply key_eqb_eq in E. congruence. }
  assert (Ht : t = (fst (key_of t), snd (key_of t), vehicle_of t)).
  { destruct t as [[? ?] ?]. reflexivity. }
  destruct (merge_triple_spec d t) as [[Hn ->] | [d1 [a [d2 [-> [Hn ->]]]]]].
  - (* a new key: one more Auction at the end *)
    split.
    + rewrite map_app. simpl. apply NoDup_app_remove_l with (l := []).
      simpl. apply Permutation_NoDup with (l := key_of t :: map fst d).
      * apply Permutation_cons_append.
      * now constructor.
    + intros k. rewrite Hkt, map_app, in_app_iff, <- Hkeys. simpl. intuition.
    + intros k a Hin. apply in_app_iff in Hin as [Hin | [Hin | []]].
      * destruct (Hent _ _ Hin) as [-> Hv]. split; [reflexivity|].
        rewrite vehicles_for_app, Hvo, app_nil_r; [assumption|].
        intros E. apply Hn. rewrite <- E.
        change (auction_key a) with (fst (auction_key a, a)). now apply in_map.
      * injection Hin as <- <-. split.
        { unfold auction_key, key_of. reflexivity. }
        simpl. rewrite vehicles_for_app, Hvt.
        rewrite vehicles_for_absent; [reflexivity|]. now rewrite <- Hkeys.
    + rewrite map_app, triples_of_app. simpl. unfold key_of in Ht. simpl in Ht.
      rewrite <- Ht. now apply Permutation_app_tail.
  - (* a known key: its Auction grows *)
    assert (Hka : key_of t = auction_key a).
    { apply (Hent (key_of t) a). apply in_app_iff. right. now left. }
    split.
    + now rewrite map_app in *.
    + intros k. rewrite Hkt, <- Hkeys, !map_app, !in_app_iff. simpl. intuition.
    + intros k b Hin.
      assert (Hd2 : ~ In (key_of t) (map fst d2)).
      { rewrite map_app in Hnd. simpl in Hnd.
        apply NoDup_remove_2 in Hnd. rewrite in_app_iff in Hnd. tauto. }
      apply in_app_iff in Hin as [Hin | [Hin | Hin]].
      * destruct (Hent k b) as [-> Hv]; [apply in_app_iff; now left|].
        split; [reflexivity|].
        rewrite vehicles_for_app, Hvo, app_nil_r; [assumption|].
        intros E. apply Hn. rewrite <- E.
        change (auction_key b) with (fst (auction_key b, b)). now apply in_map.
      * injection Hin as <- <-. split; [exact Hka|].
        simpl. rewrite vehicles_for_app, Hvt. f_equal.
        apply (Hent (key_of t) a). apply in_app_iff. right. now left.
      * destruct (Hent k b) as [-> Hv]; [apply in_app_iff; right; now right|].
        split; [reflexivity|].
        rewrite vehicles_for_app, Hvo, app_nil_r; [assumption|].
        intros E. apply Hd2. rewrite <- E.
        change (auction_key b) with (fst (auction_key b, b)). now apply in_map.
    + rewrite map_app in *. simpl in *. rewrite triples_of_app in *.
      simpl in *. rewrite map_app. simpl.
      replace (date_utc a, location a, vehicle_of t) with t
        by (clear - Hka; destruct t as [[dt0 l0] v0];
            unfold key_of, auction_key, vehicle_of in *; simpl in *; congruence).
      rewrite <- Hperm.
      rewrite <- !app_assoc. do 2 apply Permutation_app_head.
      simpl. apply Permutation_cons_append.
Qed.

Lemma merge_inv_fold (ts : list triple) :
  merge_inv (fold_left merge_triple ts []) ts.
Proof.
  induction ts as [|t ts IH] using rev_ind; [apply merge_inv_nil|].
  rewrite fold_left_app. simpl. now apply merge_inv_step.
Qed.

Lemma merge_dict_inv (results : list (list triple)) :
  merge_inv (merge_dict results) (List.concat results).
Proof. unfold merge_dict. rewrite fold_merge_concat. apply merge_inv_fold. Qed.

Lemma keys_of_values (d : auctions_dict) (ts : list triple) :
  merge_inv d ts -> map auction_key (map snd d) = map fst d.
Proof.
  intros [_ _ Hent _]. rewrite map_map.
  apply map_ext_in. intros [k a] Hin. simpl.
  symmetry. apply (Hent k a Hin).
Qed.

Lemma filter_key_unique (out : list Auction) (a : Auction) :
  NoDup (map auction_key out) -> In a out ->
  filter (fun b => key_eqb (auction_key b) (auction_key a)) out = [a].
Proof.
  induction out as [|b out IH]; simpl; [tauto|].
  intros Hnd Hin. inversion Hnd as [|? ? Hnotin Hnd']; subst.
  destruct Hin as [-> | Hin].
  - rewrite key_eqb_refl. f_equal.
    clear IH Hnd Hnd'. induction out as [|c out IH]; simpl; [reflexivity|].
    destruct (key_eqb (auction_key c) (auction_key a)) eqn:E.
    + apply key_eqb_eq in E. exfalso. apply Hnotin. left. assumption.
    + apply IH. intros H. apply Hnotin. now right.
  - destruct (key_eqb (auction_key b) (auction_key a)) eqn:E.
    + apply key_eqb_eq in E. exfalso. apply Hnotin. rewrite E.
      now apply in_map.
    + now apply IH.
Qed.

Lemma length_triples_of (out : list Auction) :
  List.length (triples_of out)
  = list_sum (map (fun a => List.length (vehicles a)) out).
Proof.
  induction out as [|a out IH]; [reflexivity|].
  change (triples_of (a :: out))
    with (map (fun v => (date_utc a, location a, v)) (vehicles a)
          ++ triples_of out).
  rewrite length_app, length_map. simpl. f_equal. exact IH.
Qed.

Lemma mapM_Ok {A : Type} (l : list A) : mapM (fun t => t) (map Ok l) = Ok l.
Proof. induction l as [|x l IH]; simpl; [reflexivity | now rewrite IH]. Qed.

Lemma first_raised_all_ok {A : Type} (completion : list nat) (l : list A) :
  first_raised completion (map Ok l) = None.
Proof.
  induction completion as [|i c IH]; simpl; [reflexivity|].
  rewrite nth_error_map. destruct (nth_error l i); simpl; assumption.
Qed.

Lemma gather_all_ok {A : Type} (completion : list nat) (l : list A) :
  gather completion (map Ok l) = Ok l.
Proof. unfold gather. now rewrite first_raised_all_ok, mapM_Ok. Qed.

(** When every file is processed without error, the pipeline returns the
    merge of the per-file lists, whatever the order of completion. *)
Lemma run_pipeline_merges (fs : filesystem) (now : Z) (completion : list nat)
    (dir : Path) (results : list (list triple)) :
  path_exists fs dir = true ->
  map (fun f => FileProcessor.process_file now (open_csv fs f)) (glob_csv fs dir)
    = map Ok results ->
  outcome (run_pipeline fs now completion dir) = Ok (merge results).
Proof.
  intros He Hr. unfold run_pipeline. rewrite He. simpl.
  now rewrite Hr, gather_all_ok.
Qed.

(** C1.  The merge step of [run_pipeline] keeps one Auction per grouping
    key: the keys of the returned Auctions are pairwise distinct and are
    exactly the keys of the input triples, and the one Auction of a key
    holds the vehicles of all the triples of that key, in the order of
    the input (files in the order gathered, rows in file order).  A run
    in which every file is processed returns this merge. *)
Theorem merge_groups_by_key (results : list (list triple)) :
  let ts := List.concat results in
  let out := merge results in
  NoDup (map auction_key out)
  /\ (forall k, In k (map key_of ts) <-> In k (map auction_key out))
  /\ (forall k, In k (map key_of ts) ->
        exists a, filter (fun b => key_eqb (auction_key b) k) out = [a]
                  /\ vehicles a = vehicles_for k ts)
  /\ (forall fs now completion dir,
        path_exists fs dir = true ->
        map (fun f => FileProcessor.process_file now (open_csv fs f))
            (glob_csv fs dir) = map Ok results ->
        outcome (run_pipeline fs now completion dir) = Ok out).
Proof.
  intros ts out.
  pose proof (merge_dict_inv results) as Hinv.
  pose proof (keys_of_values _ _ Hinv) as Hk.
  destruct Hinv as [Hnd Hkeys Hent Hperm].
  fold ts in Hkeys, Hent, Hperm.
  assert (Hnd' : NoDup (map auction_key out)).
  { unfold out, merge. now rewrite Hk. }
  repeat split.
  - assumption.
  - unfold out, merge. rewrite Hk. apply Hkeys.
  - unfold out, merge. rewrite Hk. apply Hkeys.
  - intros k Hin. apply Hkeys in Hin.
    apply in_map_iff in Hin as [[k' a] [Hfst Hin]]. simpl in Hfst. subst k'.
    destruct (Hent k a Hin) as [Hka Hv].
    exists a. split; [|assumption].
    rewrite Hka. apply filter_key_unique; [assumption|].
    unfold out, merge. apply in_map_iff. now exists (k, a).
  - intros. now apply run_pipeline_merges.
Qed.

(** C10.  The merge neither loses nor invents a vehicle: the triples the
    returned Auctions stand for are a rearrangement of the input triples,
    so the vehicle counts add up to the number of triples; every entry of
    the dict is stored under the key made of its own fields; no returned
    Auction is empty; and the vehicle of each input triple sits in the
    one returned Auction that has the key of the triple. *)
Theorem merge_conserves_vehicles (results : list (list triple)) :
  let ts := List.concat results in
  let out := merge results in
  Permutation (triples_of out) ts
  /\ list_sum (map (fun a => List.length (vehicles a)) out) = List.length ts
  /\ Forall (fun e => fst e = (date_utc (snd e), location (snd e)))
            (merge_dict results)
  /\ Forall (fun a => vehicles a <> []) out
  /\ (forall t, In t ts ->
        exists a, In a out /\ auction_key a = key_of t
                  /\ In (vehicle_of t) (vehicles a)
                  /\ forall b, In b out -> auction_key b = key_of t -> b = a).
Proof.
  intros ts out.
  pose proof (merge_dict_inv results) as Hinv.
  pose proof (keys_of_values _ _ Hinv) as Hk.
  destruct Hinv as [Hnd Hkeys Hent Hperm].
  fold ts in Hkeys, Hent, Hperm.
  assert (Hnd' : NoDup (map auction_key out)).
  { unfold out, merge. now rewrite Hk. }
  split; [exact Hperm|].
  split.
  { rewrite <- length_triples_of. now apply Permutation_length. }
  split.
  { apply Forall_forall. intros [k a] Hin. simpl. apply (Hent k a Hin). }
  split.
  { apply Forall_forall. intros a Hin.
    unfold out, merge in Hin. apply in_map_iff in Hin as [[k a'] [Hs Hin]].
    simpl in Hs. subst a'. destruct (Hent k a Hin) as [_ ->].
    apply vehicles_for_present. apply Hkeys.
    change k with (fst (k, a)). now apply in_map. }
  intros t Hin.
  assert (Hkin : In (key_of t) (map fst (merge_dict results))).
  { apply Hkeys. now apply in_map. }
  apply in_map_iff in Hkin as [[k a] [Hfst Hina]]. simpl in Hfst. subst k.
  destruct (Hent _ a Hina) as [Hka Hv].
  assert (Hout : In a out).
  { unfold out, merge. apply in_map_iff. now exists (key_of t, a). }
  exists a. repeat split.
  - assumption.
  - now symmetry.
  - rewrite Hv. unfold vehicles_for. apply in_map.
    apply filter_In. split; [assumption | apply key_eqb_refl].
  - intros b Hb Hkb.
    pose proof (filter_key_unique out a Hnd' Hout) as Hf.
    assert (Hbf : In b (filter (fun b0 => key_eqb (auction_key b0) (auction_key a)) out)).
    { apply filter_In. split; [assumption|]. apply key_eqb_eq. congruence. }
    rewrite Hf in Hbf. destruct Hbf as [<- | []]. reflexivity.
Qed.

(** Two rows of one file with one key and two VINs give one Auction with
    both vehicles, in the order of the rows. *)
Example merge_two_rows_one_key :
  merge [[(sample_day, Some "Dallas", sample_vehicle "VIN1");
          (sample_day, Some "Dallas", sample_vehicle "VIN2")]]
  = [mkAuction sample_day (Some "Dallas")
               [sample_vehicle "VIN1"; sample_vehicle "VIN2"]].
Proof. vm_compute. reflexivity. Qed.

(** Two files of one row each, with two locations, give two Auctions of
    one vehicle each. *)
Example merge_two_files_two_keys :
  merge [[(sample_day, Some "Dallas", sample_vehicle "VIN1")];
         [(sample_day, Some "Austin", sample_vehicle "VIN2")]]
  = [mkAuction sample_day (Some "Dallas") [sample_vehicle "VIN1"];
     mkAuction sample_day (Some "Austin") [sample_vehicle "VIN2"]].
Proof. vm_compute. reflexivity. Qed.



(** ** Transmission *)

Lemma lstrip_no_space (s : string) : no_space s = true -> PyStr.lstrip s = s.
Proof.
  destruct s as [|c r]; [reflexivity|]. unfold no_space. simpl.
  intros H. apply andb_true_iff in H as [H _].
  now destruct (PyStr.isspace c).
Qed.

Lemma rstrip_no_space (s : string) : no_space s = true -> PyStr.rstrip s = s.
Proof.
  induction s as [|c r IH]; [reflexivity|]. unfold no_space in *. simpl.
  intros H. apply andb_true_iff in H as [Hc Hr].
  rewrite (IH Hr). destruct r; [|reflexivity].
  now destruct (PyStr.isspace c).
Qed.

Lemma strip_no_space (s : string) : no_space s = true -> PyStr.strip s = s.
Proof.
  intros H. unfold PyStr.strip. rewrite lstrip_no_space by assumption.
  now apply rstrip_no_space.
Qed.

(** A character that [lower] sends to a small ASCII letter is no blank. *)
Lemma lower_letter_no_space (c : ascii) :
  PyStr.islower_ascii (PyStr.lower_char c) = true -> PyStr.isspace c = false.
Proof.
  destruct c as [[] [] [] [] [] [] [] []]; vm_compute; congruence.
Qed.

Lemma lower_letters_no_space (s : string) :
  forallb PyStr.islower_ascii (list_ascii_of_string (PyStr.lower s)) = true ->
  no_space s = true.
Proof.
  unfold no_space. induction s as [|c r IH]; [reflexivity|].
  simpl. rewrite !andb_true_iff. intros [Hc Hr].
  split; [|now apply IH].
  now rewrite lower_letter_no_space.
Qed.

Lemma strip_empty_lower (s : string) :
  PyStr.truthy s = false -> PyStr.lower s = "".
Proof. destruct s; [reflexivity | discriminate]. Qed.

Lemma lower_truthy (s : string) : PyStr.truthy (PyStr.lower s) = PyStr.truthy s.
Proof. now destruct s. Qed.

(** [from_str] in closed form. *)
Lemma from_str_spec (value : option string) :
  from_str value =
    match value with
    | None => UNKNOWN
    | Some s =>
        let c := PyStr.lower (PyStr.strip s) in
        if String.eqb c "automatic" then AUTOMATIC
        else if String.eqb c "manual" then MANUAL
        else UNKNOWN
    end.
Proof.
  destruct value as [s|]; [|reflexivity].
  unfold from_str.
  destruct (PyStr.truthy s) eqn:Hs.
  - destruct (PyStr.truthy (PyStr.strip s)) eqn:Hc;
      cbv beta iota zeta delta [negb Transmission_members find Transmission_value].
    + change (PyStr.lower "Automatic") with "automatic".
      change (PyStr.lower "Manual") with "manual".
      change (PyStr.lower "Unknown") with "unknown".
      rewrite (String.eqb_sym "automatic"), (String.eqb_sym "manual").
      destruct (String.eqb (PyStr.lower (PyStr.strip s)) "automatic");
        [reflexivity|].
      destruct (String.eqb (PyStr.lower (PyStr.strip s)) "manual");
        [reflexivity|].
      now destruct (String.eqb "unknown" (PyStr.lower (PyStr.strip s))).
    + now rewrite (strip_empty_lower _ Hc).
  - destruct s; [reflexivity | discriminate].
Qed.

(** C6.  [from_str] is a total function of a string or [None]: it
    compares the trimmed text with the member values without regard to
    case; every spelling of "automatic" gives [AUTOMATIC], every spelling
    of "manual" gives [MANUAL], and [None], the empty string and any other
    text give [UNKNOWN]. *)
Theorem from_str_total_case_insensitive :
  (forall value : option string,
      from_str value =
        match value with
        | None => UNKNOWN
        | Some s =>
            let c := PyStr.lower (PyStr.strip s) in
            if String.eqb c "automatic" then AUTOMATIC
            else if String.eqb c "manual" then MANUAL
            else UNKNOWN
        end)
  /\ (forall s, PyStr.lower s = "automatic" -> from_str (Some s) = AUTOMATIC)
  /\ (forall s, PyStr.lower s = "manual" -> from_str (Some s) = MANUAL)
  /\ from_str (Some "automatic") = AUTOMATIC
  /\ from_str (Some "AUTOMATIC") = AUTOMATIC
  /\ from_str (Some "Automatic") = AUTOMATIC
  /\ from_str (Some "  mAnUaL ") = MANUAL
  /\ from_str (Some "") = UNKNOWN
  /\ from_str None = UNKNOWN
  /\ from_str (Some "Foo") = UNKNOWN.
Proof.
  split; [exact from_str_spec|].
  split.
  { intros s H. rewrite from_str_spec. cbv zeta.
    rewrite strip_no_space, H; [reflexivity|].
    apply lower_letters_no_space. now rewrite H. }
  split.
  { intros s H. rewrite from_str_spec. cbv zeta.
    rewrite strip_no_space, H; [reflexivity|].
    apply lower_letters_no_space. now rewrite H. }
  repeat split; reflexivity.
Qed.



(** ** The file processor and the pipeline *)

Lemma mapM_Forall2 {A B : Type} (f : A -> result B) (l : list A) (ys : list B) :
  mapM f l = Ok ys -> Forall2 (fun x y => f x = Ok y) l ys.
Proof.
  revert ys. induction l as [|x l IH]; simpl; intros ys H.
  - injection H as <-. constructor.
  - destruct (f x) as [y|e] eqn:E; simpl in H; [|discriminate].
    destruct (mapM f l) as [zs|e]; simpl in H; [|discriminate].
    injection H as <-. constructor; [assumption | now apply IH].
Qed.

Lemma mapM_all_ok {A B : Type} (f : A -> result B) (l : list A) :
  (forall x, In x l -> is_ok (f x) = true) ->
  exists ys, mapM f l = Ok ys /\ List.length ys = List.length l.
Proof.
  induction l as [|x l IH]; simpl; intros H.
  - now exists [].
  - destruct (f x) as [y|e] eqn:E.
    + destruct IH as [ys [-> Hl]]; [auto|].
      exists (y :: ys). simpl. now rewrite Hl.
    + specialize (H x (or_introl eq_refl)). rewrite E in H. discriminate.
Qed.

Lemma mapM_first_error {A B : Type} (f : A -> result B)
    (before : list A) (x : A) (after : list A) (e : exn) :
  (forall a, In a before -> is_ok (f a) = true) ->
  f x = Raise e ->
  mapM f (before ++ x :: after) = Raise e.
Proof.
  induction before as [|a l IH]; simpl; intros H Hx.
  - now rewrite Hx.
  - destruct (f a) as [y|e'] eqn:E.
    + simpl. rewrite IH; auto.
    + specialize (H a (or_introl eq_refl)). rewrite E in H. discriminate.
Qed.

Lemma mapM_some_error {A B : Type} (f : A -> result B) (l : list A) :
  (exists x, In x l /\ is_ok (f x) = false) ->
  exists x e, In x l /\ f x = Raise e /\ mapM f l = Raise e.
Proof.
  induction l as [|a l IH]; simpl; intros [x [Hin Hx]]; [tauto|].
  destruct (f a) as [y|e] eqn:E.
  - destruct Hin as [-> | Hin]; [rewrite E in Hx; discriminate|].
    destruct IH as [x' [e' [Hin' [Hf Hm]]]]; [now exists x|].
    exists x', e'. rewrite Hm. auto.
  - exists a, e. auto.
Qed.

Lemma lookup_absent (k : string) (names : list string) (row : list string) :
  ~ In k names -> lookup k (dict_of_row names row) = None.
Proof.
  revert row. induction names as [|n ns IH]; intros row H; [reflexivity|].
  simpl in H.
  assert (Hn : String.eqb n k = false) by (apply String.eqb_neq; tauto).
  destruct row as [|x xs]; simpl; rewrite IH, Hn by tauto; reflexivity.
Qed.

Ltac step_binds H :=
  repeat match type of H with
         | bind ?r _ = Ok _ =>
             let E := fresh "E" in
             destruct r eqn:E; simpl in H; [|discriminate]
         end.

(** What [process_row] puts into the vehicle for the optional columns. *)
Lemma process_row_optional (now : Z) (row : row_dict) (t : triple) :
  process_row now row = Ok t ->
  cylinders (engine (vehicle_of t)) = get row "Cylinders" (Some "N/A")
  /\ transmission (vehicle_of t) = from_str (get row "Transmission Type" (Some "")).
Proof.
  unfold process_row. intros H.
  step_binds H.
  cbv zeta in H. step_binds H.
  injection H as <-. unfold vehicle_of. simpl.
  match goal with
  | HV : Vehicle_init _ _ _ _ _ _ = Ok _ |- _ =>
      unfold Vehicle_init in HV; simpl in HV; step_binds HV;
      injection HV as <-
  end.
  match goal with
  | HE : Engine_init _ _ = Ok _ |- _ =>
      unfold Engine_init in HE; step_binds HE; injection HE as <-
  end.
  split; reflexivity.
Qed.

Lemma lookup_cons (k n : string) (v : option string) (row : row_dict) :
  lookup k ((n, v) :: row)
  = match lookup k row with
    | Some w => Some w
    | None => if String.eqb n k then Some v else None
    end.
Proof. reflexivity. Qed.

Lemma lookup_In (k : string) (names row : list string) (v : option string) :
  lookup k (dict_of_row names row) = Some v -> In k names.
Proof.
  intro H. destruct (in_dec string_dec k names) as [Hin|Hin]; [exact Hin|].
  rewrite lookup_absent in H by exact Hin. discriminate.
Qed.

Lemma dict_of_row_cons (n : string) (ns record : list string) :
  dict_of_row (n :: ns) record
  = (n, nth_error record 0) :: dict_of_row ns (tl record).
Proof. destruct record; reflexivity. Qed.

Lemma lookup_None (k : string) (names record : list string) :
  lookup k (dict_of_row names record) = None <-> ~ In k names.
Proof.
  split; [|apply lookup_absent].
  revert record. induction names as [|n ns IH]; intros record H; [tauto|].
  rewrite dict_of_row_cons, lookup_cons in H.
  destruct (lookup k (dict_of_row ns (tl record))) eqn:L; [discriminate|].
  destruct (String.eqb_spec n k) as [->|Hne]; [discriminate|].
  intros [Hin|Hin]; [contradiction|]. now apply (IH (tl record)).
Qed.

Lemma nth_error_tl {A : Type} (l : list A) (i : nat) :
  nth_error (tl l) i = nth_error l (S i).
Proof. destruct l; [destruct i|]; reflexivity. Qed.

(** [row[k]] on a row of the reader is the column called [k]. *)
Lemma lookup_column (k : string) (names record : list string) (v : option string) :
  lookup k (dict_of_row names record) = Some v <-> column names record k v.
Proof.
  revert record v. induction names as [|n ns IH]; intros record v.
  - simpl. split; [discriminate|].
    intros [i [Hi _]]. now destruct i.
  - rewrite dict_of_row_cons, lookup_cons.
    destruct (lookup k (dict_of_row ns (tl record))) as [w|] eqn:L.
    + apply IH in L as Hc. destruct Hc as [i' [Hi' [Hlast' Hv']]]. split.
      * intros [= <-]. exists (S i'). split; [exact Hi'|]. split.
        -- intros [|j] Hj; [lia|]. simpl. apply Hlast'. lia.
        -- subst w. apply nth_error_tl.
      * intros [i [Hi [Hlast Hv]]].
        assert (i = S i').
        { destruct (Nat.lt_trichotomy i (S i')) as [Hlt|[He|Hgt]]; [|exact He|].
          - exfalso. apply (Hlast (S i')); [exact Hlt | exact Hi'].
          - exfalso. destruct i as [|i]; [lia|]. simpl in Hi.
            apply (Hlast' i); [lia | exact Hi]. }
        subst i v w. f_equal. apply nth_error_tl.
    + apply lookup_None in L.
      destruct (String.eqb_spec n k) as [->|Hne].
      * split.
        -- intros [= <-]. exists O. split; [reflexivity|]. split; [|reflexivity].
           intros [|j] Hj Hnth; [lia|]. simpl in Hnth.
           apply L. eapply nth_error_In. exact Hnth.
        -- intros [i [Hi [_ Hv]]]. destruct i as [|i]; [now subst|].
           simpl in Hi. exfalso. apply L. eapply nth_error_In. exact Hi.
      * split; [discriminate|].
        intros [i [Hi _]]. destruct i as [|i]; simpl in Hi; [congruence|].
        exfalso. apply L. eapply nth_error_In. exact Hi.
Qed.

Lemma column_In (names record : list string) (k : string) (v : option string) :
  column names record k v -> In k names.
Proof. intros [i [Hi _]]. eapply nth_error_In. exact Hi. Qed.

Lemma column_unique (names record : list string) (k : string)
    (v w : option string) :
  column names record k v -> column names record k w -> v = w.
Proof.
  intros Hv Hw. apply lookup_column in Hv, Hw. congruence.
Qed.

(** [row.get(k, default)] on a row of the reader is the optional column. *)
Lemma get_optional_column (names record : list string) (k default : string)
    (v : option string) :
  get (dict_of_row names record) k (Some default) = v
  <-> optional_column names record k default v.
Proof.
  unfold get, optional_column.
  destruct (lookup k (dict_of_row names record)) as [w|] eqn:L.
  - pose proof (lookup_In _ _ _ _ L) as Hin. apply lookup_column in L. split.
    + intros <-. left. auto.
    + intros [[_ Hc]|[Hn _]]; [|contradiction].
      exact (column_unique _ _ _ _ _ L Hc).
  - apply lookup_None in L. split.
    + intros <-. right. auto.
    + intros [[Hin _]|[_ ->]]; [contradiction|reflexivity].
Qed.

Lemma getitem_column (names record : list string) (k : string)
    (v : option string) :
  getitem (dict_of_row names record) k = Ok v <-> column names record k v.
Proof.
  rewrite <- lookup_column. unfold getitem.
  destruct (lookup k (dict_of_row names record)); split; intro H;
    try discriminate; now injection H as ->.
Qed.

(** A row of the reader is processed to the triple the record gives. *)
Lemma process_row_gives (now : Z) (names record : list string) (t : triple) :
  process_row now (dict_of_row names record) = Ok t
  <-> row_gives now names record t.
Proof.
  split.
  - intro H. unfold process_row in H.
    destruct (getitem _ "Auction Date") as [[d|]|] eqn:Ed;
      cbn [bind] in H; try discriminate.
    destruct (parse_auction_date now d) as [date|] eqn:Ep;
      cbn [bind] in H; [|discriminate].
    destruct (getitem _ "Branch Name") as [b|] eqn:Eb;
      cbn [bind] in H; [|discriminate].
    destruct (getitem _ "Year") as [[y|]|] eqn:Ey;
      cbn [bind] in H; try discriminate.
    destruct (int_of_str y) as [n|] eqn:Ei; cbn [bind] in H; [|discriminate].
    destruct (getitem _ "Make") as [[mk|]|] eqn:Emk;
      destruct (getitem _ "Model") as [[md|]|] eqn:Emd;
      destruct (getitem _ "Vin#") as [[vn|]|] eqn:Evn;
      destruct (getitem _ "Engine") as [[en|]|] eqn:Een;
      cbn [bind Engine_init Vehicle_init validate_int validate_str] in H;
      try discriminate.
    injection H as <-.
    exists d, b, y, mk, md, vn, en,
      (get (dict_of_row names record) "Cylinders" (Some "N/A")),
      (get (dict_of_row names record) "Transmission Type" (Some "")),
      date, n.
    repeat split; try (now apply getitem_column);
      try (now apply get_optional_column); assumption.
  - intros [d [b [y [mk [md [vn [en [cyl [tr [date [n H]]]]]]]]]]].
    destruct H as [Hd [Hb [Hy [Hmk [Hmd [Hvn [Hen [Hc [Ht [Hp [Hi ->]]]]]]]]]]].
    apply getitem_column in Hd, Hb, Hy, Hmk, Hmd, Hvn, Hen.
    apply get_optional_column in Hc, Ht.
    unfold process_row. rewrite Hd. cbn [bind]. rewrite Hp. cbn [bind].
    rewrite Hb. cbn [bind]. rewrite Hy. cbn [bind]. rewrite Hi. cbn [bind].
    rewrite Hmk, Hmd, Hvn, Hen, Hc, Ht. reflexivity.
Qed.

Lemma reader_rows_data_rows (f : csv_file) :
  reader_rows f = map (dict_of_row (fieldnames f)) (data_rows f).
Proof.
  unfold reader_rows, data_rows. f_equal. apply filter_ext.
  intros [|x r]; reflexivity.
Qed.

Lemma mapM_Ok_iff {A B : Type} (f : A -> result B) (l : list A) (ys : list B) :
  mapM f l = Ok ys <-> Forall2 (fun x y => f x = Ok y) l ys.
Proof.
  split; [apply mapM_Forall2|].
  induction 1 as [|x y l ys Hxy _ IH]; simpl; [reflexivity|].
  now rewrite Hxy, IH.
Qed.

Lemma process_file_Ok (now : Z) (f : csv_file) (rows : list triple) :
  process_file now (Ok f) = Ok rows
  <-> trailer f = None
      /\ Forall2 (row_gives now (fieldnames f)) (data_rows f) rows.
Proof.
  unfold process_file. cbn [bind].
  assert (E : forall ys,
            mapM (process_row now) (reader_rows f) = Ok ys
            <-> Forall2 (row_gives now (fieldnames f)) (data_rows f) ys).
  { intro ys. rewrite mapM_Ok_iff, reader_rows_data_rows.
    split; intro H.
    - apply Forall2_flip. apply Forall2_flip in H.
      induction (data_rows f) as [|r rs IH] in ys, H |- *.
      + inversion H. constructor.
      + inversion H; subst. constructor; [now apply process_row_gives|auto].
    - induction H as [|r t rs ts Hrt _ IH]; simpl; constructor;
        [now apply process_row_gives | exact IH]. }
  destruct (mapM (process_row now) (reader_rows f)) as [ys|e] eqn:M; cbn [bind].
  - destruct (trailer f) as [e|]; split.
    + discriminate.
    + intros [H _]. discriminate.
    + intros [= <-]. split; [reflexivity|]. now apply E.
    + intros [_ H]. apply E in H. congruence.
  - split; [discriminate|]. intros [_ H]. apply E in H. discriminate.
Qed.

(** C9.  [process_file] returns one triple per data row of the file, in
    the order of the rows, and each triple is made of the columns of its
    row: the date parsed from "Auction Date", the branch as written, and
    the vehicle with the year read as an integer, the make, the model,
    the VIN and the engine.  The call succeeds exactly when the reader
    raises nothing and every data row gives a triple, and the list is
    then determined by the rows.  Without a "Cylinders" column the
    cylinders are "N/A", and without a "Transmission Type" column the
    transmission is read from the empty text and is [UNKNOWN]. *)
Theorem process_file_one_triple_per_row :
  (forall now f rows,
      process_file now (Ok f) = Ok rows
      <-> trailer f = None
          /\ Forall2 (row_gives now (fieldnames f)) (data_rows f) rows)
  /\ (forall now f rows,
      process_file now (Ok f) = Ok rows ->
      List.length rows = List.length (data_rows f))
  /\ (forall now names record t t',
      row_gives now names record t -> row_gives now names record t' -> t = t')
  /\ (forall now names record t,
      row_gives now names record t -> ~ In "Cylinders" names ->
      cylinders (engine (vehicle_of t)) = Some "N/A")
  /\ (forall now names record t,
      row_gives now names record t -> ~ In "Transmission Type" names ->
      transmission (vehicle_of t) = UNKNOWN).
Proof.
  split; [exact process_file_Ok|]. split; [|split; [|split]].
  - intros now f rows H. apply process_file_Ok in H as [_ H].
    symmetry. eapply Forall2_length. exact H.
  - intros now names record t t' H H'.
    apply process_row_gives in H, H'. congruence.
  - intros now names record t H Hk.
    destruct H as [d [b [y [mk [md [vn [en [cyl [tr [date [n H]]]]]]]]]]].
    destruct H as [_ [_ [_ [_ [_ [_ [_ [Hc [_ [_ [_ ->]]]]]]]]]]].
    destruct Hc as [[Hin _]|[_ ->]]; [contradiction|reflexivity].
  - intros now names record t H Hk.
    destruct H as [d [b [y [mk [md [vn [en [cyl [tr [date [n H]]]]]]]]]]].
    destruct H as [_ [_ [_ [_ [_ [_ [_ [_ [Ht [_ [_ ->]]]]]]]]]]].
    destruct Ht as [[Hin _]|[_ ->]]; [contradiction|reflexivity].
Qed.

(** The sample file gives two triples, for its first and third line. *)
Example process_file_sample :
  process_file 2026 (Ok sample_file)
  = Ok [(mkdatetime 2026 12 1 14 30 (Some UTC), Some "Dallas",
         mkVehicle 2019 "Audi" "A4" "VIN1" (mkEngine "V6" (Some "N/A")) UNKNOWN);
        (mkdatetime 2026 12 1 14 30 (Some UTC), Some "Dallas",
         mkVehicle 2020 "Ford" "F150" "VIN2" (mkEngine "V8" (Some "N/A")) UNKNOWN)].
Proof. vm_compute. reflexivity. Qed.

Lemma first_raised_In {A : Type} (completion : list nat)
    (tasks : list (result A)) (e : exn) :
  first_raised completion tasks = Some e -> In (Raise e) tasks.
Proof.
  induction completion as [|i c IH]; simpl; [discriminate|].
  destruct (nth_error tasks i) as [[a|e']|] eqn:E; auto.
  intros H. injection H as <-. now apply nth_error_In in E.
Qed.

Lemma first_raised_first {A : Type} (before : list nat) (i : nat)
    (after : list nat) (tasks : list (result A)) (e : exn) :
  (forall j e', In j before -> nth_error tasks j <> Some (Raise e')) ->
  nth_error tasks i = Some (Raise e) ->
  first_raised (before ++ i :: after) tasks = Some e.
Proof.
  induction before as [|j l IH]; simpl; intros H Hi.
  - now rewrite Hi.
  - destruct (nth_error tasks j) as [[a|e']|] eqn:E; auto.
    exfalso. apply (H j e'); auto.
Qed.

Lemma gather_some_error {A : Type} (completion : list nat)
    (tasks : list (result A)) :
  (exists t, In t tasks /\ is_ok t = false) ->
  exists e, In (Raise e) tasks /\ gather completion tasks = Raise e.
Proof.
  intros H. unfold gather.
  destruct (first_raised completion tasks) as [e|] eqn:E.
  - exists e. split; [now apply first_raised_In in E | reflexivity].
  - destruct (mapM_some_error (fun t => t) tasks H) as [x [e [Hin [-> Hm]]]].
    exists e. auto.
Qed.

Lemma run_pipeline_outcome (fs : filesystem) (now : Z) (completion : list nat)
    (dir : Path) :
  path_exists fs dir = true ->
  outcome (run_pipeline fs now completion dir)
  = (results <- gather completion (file_tasks fs now dir) ;; Ok (merge results)).
Proof. intros H. unfold run_pipeline. now rewrite H. Qed.

(** C4.  A failure anywhere fails the run.  Within a file, the first row
    that cannot be processed ends [process_file] with the exception of
    that row; a file that cannot be opened, or that the CSV reader
    rejects, fails as well.  In the pipeline, the exception of the task
    that fails first, in the order of completion, is the outcome of
    [run_pipeline]; and whenever some file fails, the outcome is the
    exception of one of the failing files, never a list of Auctions. *)
Theorem run_pipeline_fails_as_a_whole :
  (forall now f before row after e,
      reader_rows f = before ++ row :: after ->
      (forall r, In r before -> is_ok (process_row now r) = true) ->
      process_row now row = Raise e ->
      process_file now (Ok f) = Raise e)
  /\ (forall now e, process_file now (Raise e) = Raise e)
  /\ (forall now f e, trailer f = Some e ->
        is_ok (process_file now (Ok f)) = false)
  /\ (forall fs now dir before i after e,
        path_exists fs dir = true ->
        (forall j e', In j before ->
                      nth_error (file_tasks fs now dir) j <> Some (Raise e')) ->
        nth_error (file_tasks fs now dir) i = Some (Raise e) ->
        outcome (run_pipeline fs now (before ++ i :: after) dir) = Raise e)
  /\ (forall fs now completion dir,
        path_exists fs dir = true ->
        (exists f, In f (glob_csv fs dir)
                   /\ is_ok (process_file now (open_csv fs f)) = false) ->
        exists f e, In f (glob_csv fs dir)
                    /\ process_file now (open_csv fs f) = Raise e
                    /\ outcome (run_pipeline fs now completion dir) = Raise e).
Proof.
  split.
  { intros now f before row after e Hr Hb He. unfold process_file. simpl.
    rewrite Hr, (mapM_first_error _ _ _ _ _ Hb He). reflexivity. }
  split; [reflexivity|].
  split.
  { intros now f e Ht. unfold process_file. simpl.
    destruct (mapM (process_row now) (reader_rows f)); simpl; [|reflexivity].
    now rewrite Ht. }
  split.
  { intros fs now dir before i after e He Hb Hi.
    rewrite run_pipeline_outcome by assumption.
    unfold gather. now rewrite (first_raised_first _ _ _ _ _ Hb Hi). }
  { intros fs now completion dir He [f [Hin Hf]].
    rewrite run_pipeline_outcome by assumption.
    destruct (gather_some_error completion (file_tasks fs now dir)) as [e [Hie ->]].
    { exists (process_file now (open_csv fs f)). split; [|assumption].
      unfold file_tasks.
      apply (in_map (fun f => process_file now (open_csv fs f))). assumption. }
    unfold file_tasks in Hie. apply in_map_iff in Hie as [f' [Hf' Hin']].
    exists f', e. auto. }
Qed.

(** The kinds of failure of one file: a file that is not there, a CSV the
    reader rejects, a date that cannot be read, a year that is no number,
    a row that is too short, a column that is missing. *)
Example process_file_failures :
  process_file 2026 (Raise FileNotFoundError) = Raise FileNotFoundError
  /\ process_file 2026 (Ok broken_csv_file) = Raise CsvError
  /\ process_file 2026 (Ok bad_date_file) = Raise ValueError
  /\ process_file 2026 (Ok bad_file) = Raise ValueError
  /\ process_file 2026 (Ok short_row_file) = Raise TypeError
  /\ process_file 2026 (Ok no_year_file) = Raise KeyError.
Proof. vm_compute. repeat split; reflexivity. Qed.

(** With one good and one bad file the run fails with the error of the
    bad row, whichever file is finished first. *)
Example run_pipeline_bad_row :
  process_file 2026 (Ok bad_file) = Raise ValueError
  /\ outcome (run_pipeline sample_fs 2026 [0%nat; 1%nat] "csv_files")
     = Raise ValueError
  /\ outcome (run_pipeline sample_fs 2026 [1%nat; 0%nat] "csv_files")
     = Raise ValueError.
Proof. vm_compute. repeat split; reflexivity. Qed.

(** C5.  On a directory that does not exist [run_pipeline] raises
    [FileNotFoundError]; it has opened no file and returns no list. *)
Theorem run_pipeline_missing_directory
    (fs : filesystem) (now : Z) (completion : list nat) (dir : Path) :
  path_exists fs dir = false ->
  run_pipeline fs now completion dir = mkrun (Raise FileNotFoundError) [].
Proof. intros H. unfold run_pipeline. now rewrite H. Qed.

Lemma run_pipeline_missing_directory_witness :
  path_exists sample_fs "no_such_dir" = false
  /\ run_pipeline sample_fs 2026 [0%nat; 1%nat] "no_such_dir"
     = mkrun (Raise FileNotFoundError) [].
Proof.
  split; [reflexivity|].
  apply (run_pipeline_missing_directory sample_fs 2026 [0%nat; 1%nat] "no_such_dir").
  reflexivity.
Defined.

(** A run over the directory with the sample file alone: one Auction with
    the two vehicles of the file. *)
Example run_pipeline_sample :
  run_pipeline sample_fs 2026 [0%nat] "good_files"
  = mkrun (Ok [mkAuction (mkdatetime 2026 12 1 14 30 (Some UTC)) (Some "Dallas")
                 [mkVehicle 2019 "Audi" "A4" "VIN1"
                            (mkEngine "V6" (Some "N/A")) UNKNOWN;
                  mkVehicle 2020 "Ford" "F150" "VIN2"
                            (mkEngine "V8" (Some "N/A")) UNKNOWN]])
          ["a.csv"].
Proof. vm_compute. reflexivity. Qed.



(** ** The zone table and [localize] *)

Lemma in_table_years (y : Z) : 2007 <= y <= 2037 -> In y table_years.
Proof.
  intros H. unfold table_years.
  replace y with (Z.of_nat (Z.to_nat y)) by lia.
  apply in_map. apply in_seq. lia.
Qed.

Lemma sortedb_sound (l : list Z) : sortedb l = true -> StronglySorted Z.lt l.
Proof.
  intros H. apply Sorted_StronglySorted; [intros a b c; apply Z.lt_trans|].
  destruct l as [|a r]; [constructor|]. simpl in H.
  revert a H. induction r as [|t r IH]; intros a H; [repeat constructor|].
  simpl in H.
  assert (Hok : forall r p ok,
             snd (fold_left (fun '(p, ok) t => (t, ok && (p <? t))) r (p, ok)) = true ->
             ok = true).
  { clear. induction r as [|t r IH]; simpl; intros p ok H; [assumption|].
    apply IH in H. now apply andb_true_iff in H. }
  pose proof (Hok _ _ _ H) as Hat. simpl in Hat. apply Z.ltb_lt in Hat.
  constructor.
  - apply IH. now rewrite (proj2 (Z.ltb_lt a t) Hat) in H.
  - now constructor.
Qed.

Lemma bisect_right_length (l : list Z) (x : Z) :
  (Pytz.bisect_right l x <= List.length l)%nat.
Proof.
  induction l as [|a r IH]; simpl; [lia|].
  destruct (a <=? x); lia.
Qed.

Lemma bisect_right_spec (l : list Z) (x : Z) :
  StronglySorted Z.lt l ->
  forall i t, nth_error l i = Some t ->
              (t <= x <-> (i < Pytz.bisect_right l x)%nat).
Proof.
  induction 1 as [|a r Hs IH Hall]; intros i t Hi.
  - destruct i; discriminate.
  - simpl. destruct i as [|j]; simpl in Hi.
    + injection Hi as ->. destruct (t <=? x) eqn:E.
      * apply Z.leb_le in E. split; [lia | auto].
      * apply Z.leb_gt in E. split; lia.
    + assert (Hat : a < t).
      { rewrite Forall_forall in Hall. apply Hall.
        now apply nth_error_In in Hi. }
      destruct (a <=? x) eqn:E.
      * rewrite (IH j t Hi). lia.
      * apply Z.leb_gt in E. split; lia.
Qed.

Lemma transitions_sorted : StronglySorted Z.lt Pytz.utc_transition_times.
Proof. apply sortedb_sound. vm_compute. reflexivity. Qed.

(** The info in force between two neighbours of the table, and after the
    last entry. *)
Lemma info_at_between (i : nat) (t : Z) (z : tzinfo) (x : Z) :
  nth_error Pytz.transitions i = Some (t, z) ->
  t <= x ->
  match nth_error Pytz.transitions (S i) with
  | Some (t', _) => x < t'
  | None => True
  end ->
  Pytz.info_at x = z.
Proof.
  intros Hi Hle Hnext. unfold Pytz.info_at.
  assert (Hti : nth_error Pytz.utc_transition_times i = Some t).
  { unfold Pytz.utc_transition_times. now rewrite nth_error_map, Hi. }
  pose proof (bisect_right_spec _ x transitions_sorted i t Hti) as Hb.
  pose proof (bisect_right_length Pytz.utc_transition_times x) as Hlen.
  assert (Hidx : Pytz.bisect_right Pytz.utc_transition_times x = S i).
  { destruct (nth_error Pytz.transitions (S i)) as [[t' z']|] eqn:En.
    - assert (Hti' : nth_error Pytz.utc_transition_times (S i) = Some t').
      { unfold Pytz.utc_transition_times. now rewrite nth_error_map, En. }
      pose proof (bisect_right_spec _ x transitions_sorted (S i) t' Hti') as Hb'.
      lia.
    - apply nth_error_None in En.
      assert (Hl : List.length Pytz.utc_transition_times
                   = List.length Pytz.transitions)
        by (unfold Pytz.utc_transition_times; apply length_map).
      lia. }
  rewrite Hidx. change (Nat.pred (S i)) with i. unfold Pytz.transition_info.
  apply nth_error_nth. now rewrite nth_error_map, Hi.
Qed.

Lemma all_years_ok : forallb year_okb table_years = true.
Proof. vm_compute. reflexivity. Qed.

Lemma all_months_ok :
  forallb (fun y => forallb (month_okb y) [1;2;3;4;5;6;7;8;9;10;11;12])
          table_years = true.
Proof. vm_compute. reflexivity. Qed.

(** The zone in force around a year of the table. *)
Lemma info_at_year (y : Z) :
  2007 <= y <= 2037 ->
  let a := dst_start y + 360 in
  let b := dst_end y + 300 in
  (forall x, year_start y - 1800 <= x < a -> Pytz.info_at x = CST)
  /\ (forall x, a <= x < b -> Pytz.info_at x = CDT)
  /\ (forall x, b <= x < year_start (y + 1) + 1800 -> Pytz.info_at x = CST)
  /\ year_start y + 4000 <= a /\ a + 4000 <= b /\ b + 4000 <= year_start (y + 1).
Proof.
  intros Hy a b.
  pose proof all_years_ok as H. rewrite forallb_forall in H.
  specialize (H y (in_table_years y Hy)). unfold year_okb in H.
  set (i := Z.to_nat (2 * (y - 2007))) in H.
  destruct (nth_error Pytz.transitions i) as [[p [| |]]|] eqn:E0; try discriminate.
  destruct (nth_error Pytz.transitions (S i)) as [[a' [| |]]|] eqn:E1;
    try discriminate.
  destruct (nth_error Pytz.transitions (S (S i))) as [[b' [| |]]|] eqn:E2;
    try discriminate.
  rewrite !andb_true_iff in H.
  destruct H as [[[[[[Hp Ha] Hb] Hya] Hab] Hby] Hn].
  apply Z.leb_le in Hp, Hya, Hab, Hby. apply Z.eqb_eq in Ha, Hb.
  fold a in Ha. fold b in Hb. subst a' b'.
  repeat split; try assumption.
  - intros x Hx. apply (info_at_between i p CST x E0); [lia|].
    rewrite E1. lia.
  - intros x Hx. apply (info_at_between (S i) a CDT x E1); [lia|].
    rewrite E2. lia.
  - intros x Hx. apply (info_at_between (S (S i)) b CST x E2); [lia|].
    destruct (nth_error Pytz.transitions (S (S (S i)))) as [[n z]|]; [|exact I].
    apply Z.leb_le in Hn. lia.
Qed.

Lemma localize_fuel_unfold (fuel : nat) (dt : Z) :
  Pytz.localize_fuel fuel dt =
    match Pytz.possible_loc_dt dt with
    | [x] => Ok x
    | [] =>
        match fuel with
        | O => Raise RecursionError
        | S f =>
            r <- Pytz.localize_fuel f (dt - 360) ;;
            Ok (Pytz.mklocal (Pytz.wall r + 360) (Pytz.zone r))
        end
    | x :: l =>
        match filter (fun p => Bool.eqb (negb (dst (Pytz.zone p) =? 0)) false)
                     (x :: l) with
        | [y] => Ok y
        | [] => Ok (Pytz.latest x l)
        | y :: l' => Ok (Pytz.latest y l')
        end
    end.
Proof. destruct fuel; reflexivity. Qed.

(** [localize] on the wall-clock minutes of one year, given the three
    stretches of the table that cover the year: standard time up to [a],
    daylight time up to [b], standard time after. *)
Section LocalizeYear.
Variables y0 a b y1 : Z.
Hypothesis Hcst1 : forall x, y0 - 1800 <= x < a -> Pytz.info_at x = CST.
Hypothesis Hcdt : forall x, a <= x < b -> Pytz.info_at x = CDT.
Hypothesis Hcst2 : forall x, b <= x < y1 + 1800 -> Pytz.info_at x = CST.
Hypothesis Hya : y0 + 4000 <= a.
Hypothesis Hab : a + 4000 <= b.
Hypothesis Hby : b + 4000 <= y1.

Lemma info_cases (x : Z) :
  y0 - 1800 <= x < y1 + 1800 ->
  Pytz.info_at x = if (a <=? x) && (x <? b) then CDT else CST.
Proof.
  intros Hx.
  destruct (Z.leb_spec a x), (Z.ltb_spec x b); simpl;
    first [apply Hcdt; lia | apply Hcst1; lia | apply Hcst2; lia].
Qed.

Ltac split_info :=
  repeat match goal with
         | |- context [Pytz.info_at ?x] =>
             rewrite (info_cases x) by lia;
             destruct (Z.leb_spec a x), (Z.ltb_spec x b);
             try lia; cbn [andb utcoffset Pytz.wall Pytz.zone]
         end.

Lemma possible_loc_dt_year (m : Z) :
  y0 - 360 <= m < y1 ->
  Pytz.possible_loc_dt m =
    if m <? a - 360 then [Pytz.mklocal m CST]
    else if m <? a - 300 then []
    else if m <? b - 360 then [Pytz.mklocal m CDT]
    else if m <? b - 300 then [Pytz.mklocal m CDT; Pytz.mklocal m CST]
    else [Pytz.mklocal m CST].
Proof.
  intros Hm.
  unfold Pytz.possible_loc_dt, Pytz.candidate, Pytz.normalize, Pytz.fromutc.
  cbn [Pytz.wall Pytz.zone].
  destruct (Z.ltb_spec m (a - 360)); [|destruct (Z.ltb_spec m (a - 300));
    [|destruct (Z.ltb_spec m (b - 360)); [|destruct (Z.ltb_spec m (b - 300))]]];
    split_info;
    repeat match goal with
           | |- context [?u =? m] =>
               first [replace u with m by lia; rewrite Z.eqb_refl
                     | replace (u =? m) with false
                         by (symmetry; apply Z.eqb_neq; lia)]
           end;
    cbn [app fold_left Pytz.set_add existsb orb];
    unfold Pytz.set_add, Pytz.same_instant, Pytz.utc_time;
    cbn [existsb Pytz.wall Pytz.zone utcoffset orb app];
    repeat match goal with
           | |- context [?u =? ?v] =>
               first [replace (u =? v) with true
                        by (symmetry; apply Z.eqb_eq; lia)
                     | replace (u =? v) with false
                         by (symmetry; apply Z.eqb_neq; lia)]
           end;
    cbn [orb app]; reflexivity.
Qed.

Lemma localize_fuel_existing (fuel : nat) (m : Z) :
  y0 - 360 <= m < y1 ->
  ~ (a - 360 <= m < a - 300) ->
  Pytz.localize_fuel fuel m = Ok (Pytz.mklocal m (zone_of a b m)).
Proof.
  intros Hm Hgap. rewrite localize_fuel_unfold, possible_loc_dt_year by assumption.
  unfold zone_of.
  destruct (Z.ltb_spec m (a - 360)); [|destruct (Z.ltb_spec m (a - 300));
    [lia|destruct (Z.ltb_spec m (b - 360)); [|destruct (Z.ltb_spec m (b - 300))]]];
    destruct (Z.leb_spec (a - 300) m); try lia;
    destruct (Z.ltb_spec m (b - 360)); try lia; reflexivity.
Qed.

Lemma localize_fuel_year (fuel : nat) (m : Z) :
  y0 <= m < y1 ->
  Pytz.localize_fuel (S fuel) m = Ok (Pytz.mklocal m (zone_of a b m)).
Proof.
  intros Hm.
  destruct (Z.lt_ge_cases m (a - 360)) as [H1|H1];
    [apply localize_fuel_existing; lia|].
  destruct (Z.lt_ge_cases m (a - 300)) as [H2|H2];
    [|apply localize_fuel_existing; lia].
  rewrite localize_fuel_unfold, possible_loc_dt_year by lia.
  destruct (Z.ltb_spec m (a - 360)); [lia|].
  destruct (Z.ltb_spec m (a - 300)); [|lia].
  rewrite localize_fuel_existing by lia. simpl.
  unfold zone_of.
  destruct (Z.leb_spec (a - 300) (m - 360)); [lia|].
  destruct (Z.leb_spec (a - 300) m); [lia|]. simpl.
  f_equal. f_equal. lia.
Qed.

End LocalizeYear.

Lemma datetime_new_Ok (y mo d h mi : Z) (dt : datetime) :
  datetime_new y mo d h mi = Ok dt ->
  dt = mkdatetime y mo d h mi None /\ 1 <= y <= 9999 /\ valid_datetime dt.
Proof.
  unfold datetime_new, valid_datetime.
  destruct (_ && _) eqn:E; [|discriminate].
  intros H. injection H as <-. simpl.
  rewrite !andb_true_iff, !Z.leb_le in E. intuition.
Qed.

Lemma datetime_new_Raise (y mo d h mi : Z) (e : exn) :
  datetime_new y mo d h mi = Raise e -> e = ValueError.
Proof. unfold datetime_new. destruct (_ && _); congruence. Qed.

Lemma to_minutes_in_year (dt : datetime) :
  2007 <= year dt <= 2037 -> valid_datetime dt ->
  year_start (year dt) <= to_minutes dt < year_start (year dt + 1).
Proof.
  intros Hy [Hmo [Hd [Hh Hmi]]].
  pose proof all_months_ok as H. rewrite forallb_forall in H.
  specialize (H _ (in_table_years _ Hy)). rewrite forallb_forall in H.
  assert (Hin : In (month dt) [1;2;3;4;5;6;7;8;9;10;11;12]).
  { simpl. lia. }
  specialize (H _ Hin). unfold month_okb in H.
  apply andb_true_iff in H as [H1 H2]. apply Z.leb_le in H1, H2.
  unfold to_minutes. unfold Calendar.ymd2ord in *. lia.
Qed.

(** [localize] keeps the wall clock and attaches the zone of the US rule. *)
Lemma localize_central (naive : datetime) :
  2007 <= year naive <= 2037 -> valid_datetime naive ->
  exists z, Pytz.localize (to_minutes naive)
            = Ok (Pytz.mklocal (to_minutes naive) z)
            /\ utcoffset z = central_utcoffset naive.
Proof.
  intros Hy Hv.
  destruct (info_at_year (year naive) Hy) as [H1 [H2 [H3 [Hya [Hab Hby]]]]].
  pose proof (to_minutes_in_year naive Hy Hv) as Hm.
  exists (zone_of (dst_start (year naive) + 360) (dst_end (year naive) + 300)
                  (to_minutes naive)).
  split.
  - unfold Pytz.localize. change 1000%nat with (S 999).
    apply (localize_fuel_year (year_start (year naive)) _ _
                              (year_start (year naive + 1)));
      assumption.
  - unfold zone_of, central_utcoffset. cbv zeta.
    replace (dst_start (year naive) + 360 - 300) with (dst_start (year naive) + 60)
      by lia.
    replace (dst_end (year naive) + 300 - 360) with (dst_end (year naive) - 60)
      by lia.
    now destruct (_ && _).
Qed.



(** ** What the matchers accept *)

Lemma chr_In (p : ascii -> bool) (s r : string) :
  In r (chr p s) <-> exists c, s = String c r /\ p c = true.
Proof.
  unfold chr. destruct s as [|c s'].
  - simpl. split; [tauto | intros [c [H _]]; discriminate].
  - destruct (p c) eqn:E; simpl.
    + split.
      * intros [<- | []]. now exists c.
      * intros [c' [H _]]. injection H as <- <-. now left.
    + split; [tauto|]. intros [c' [H Hp]]. injection H as <- <-. congruence.
Qed.

Lemma seq_In (m1 m2 : matcher) (s r : string) :
  In r (seq m1 m2 s) <-> exists r', In r' (m1 s) /\ In r (m2 r').
Proof. unfold seq. apply in_flat_map. Qed.

Lemma alt_In (m1 m2 : matcher) (s r : string) :
  In r (alt m1 m2 s) <-> In r (m1 s) \/ In r (m2 s).
Proof. unfold alt. apply in_app_iff. Qed.

Lemma alts_In (ms : list matcher) (s r : string) :
  In r (alts ms s) <-> exists m, In m ms /\ In r (m s).
Proof.
  induction ms as [|m ms IH]; simpl.
  - split; [tauto | intros [m [[] _]]].
  - rewrite alt_In, IH. split.
    + intros [H | [m' [Hin H]]]; [exists m | exists m']; auto.
    + intros [m' [[<- | Hin] H]]; [now left | right; now exists m'].
Qed.

Lemma pbind_In {A B : Type} (p : parser A) (k : A -> parser B)
    (s : string) (x : B) (r : string) :
  In (x, r) (pbind p k s) <-> exists a r', In (a, r') (p s) /\ In (x, r) (k a r').
Proof.
  unfold pbind. rewrite in_flat_map. split.
  - intros [[a r'] [H1 H2]]. now exists a, r'.
  - intros [a [r' [H1 H2]]]. now exists (a, r').
Qed.

Lemma group_In (m : matcher) (s g r : string) :
  In (g, r) (group m s) <-> In r (m s) /\ g = matched s r.
Proof.
  unfold group. rewrite in_map_iff. split.
  - intros [r' [H Hin]]. injection H as Hg Hr. subst.
    split; [assumption | reflexivity].
  - intros [Hin ->]. exists r. split; [reflexivity | assumption].
Qed.

Lemma skip_In (m : matcher) (s : string) (u : unit) (r : string) :
  In (u, r) (skip m s) <-> In r (m s).
Proof.
  unfold skip. rewrite in_map_iff. split.
  - intros [r' [H Hin]]. injection H as Hr. subst. assumption.
  - intros Hin. exists r. destruct u. split; [reflexivity | assumption].
Qed.

Lemma substring_prefix (w r : string) :
  substring 0 (String.length w) (w ++ r) = w.
Proof. induction w as [|c w IH]; simpl; [now destruct r | now rewrite IH]. Qed.

Lemma length_append (w r : string) :
  String.length (w ++ r) = (String.length w + String.length r)%nat.
Proof. induction w as [|c w IH]; simpl; [reflexivity | now rewrite IH]. Qed.

(** The text consumed before a remainder. *)
Lemma matched_app (w r : string) : matched (w ++ r) r = w.
Proof.
  unfold matched. rewrite length_append.
  replace (String.length w + String.length r - String.length r)%nat
    with (String.length w) by lia.
  apply substring_prefix.
Qed.

Lemma matched_1 (c : ascii) (r : string) :
  matched (String c r) r = String c "".
Proof. apply (matched_app (String c "") r). Qed.

Lemma matched_2 (c1 c2 : ascii) (r : string) :
  matched (String c1 (String c2 r)) r = String c1 (String c2 "").
Proof. apply (matched_app (String c1 (String c2 "")) r). Qed.

(** A word matched without regard to case. *)
Lemma istr_In (w s r : string) :
  In r (istr w s) -> exists v, s = (v ++ r)%string /\ PyStr.lower v = w.
Proof.
  revert s. induction w as [|c w IH]; intros s; simpl.
  - intros [<- | []]. now exists "".
  - rewrite seq_In. intros [r' [H1 H2]].
    apply chr_In in H1 as [x [-> Hx]]. apply Ascii.eqb_eq in Hx.
    apply IH in H2 as [v [-> Hv]].
    exists (String x v). simpl. now rewrite Hx, Hv.
Qed.

Lemma seqToRE_In (names : list string) (s r : string) :
  In r (seqToRE names s) ->
  exists v, s = (v ++ r)%string /\ In (PyStr.lower v) names.
Proof.
  unfold seqToRE. rewrite alts_In. intros [m [Hm H]].
  apply in_map_iff in Hm as [w [<- Hw]].
  apply istr_In in H as [v [-> Hv]]. exists v. now rewrite Hv.
Qed.

(** Four digits. *)
Lemma re_Y_In (s r : string) :
  In r (re_Y s) ->
  exists c1 c2 c3 c4, s = String c1 (String c2 (String c3 (String c4 r))).
Proof.
  unfold re_Y. simpl. rewrite !seq_In.
  intros [r1 [H1 H]]. rewrite seq_In in H. destruct H as [r2 [H2 H]].
  rewrite seq_In in H. destruct H as [r3 [H3 H]].
  rewrite seq_In in H. destruct H as [r4 [H4 [<- | []]]].
  apply chr_In in H1 as [c1 [-> _]]. apply chr_In in H2 as [c2 [-> _]].
  apply chr_In in H3 as [c3 [-> _]]. apply chr_In in H4 as [c4 [-> _]].
  now exists c1, c2, c3, c4.
Qed.

(** The pieces of a match of the whole format that the fields are read
    from. *)
Lemma format_regex_In (s : string) (found : found_dict) (rest : string) :
  In (found, rest) (format_regex s) ->
  (exists r, In r (re_Y s) /\ g_Y found = matched s r)
  /\ (exists s' r, In r (seqToRE (tl a_month) s') /\ g_b found = matched s' r)
  /\ (exists s' r, In r (re_d s') /\ g_d found = matched s' r)
  /\ (exists s' r, In r (re_I s') /\ g_I found = matched s' r)
  /\ (exists s' r, In r (re_M s') /\ g_M found = matched s' r)
  /\ (exists s' r, In r (seqToRE am_pm s') /\ g_p found = matched s' r).
Proof.
  unfold format_regex. intros H.
  repeat match type of H with
         | In _ (pbind _ _ _) =>
             let a := fresh "a" in
             let r := fresh "r" in
             let H1 := fresh "G" in
             apply pbind_In in H as [a [r [H1 H]]]
         end.
  destruct H as [H | []]. injection H as <- <-.
  repeat match goal with
         | G : In _ (group _ _) |- _ => apply group_In in G as [G ?]
         | G : In _ (skip _ _) |- _ => clear G
         end.
  subst. simpl. repeat split; eauto.
Qed.

(** ** The ranges of the fields *)

Lemma in_all_ascii (c : ascii) : In c all_ascii.
Proof.
  unfold all_ascii. rewrite <- (ascii_nat_embedding c).
  apply in_map. apply in_seq. pose proof (nat_ascii_bounded c). lia.
Qed.

Lemma ascii_reflect (P : ascii -> bool) :
  forallb P all_ascii = true -> forall c, P c = true.
Proof. intros H c. rewrite forallb_forall in H. apply H, in_all_ascii. Qed.

Lemma ascii2_reflect (P : ascii -> ascii -> bool) :
  forallb (fun c1 => forallb (P c1) all_ascii) all_ascii = true ->
  forall c1 c2, P c1 c2 = true.
Proof.
  intros H c1 c2. rewrite forallb_forall in H.
  specialize (H c1 (in_all_ascii c1)). now apply ascii_reflect.
Qed.

Lemma in_range_spec (lo hi v : Z) : in_range lo hi v = true <-> lo <= v <= hi.
Proof. unfold in_range. rewrite andb_true_iff, !Z.leb_le. tauto. Qed.

Lemma one_char (p : ascii -> bool) (lo hi : Z) :
  forallb (fun c => implb (p c) (in_range lo hi (int_group (String c ""))))
          all_ascii = true ->
  forall s r, In r (chr p s) -> lo <= int_group (matched s r) <= hi.
Proof.
  intros H s r Hin. apply chr_In in Hin as [c [-> Hc]].
  rewrite matched_1. apply in_range_spec.
  pose proof (ascii_reflect _ H c) as Hb. simpl in Hb. now rewrite Hc in Hb.
Qed.

Lemma two_chars (p1 p2 : ascii -> bool) (lo hi : Z) :
  forallb (fun c1 => forallb (fun c2 =>
     implb (p1 c1 && p2 c2)
           (in_range lo hi (int_group (String c1 (String c2 "")))))
     all_ascii) all_ascii = true ->
  forall s r, In r (seq (chr p1) (chr p2) s) ->
              lo <= int_group (matched s r) <= hi.
Proof.
  intros H s r Hin. apply seq_In in Hin as [r' [H1 H2]].
  apply chr_In in H1 as [c1 [-> Hc1]]. apply chr_In in H2 as [c2 [-> Hc2]].
  rewrite matched_2. apply in_range_spec.
  pose proof (ascii2_reflect _ H c1 c2) as Hb. simpl in Hb.
  now rewrite Hc1, Hc2 in Hb.
Qed.

Ltac field_range :=
  first [ eapply two_chars; [|eassumption]; vm_compute; reflexivity
        | eapply one_char; [|eassumption]; vm_compute; reflexivity ].

Lemma re_d_range (s r : string) :
  In r (re_d s) -> 1 <= int_group (matched s r) <= 31.
Proof.
  unfold re_d, alts. cbn [fold_right]. rewrite !alt_In.
  unfold lit, range, digit.
  intros [H | [H | [H | [H | [H | []]]]]]; field_range.
Qed.

Lemma re_I_range (s r : string) :
  In r (re_I s) -> 1 <= int_group (matched s r) <= 12.
Proof.
  unfold re_I, alts. cbn [fold_right]. rewrite !alt_In.
  unfold lit, range, digit.
  intros [H | [H | [H | []]]]; field_range.
Qed.

Lemma re_M_range (s r : string) :
  In r (re_M s) -> 0 <= int_group (matched s r) <= 59.
Proof.
  unfold re_M, alts. cbn [fold_right]. rewrite !alt_In.
  unfold lit, range, digit.
  intros [H | [H | []]]; field_range.
Qed.

Lemma month_range (s r : string) :
  In r (seqToRE (tl a_month) s) ->
  1 <= index (PyStr.lower (matched s r)) a_month <= 12.
Proof.
  intros H. apply seqToRE_In in H as [v [-> Hv]]. rewrite matched_app.
  simpl in Hv.
  repeat (destruct Hv as [<- | Hv]; [vm_compute; split; discriminate|]).
  destruct Hv.
Qed.

Lemma hour_range (I p : string) :
  1 <= int_group I <= 12 -> In (PyStr.lower p) am_pm ->
  0 <= hour_of I p <= 23.
Proof.
  intros HI Hp. unfold hour_of. remember (int_group I) as h eqn:Eh. clear Eh.
  destruct Hp as [<- | [<- | []]]; simpl;
    destruct (Z.eqb_spec h 12); simpl; lia.
Qed.

Lemma match_format_In (s : string) (found : found_dict) :
  match_format s = Some found -> In (found, "") (format_regex s).
Proof.
  unfold match_format. destruct (format_regex s) as [|[f rest] l]; [discriminate|].
  destruct rest; simpl; [|discriminate]. intros H. injection H as ->. now left.
Qed.

(** The fields of a text that matches the format are in range, the day
    up to 31. *)
Lemma match_format_ranges (s : string) (found : found_dict) :
  match_format s = Some found ->
  1 <= month_of found <= 12 /\ 1 <= day_of found <= 31
  /\ 0 <= hour_of (g_I found) (g_p found) <= 23
  /\ 0 <= minute_of found <= 59.
Proof.
  intros H. apply match_format_In, format_regex_In in H.
  destruct H as [_ [[sb [rb [Hb Eb]]] [[sd [rd [Hd Ed]]] [[sI [rI [HI EI]]]
                [[sM [rM [HM EM]]] [sp [rp [Hp Ep]]]]]]]].
  unfold month_of, day_of, minute_of. rewrite Eb, Ed, EI, EM, Ep.
  split; [now apply month_range|].
  split; [now apply re_d_range|].
  split; [|now apply re_M_range].
  apply hour_range; [now apply re_I_range|].
  apply seqToRE_In in Hp as [v [-> Hv]]. now rewrite matched_app.
Qed.

(** ** The year *)

Lemma year_text (now : Z) :
  2007 <= now <= 2037 ->
  (exists c1 c2 c3 c4,
      str_of_int now = String c1 (String c2 (String c3 (String c4 ""))))
  /\ int_group (str_of_int now) = now.
Proof.
  intros Hy.
  assert (H : forallb year_textb table_years = true) by (vm_compute; reflexivity).
  rewrite forallb_forall in H. specialize (H now (in_table_years now Hy)).
  unfold year_textb in H.
  destruct (str_of_int now) as [|c1 [|c2 [|c3 [|c4 [|]]]]]; try discriminate.
  split; [now exists c1, c2, c3, c4 | now apply Z.eqb_eq].
Qed.

(** The year field read back from the text is the year put in front. *)
Lemma match_format_year (now : Z) (date_str : string) (found : found_dict) :
  2007 <= now <= 2037 ->
  match_format (DataProcessor.date_with_year now date_str) = Some found ->
  year_of found = now.
Proof.
  intros Hy H. apply match_format_In, format_regex_In in H.
  destruct H as [[r [Hr Eg]] _].
  destruct (year_text now Hy) as [[c1 [c2 [c3 [c4 Ht]]]] Hv].
  unfold year_of. rewrite Eg. unfold DataProcessor.date_with_year in *.
  rewrite Ht in *. simpl in Hr |- *.
  apply re_Y_In in Hr as [d1 [d2 [d3 [d4 Hs]]]].
  injection Hs as <- <- <- <- Hs. rewrite Hs.
  pose proof (matched_app (String c1 (String c2 (String c3 (String c4 "")))) r)
    as Hm.
  cbn [append] in Hm. rewrite Hm. exact Hv.
Qed.

(** [strptime] on the text [parse_auction_date] builds: it fails when the
    text does not match the format, and when the day does not exist in the
    month. *)
Lemma strptime_cases (now : Z) (date_str : string) :
  2007 <= now <= 2037 ->
  strptime (DataProcessor.date_with_year now date_str) =
    match match_format (DataProcessor.date_with_year now date_str) with
    | None => Raise ValueError
    | Some found =>
        if day_of found <=? Calendar.days_in_month now (month_of found)
        then Ok (mkdatetime now (month_of found) (day_of found)
                            (hour_of (g_I found) (g_p found))
                            (minute_of found) None)
        else Raise ValueError
    end.
Proof.
  intros Hy. unfold strptime.
  destruct (match_format _) as [found|] eqn:E; [|reflexivity].
  rewrite (match_format_year now date_str found Hy E).
  destruct (match_format_ranges _ _ E) as [Hmo [Hd [Hh Hmi]]].
  unfold datetime_new.
  replace (1 <=? now) with true by (symmetry; apply Z.leb_le; lia).
  replace (now <=? 9999) with true by (symmetry; apply Z.leb_le; lia).
  replace (1 <=? month_of found) with true by (symmetry; apply Z.leb_le; lia).
  replace (month_of found <=? 12) with true by (symmetry; apply Z.leb_le; lia).
  replace (1 <=? day_of found) with true by (symmetry; apply Z.leb_le; lia).
  replace (0 <=? hour_of (g_I found) (g_p found)) with true
    by (symmetry; apply Z.leb_le; lia).
  replace (hour_of (g_I found) (g_p found) <=? 23) with true
    by (symmetry; apply Z.leb_le; lia).
  replace (0 <=? minute_of found) with true by (symmetry; apply Z.leb_le; lia).
  replace (minute_of found <=? 59) with true by (symmetry; apply Z.leb_le; lia).
  simpl. rewrite !andb_true_r. reflexivity.
Qed.

Lemma strptime_Ok (now : Z) (date_str : string) (naive : datetime) :
  2007 <= now <= 2037 ->
  strptime (DataProcessor.date_with_year now date_str) = Ok naive ->
  year naive = now /\ valid_datetime naive /\ tz naive = None.
Proof.
  intros Hy H.
  assert (H' := H). rewrite strptime_cases in H' by assumption.
  unfold strptime in H.
  destruct (match_format _) as [found|]; [|discriminate].
  apply datetime_new_Ok in H as [-> [_ Hv]].
  destruct (_ <=? _); [|discriminate]. injection H' as H'.
  split; [|split; [assumption | reflexivity]].
  simpl. congruence.
Qed.

(** [parse_auction_date] in terms of [strptime] and the US rule. *)
Lemma parse_auction_date_spec (now : Z) (date_str : string) :
  2007 <= now <= 2037 ->
  DataProcessor.parse_auction_date now date_str =
    match strptime (DataProcessor.date_with_year now date_str) with
    | Ok naive =>
        Ok (of_minutes (to_minutes naive - central_utcoffset naive) (Some UTC))
    | Raise e => Raise e
    end.
Proof.
  intros Hy. unfold DataProcessor.parse_auction_date.
  destruct (strptime _) as [naive|e] eqn:E; [|reflexivity].
  destruct (strptime_Ok _ _ _ Hy E) as [Hyear [Hv _]].
  rewrite <- Hyear in Hy.
  destruct (localize_central naive Hy Hv) as [z [Hl Hz]].
  simpl. rewrite Hl. simpl. unfold DataProcessor.astimezone_utc. simpl.
  now rewrite Hz.
Qed.

(** ** Ordinals and dates *)

Lemma all_ordinals_ok :
  forallb (fun k => ord_okb (first_ordinal + Z.of_nat k))
          (List.seq 0 ordinal_count) = true.
Proof. vm_compute. reflexivity. Qed.

Lemma last_ordinal : first_ordinal + Z.of_nat ordinal_count = Calendar.ymd2ord 2039 1 1.
Proof. vm_compute. reflexivity. Qed.

Lemma ord_ok (n : Z) :
  first_ordinal <= n < Calendar.ymd2ord 2039 1 1 -> ord_okb n = true.
Proof.
  intros H. rewrite <- last_ordinal in H.
  pose proof all_ordinals_ok as Hall. rewrite forallb_forall in Hall.
  specialize (Hall (Z.to_nat (n - first_ordinal))).
  replace (first_ordinal + Z.of_nat (Z.to_nat (n - first_ordinal))) with n
    in Hall by lia.
  apply Hall. apply in_seq. lia.
Qed.

(** A minute count of the years 2007 to 2038 and its datetime. *)
Lemma of_minutes_spec (m : Z) (t : option tzinfo) :
  year_start 2007 <= m < year_start 2039 ->
  let r := of_minutes m t in
  to_minutes r = m /\ valid_datetime r /\ tz r = t
  /\ year_start (year r) <= m < year_start (year r + 1)
  /\ 2007 <= year r <= 2038.
Proof.
  intros Hm. unfold of_minutes.
  assert (Hn : first_ordinal <= m / 1440 < Calendar.ymd2ord 2039 1 1).
  { unfold year_start, first_ordinal in *.
    split; [apply Z.div_le_lower_bound | apply Z.div_lt_upper_bound]; lia. }
  pose proof (ord_ok _ Hn) as Hok. unfold ord_okb in Hok.
  destruct (Calendar.ord2ymd (m / 1440)) as [[y mo] d].
  rewrite !andb_true_iff, !Z.leb_le, Z.eqb_eq, Z.ltb_lt in Hok.
  destruct Hok as [[[[[[[[Hord Hmo1] Hmo2] Hd1] Hd2] Hy1] Hy2] Hs1] Hs2].
  pose proof (Z.div_mod m 1440 ltac:(lia)) as Hdm.
  pose proof (Z.mod_pos_bound m 1440 ltac:(lia)) as Hrem.
  pose proof (Z.div_mod (m mod 1440) 60 ltac:(lia)) as Hdm2.
  pose proof (Z.mod_pos_bound (m mod 1440) 60 ltac:(lia)) as Hrem2.
  assert (Hq : 0 <= m mod 1440 / 60 <= 23).
  { split; [apply Z.div_pos; lia | ].
    apply Z.lt_succ_r. apply Z.div_lt_upper_bound; lia. }
  cbv zeta. unfold to_minutes, valid_datetime. simpl.
  rewrite Hord. unfold year_start in *. repeat split; lia.
Qed.

Lemma in_result_years (y : Z) : 2007 <= y <= 2038 -> In y result_years.
Proof.
  intros H. unfold result_years. replace y with (Z.of_nat (Z.to_nat y)) by lia.
  apply in_map, in_seq. lia.
Qed.

Lemma year_start_mono (y y' : Z) :
  2007 <= y <= 2038 -> 2007 <= y' <= 2038 -> y < y' ->
  year_start (y + 1) <= year_start y'.
Proof.
  intros Hy Hy' Hlt.
  assert (H : forallb (fun a => forallb (year_monob a) result_years)
                      result_years = true)
    by (vm_compute; reflexivity).
  rewrite forallb_forall in H. specialize (H y (in_result_years y Hy)).
  rewrite forallb_forall in H. specialize (H y' (in_result_years y' Hy')).
  unfold year_monob in H. rewrite (proj2 (Z.ltb_lt y y') Hlt) in H.
  now apply Z.leb_le.
Qed.

Lemma year_start_bounds (y : Z) :
  2007 <= y <= 2038 ->
  year_start 2007 <= year_start y /\ year_start (y + 1) <= year_start 2039
  /\ year_start y + 1440 <= year_start (y + 1).
Proof.
  intros Hy.
  assert (H : forallb (fun a => (year_start 2007 <=? year_start a)
                                && (year_start (a + 1) <=? year_start 2039)
                                && (year_start a + 1440 <=? year_start (a + 1)))
                      result_years = true)
    by (vm_compute; reflexivity).
  rewrite forallb_forall in H. specialize (H y (in_result_years y Hy)).
  rewrite !andb_true_iff, !Z.leb_le in H. tauto.
Qed.

(** The year of the datetime of a minute count. *)
Lemma of_minutes_year (m : Z) (t : option tzinfo) (y : Z) :
  2007 <= y <= 2038 ->
  year_start y <= m < year_start (y + 1) ->
  year (of_minutes m t) = y.
Proof.
  intros Hy Hm.
  assert (Hr : year_start 2007 <= m < year_start 2039).
  { pose proof (year_start_bounds y Hy). lia. }
  destruct (of_minutes_spec m t Hr) as [_ [_ [_ [Hs Hy']]]].
  set (z := year (of_minutes m t)) in *.
  destruct (Z.lt_trichotomy z y) as [Hlt | [Heq | Hgt]]; [|assumption|].
  - pose proof (year_start_mono z y ltac:(lia) ltac:(lia) Hlt). lia.
  - pose proof (year_start_mono y z ltac:(lia) ltac:(lia) Hgt). lia.
Qed.



(** ** Matches of the format *)

(** ** The chain of remainders of a match *)

Lemma format_regex_chain (s : string) (found : found_dict) (rest : string) :
  In (found, rest) (format_regex s) <->
  exists r1 r2 r3 r4 r5 r6 r7 r8 r9 r10 r11 r12,
    In r1 (re_Y s) /\ In r2 (spaces r1)
    /\ In r3 (seqToRE a_weekday r2) /\ In r4 (spaces r3)
    /\ In r5 (seqToRE (tl a_month) r4) /\ In r6 (spaces r5)
    /\ In r7 (re_d r6) /\ In r8 (lit "," r7) /\ In r9 (spaces r8)
    /\ In r10 (re_I r9) /\ In r11 (lit ":" r10)
    /\ In r12 (re_M r11) /\ In rest (seqToRE am_pm r12)
    /\ found = mkfound (matched s r1) (matched r2 r3) (matched r4 r5)
                       (matched r6 r7) (matched r9 r10) (matched r11 r12)
                       (matched r12 rest).
Proof.
  unfold format_regex. split.
  - intros H.
    repeat match type of H with
           | In _ (pbind _ _ _) =>
               let a := fresh "a" in
               let r := fresh "r" in
               let H1 := fresh "G" in
               apply pbind_In in H as [a [r [H1 H]]]
           end.
    destruct H as [H | []]. injection H as <- <-.
    repeat match goal with
           | G : In _ (group _ _) |- _ => apply group_In in G as [G ?]
           | G : In _ (skip _ _) |- _ => apply skip_In in G
           end.
    subst. do 12 eexists. repeat (split; [eassumption|]). reflexivity.
  - intros [r1 [r2 [r3 [r4 [r5 [r6 [r7 [r8 [r9 [r10 [r11 [r12 H]]]]]]]]]]]].
    destruct H as [H1 [H2 [H3 [H4 [H5 [H6 [H7 [H8 [H9 [H10 [H11 [H12 [H13 ->]]]]]]]]]]]]].
    apply pbind_In. exists (matched s r1), r1. split; [now apply group_In|].
    apply pbind_In. exists tt, r2. split; [now apply skip_In|].
    apply pbind_In. exists (matched r2 r3), r3. split; [now apply group_In|].
    apply pbind_In. exists tt, r4. split; [now apply skip_In|].
    apply pbind_In. exists (matched r4 r5), r5. split; [now apply group_In|].
    apply pbind_In. exists tt, r6. split; [now apply skip_In|].
    apply pbind_In. exists (matched r6 r7), r7. split; [now apply group_In|].
    apply pbind_In. exists tt, r8. split; [now apply skip_In|].
    apply pbind_In. exists tt, r9. split; [now apply skip_In|].
    apply pbind_In. exists (matched r9 r10), r10. split; [now apply group_In|].
    apply pbind_In. exists tt, r11. split; [now apply skip_In|].
    apply pbind_In. exists (matched r11 r12), r12. split; [now apply group_In|].
    apply pbind_In. exists (matched r12 rest), rest. split; [now apply group_In|].
    now left.
Qed.

(** ** Classes of characters *)

Lemma implb_reflect (p q : ascii -> bool) :
  forallb (fun c => implb (p c) (q c)) all_ascii = true ->
  forall c, p c = true -> q c = true.
Proof.
  intros H c Hp. pose proof (ascii_reflect _ H c) as Hc. simpl in Hc.
  now rewrite Hp in Hc.
Qed.

Lemma digit_not_space (c : ascii) :
  PyStr.isdigit c = true -> PyStr.isspace c = false.
Proof.
  intros H. apply negb_true_iff.
  revert c H. apply implb_reflect. vm_compute. reflexivity.
Qed.

Lemma letter_not_space (c : ascii) :
  PyStr.islower_ascii (PyStr.lower_char c) = true -> PyStr.isspace c = false.
Proof.
  intros H. apply negb_true_iff.
  revert c H. apply implb_reflect. vm_compute. reflexivity.
Qed.

Lemma letter_not_digit (c : ascii) :
  PyStr.islower_ascii (PyStr.lower_char c) = true -> PyStr.isdigit c = false.
Proof.
  intros H. apply negb_true_iff.
  revert c H. apply implb_reflect. vm_compute. reflexivity.
Qed.

(** ** Runs *)

Lemma all_chars_app (p : ascii -> bool) (v w : string) :
  all_chars p (v ++ w) = all_chars p v && all_chars p w.
Proof.
  unfold all_chars. induction v as [|c v IH]; simpl; [reflexivity|].
  now rewrite IH, andb_assoc.
Qed.

Lemma plus_In (p : ascii -> bool) (s r : string) :
  In r (plus p s) <->
  exists w, s = (w ++ r)%string /\ PyStr.truthy w = true /\ all_chars p w = true.
Proof.
  revert r. induction s as [|c t IH]; intros r; simpl.
  - split; [tauto|]. intros [w [H [Hw _]]]. destruct w; discriminate.
  - destruct (p c) eqn:Hc.
    + rewrite in_app_iff, IH. simpl. split.
      * intros [[w [-> [Hw Ha]]] | [<- | []]].
        -- exists (String c w). unfold all_chars in *. simpl. now rewrite Hc.
        -- exists (String c ""). unfold all_chars. simpl. now rewrite Hc.
      * intros [w [H [Hw Ha]]]. destruct w as [|c' w]; [discriminate|].
        simpl in H. injection H as <- ->.
        unfold all_chars in Ha. simpl in Ha. apply andb_true_iff in Ha as [_ Ha].
        destruct w as [|c'' w]; [right; now left|].
        left. now exists (String c'' w).
    + split; [intros []|]. intros [w [H [Hw Ha]]].
      destruct w as [|c' w]; [discriminate|]. simpl in H. injection H as <- ->.
      unfold all_chars in Ha. simpl in Ha. rewrite Hc in Ha. discriminate.
Qed.

Lemma lstrip_blanks (w r : string) :
  all_chars PyStr.isspace w = true -> PyStr.lstrip (w ++ r) = PyStr.lstrip r.
Proof.
  unfold all_chars. induction w as [|c w IH]; simpl; [reflexivity|].
  intros H. apply andb_true_iff in H as [Hc Hw]. now rewrite Hc, IH.
Qed.

Lemma lstrip_first (r : string) :
  first_is PyStr.isspace r = false -> PyStr.lstrip r = r.
Proof. destruct r as [|c r]; simpl; [reflexivity|]. now intros ->. Qed.

(** Blanks before a text that does not start with a blank are all the
    leading blanks. *)
Lemma spaces_lstrip (s r : string) :
  In r (spaces s) -> first_is PyStr.isspace r = false -> r = PyStr.lstrip s.
Proof.
  unfold spaces. intros H Hr. apply plus_In in H as [w [-> [_ Hw]]].
  now rewrite lstrip_blanks, lstrip_first.
Qed.

Lemma drop_digits_run (w r : string) :
  all_chars PyStr.isdigit w = true -> first_is PyStr.isdigit r = false ->
  drop_digits (w ++ r) = r.
Proof.
  unfold all_chars. induction w as [|c w IH]; simpl.
  - intros _ Hr. destruct r as [|c r]; simpl in *; [reflexivity|]. now rewrite Hr.
  - intros H Hr. apply andb_true_iff in H as [Hc Hw]. rewrite Hc. now apply IH.
Qed.

Lemma drop_app (w r : string) : drop (String.length w) (w ++ r) = r.
Proof. induction w as [|c w IH]; simpl; [now destruct r | assumption]. Qed.

Lemma lower_length (w : string) :
  String.length (PyStr.lower w) = String.length w.
Proof. induction w as [|c w IH]; simpl; [reflexivity | now rewrite IH]. Qed.

(** ** Names *)

Lemma name_of_In (names : list string) (w : string) :
  name_of names w = true <-> In (PyStr.lower w) names.
Proof.
  unfold name_of. rewrite existsb_exists. split.
  - intros [n [Hn He]]. apply String.eqb_eq in He. now subst.
  - intros H. exists (PyStr.lower w). split; [assumption | apply String.eqb_refl].
Qed.

Lemma istr_complete (w v r : string) :
  PyStr.lower v = w -> In r (istr w (v ++ r)%string).
Proof.
  revert w. induction v as [|c v IH]; intros w H; simpl in H; subst w; simpl.
  - now left.
  - apply seq_In. exists (v ++ r)%string. split.
    + apply chr_In. exists c. split; [reflexivity | apply Ascii.eqb_refl].
    + now apply IH.
Qed.

Lemma seqToRE_complete (names : list string) (v r : string) :
  In (PyStr.lower v) names -> In r (seqToRE names (v ++ r)%string).
Proof.
  intros H. unfold seqToRE. apply alts_In.
  exists (istr (PyStr.lower v)). split; [now apply in_map|].
  now apply istr_complete.
Qed.

(** A name of [n] letters is what comes before the remainder, and the
    text starts with a letter. *)
Lemma seqToRE_step (names : list string) (n : nat) (s r : string) :
  forallb (fun w => (String.length w =? n)%nat && starts_with_letter w) names = true ->
  In r (seqToRE names s) ->
  r = drop n s /\ starts_with_letter s = true
  /\ exists v, s = (v ++ r)%string /\ In (PyStr.lower v) names.
Proof.
  intros Hn H. apply seqToRE_In in H as [v [-> Hv]].
  rewrite forallb_forall in Hn. specialize (Hn _ Hv).
  apply andb_true_iff in Hn as [Hl Hf]. apply Nat.eqb_eq in Hl.
  rewrite lower_length in Hl. subst n.
  split; [now rewrite drop_app|]. split; [|now exists v].
  destruct v as [|c v]; [discriminate|]. simpl in *.
  unfold starts_with_letter in *. simpl in *.
  assert (E : PyStr.lower_char (PyStr.lower_char c) = PyStr.lower_char c).
  { clear. apply Ascii.eqb_eq. revert c.
    apply (ascii_reflect
             (fun c => Ascii.eqb (PyStr.lower_char (PyStr.lower_char c))
                                 (PyStr.lower_char c))).
    vm_compute. reflexivity. }
  now rewrite E in Hf.
Qed.

(** ** Numbers *)

Lemma one_char_numeral (p : ascii -> bool) (lo hi : Z) :
  forallb (fun c => implb (p c) (numeral lo hi (String c ""))) all_ascii = true ->
  forall s r, In r (chr p s) -> starts_numeral lo hi s r.
Proof.
  intros H s r Hin. apply chr_In in Hin as [c [-> Hc]].
  right. exists c. split; [reflexivity|]. revert c Hc. now apply implb_reflect.
Qed.

Lemma two_chars_numeral (p1 p2 : ascii -> bool) (lo hi : Z) :
  forallb (fun c1 => forallb (fun c2 =>
     implb (p1 c1 && p2 c2) (numeral lo hi (String c1 (String c2 ""))))
     all_ascii) all_ascii = true ->
  forall s r, In r (seq (chr p1) (chr p2) s) -> starts_numeral lo hi s r.
Proof.
  intros H s r Hin. apply seq_In in Hin as [r' [H1 H2]].
  apply chr_In in H1 as [c1 [-> Hc1]]. apply chr_In in H2 as [c2 [-> Hc2]].
  left. exists c1, c2. split; [reflexivity|].
  pose proof (ascii2_reflect _ H c1 c2) as Hb. simpl in Hb.
  now rewrite Hc1, Hc2 in Hb.
Qed.

Ltac numeral_alt :=
  first [ eapply two_chars_numeral; [|eassumption]; vm_compute; reflexivity
        | eapply one_char_numeral; [|eassumption]; vm_compute; reflexivity ].

Lemma chr2_In (p1 p2 : ascii -> bool) (c1 c2 : ascii) (r : string) :
  p1 c1 && p2 c2 = true ->
  In r (seq (chr p1) (chr p2) (String c1 (String c2 r))).
Proof.
  intros H. apply andb_true_iff in H as [H1 H2]. apply seq_In.
  exists (String c2 r). split; apply chr_In; eauto.
Qed.

Lemma chr1_In (p : ascii -> bool) (c : ascii) (r : string) :
  p c = true -> In r (chr p (String c r)).
Proof. intros H. apply chr_In. eauto. Qed.

(** The hour. *)
Lemma re_I_In (s r : string) : In r (re_I s) <-> starts_numeral 1 12 s r.
Proof.
  unfold re_I, alts. cbn [fold_right]. rewrite !alt_In.
  unfold lit, range, digit. split.
  - intros [H | [H | [H | []]]]; numeral_alt.
  - intros [[c1 [c2 [-> H]]] | [c [-> H]]].
    + assert (Hb : (Ascii.eqb "1" c1
                    && ((PyStr.code "0" <=? PyStr.code c2)%N
                        && (PyStr.code c2 <=? PyStr.code "2")%N))
                   || (Ascii.eqb "0" c1
                       && ((PyStr.code "1" <=? PyStr.code c2)%N
                           && (PyStr.code c2 <=? PyStr.code "9")%N)) = true).
      { revert H. generalize c1 c2. intros a b Hn.
        pose proof (ascii2_reflect
          (fun a b => implb (numeral 1 12 (String a (String b "")))
             ((Ascii.eqb "1" a
               && ((PyStr.code "0" <=? PyStr.code b)%N
                   && (PyStr.code b <=? PyStr.code "2")%N))
              || (Ascii.eqb "0" a
                  && ((PyStr.code "1" <=? PyStr.code b)%N
                      && (PyStr.code b <=? PyStr.code "9")%N))))
          ltac:(vm_compute; reflexivity) a b) as Hr.
        simpl in Hr. now rewrite Hn in Hr. }
      apply orb_true_iff in Hb as [Hb | Hb];
        [left | right; left]; now apply chr2_In.
    + right. right. left. apply chr1_In.
      revert c H. apply implb_reflect. vm_compute. reflexivity.
Qed.

(** The minute. *)
Lemma re_M_In (s r : string) : In r (re_M s) <-> starts_numeral 0 59 s r.
Proof.
  unfold re_M, alts. cbn [fold_right]. rewrite !alt_In.
  unfold lit, range, digit. split.
  - intros [H | [H | []]]; numeral_alt.
  - intros [[c1 [c2 [-> H]]] | [c [-> H]]].
    + left. apply chr2_In.
      pose proof (ascii2_reflect
        (fun a b => implb (numeral 0 59 (String a (String b "")))
           (((PyStr.code "0" <=? PyStr.code a)%N
             && (PyStr.code a <=? PyStr.code "5")%N) && PyStr.isdigit b))
        ltac:(vm_compute; reflexivity) c1 c2) as Hr.
      simpl in Hr. now rewrite H in Hr.
    + right. left. apply chr1_In.
      revert c H. apply implb_reflect. vm_compute. reflexivity.
Qed.

(** The day: a number, or a space and a number of one digit. *)
Lemma re_d_In (s r : string) :
  In r (re_d s) <->
  starts_numeral 1 31 s r
  \/ (exists c, s = String " " (String c r)
                /\ numeral 1 9 (String c "") = true).
Proof.
  unfold re_d, alts. cbn [fold_right]. rewrite !alt_In.
  unfold lit, range, digit. split.
  - intros [H | [H | [H | [H | [H | []]]]]]; try (left; numeral_alt).
    right. apply seq_In in H as [r' [H1 H2]].
    apply chr_In in H1 as [c1 [-> Hc1]]. apply chr_In in H2 as [c2 [-> Hc2]].
    apply Ascii.eqb_eq in Hc1. subst c1. exists c2. split; [reflexivity|].
    revert c2 Hc2. apply implb_reflect. vm_compute. reflexivity.
  - intros [[[c1 [c2 [-> H]]] | [c [-> H]]] | [c [-> H]]].
    + assert (Hb : (Ascii.eqb "3" c1
                    && ((PyStr.code "0" <=? PyStr.code c2)%N
                        && (PyStr.code c2 <=? PyStr.code "1")%N))
                   || (((PyStr.code "1" <=? PyStr.code c1)%N
                        && (PyStr.code c1 <=? PyStr.code "2")%N)
                       && PyStr.isdigit c2)
                   || (Ascii.eqb "0" c1
                       && ((PyStr.code "1" <=? PyStr.code c2)%N
                           && (PyStr.code c2 <=? PyStr.code "9")%N)) = true).
      { pose proof (ascii2_reflect
          (fun a b => implb (numeral 1 31 (String a (String b "")))
             ((Ascii.eqb "3" a
               && ((PyStr.code "0" <=? PyStr.code b)%N
                   && (PyStr.code b <=? PyStr.code "1")%N))
              || (((PyStr.code "1" <=? PyStr.code a)%N
                   && (PyStr.code a <=? PyStr.code "2")%N)
                  && PyStr.isdigit b)
              || (Ascii.eqb "0" a
                  && ((PyStr.code "1" <=? PyStr.code b)%N
                      && (PyStr.code b <=? PyStr.code "9")%N))))
          ltac:(vm_compute; reflexivity) c1 c2) as Hr.
        simpl in Hr. now rewrite H in Hr. }
      apply orb_true_iff in Hb as [Hb | Hb];
        [apply orb_true_iff in Hb as [Hb | Hb]|];
        [left | right; left | right; right; left]; now apply chr2_In.
    + right. right. right. left. apply chr1_In.
      revert c H. apply implb_reflect. vm_compute. reflexivity.
    + right. right. right. right. left.
      apply (chr2_In (Ascii.eqb " ")). apply andb_true_iff.
      split; [apply Ascii.eqb_refl|].
      revert c H. apply implb_reflect. vm_compute. reflexivity.
Qed.

Lemma numeral_digits (lo hi : Z) (w : string) :
  numeral lo hi w = true ->
  PyStr.truthy w = true /\ all_chars PyStr.isdigit w = true.
Proof.
  unfold numeral. rewrite !andb_true_iff. intros [[[Hl Hd] _] _].
  split; [|assumption]. destruct w; [discriminate | reflexivity].
Qed.

Lemma starts_numeral_app (lo hi : Z) (s r : string) :
  starts_numeral lo hi s r <->
  exists w, s = (w ++ r)%string /\ numeral lo hi w = true.
Proof.
  split.
  - intros [[c1 [c2 [-> H]]] | [c [-> H]]].
    + now exists (String c1 (String c2 "")).
    + now exists (String c "").
  - intros [w [-> H]]. assert (Hl := H). unfold numeral in Hl.
    rewrite !andb_true_iff in Hl. destruct Hl as [[[Hl _] _] _].
    destruct w as [|c1 [|c2 [|c3 w]]]; try discriminate.
    + right. now exists c1.
    + left. now exists c1, c2.
Qed.

Lemma first_digit_of_run (w r : string) :
  PyStr.truthy w = true -> all_chars PyStr.isdigit w = true ->
  first_is PyStr.isdigit (w ++ r) = true.
Proof.
  destruct w as [|c w]; [discriminate|]. unfold all_chars. simpl.
  intros _ H. now apply andb_true_iff in H as [H _].
Qed.

Lemma first_digit_not_space (s : string) :
  first_is PyStr.isdigit s = true -> first_is PyStr.isspace s = false.
Proof. destruct s as [|c s]; simpl; [discriminate | apply digit_not_space]. Qed.

Lemma first_letter_not_space (s : string) :
  starts_with_letter s = true -> first_is PyStr.isspace s = false.
Proof. destruct s as [|c s]; simpl; [discriminate | apply letter_not_space]. Qed.

Lemma first_letter_not_digit (s : string) :
  starts_with_letter s = true -> first_is PyStr.isdigit s = false.
Proof. destruct s as [|c s]; simpl; [discriminate | apply letter_not_digit]. Qed.

Lemma lit_In (c : ascii) (s r : string) : In r (lit c s) <-> s = String c r.
Proof.
  unfold lit. rewrite chr_In. split.
  - intros [x [-> H]]. apply Ascii.eqb_eq in H. now subst.
  - intros ->. exists c. split; [reflexivity | apply Ascii.eqb_refl].
Qed.

(** A number that ends where something other than a digit starts. *)
Lemma numeral_step (lo hi : Z) (s r : string) :
  starts_numeral lo hi s r -> first_is PyStr.isdigit r = false ->
  drop_digits s = r /\ first_is PyStr.isspace s = false.
Proof.
  intros H Hr. apply starts_numeral_app in H as [w [-> H]].
  apply numeral_digits in H as [Ht Hd]. split.
  - now apply drop_digits_run.
  - apply first_digit_not_space. now apply first_digit_of_run.
Qed.

Lemma names_3 :
  forallb (fun w => (String.length w =? 3)%nat && starts_with_letter w)
          a_weekday = true
  /\ forallb (fun w => (String.length w =? 3)%nat && starts_with_letter w)
             (tl a_month) = true
  /\ forallb (fun w => (String.length w =? 2)%nat && starts_with_letter w)
             am_pm = true.
Proof. vm_compute. repeat split; reflexivity. Qed.

(** Every way of matching the format ends at one place. *)
Lemma format_regex_end (s : string) (found : found_dict) (rest : string) :
  In (found, rest) (format_regex s) -> rest = format_end s.
Proof.
  intros H. apply format_regex_chain in H.
  destruct H as [r1 [r2 [r3 [r4 [r5 [r6 [r7 [r8 [r9 [r10 [r11 [r12 H]]]]]]]]]]]].
  destruct H as [H1 [H2 [H3 [H4 [H5 [H6 [H7 [H8 [H9 [H10 [H11 [H12 [H13 _]]]]]]]]]]]]].
  destruct names_3 as [Nw [Nm Np]].
  apply re_Y_In in H1 as [c1 [c2 [c3 [c4 ->]]]].
  destruct (seqToRE_step _ 3 _ _ Nw H3) as [E3 [L2 _]].
  destruct (seqToRE_step _ 3 _ _ Nm H5) as [E5 [L4 _]].
  destruct (seqToRE_step _ 2 _ _ Np H13) as [E13 [L12 _]].
  apply lit_In in H8, H11. subst r7 r10.
  apply re_I_In in H10. apply re_M_In in H12.
  destruct (numeral_step _ _ _ _ H10 eq_refl) as [E10 S9].
  destruct (numeral_step _ _ _ _ H12 (first_letter_not_digit _ L12)) as [E12 _].
  pose proof (spaces_lstrip _ _ H2 (first_letter_not_space _ L2)) as E2.
  pose proof (spaces_lstrip _ _ H4 (first_letter_not_space _ L4)) as E4.
  pose proof (spaces_lstrip _ _ H9 S9) as E9.
  assert (E8 : drop 1 (drop_digits (PyStr.lstrip r5)) = r8).
  { apply re_d_In in H7 as [H7 | [c [-> Hc]]].
    - destruct (numeral_step _ _ _ _ H7 eq_refl) as [E7 S6].
      rewrite <- (spaces_lstrip _ _ H6 S6), E7. reflexivity.
    - unfold spaces in H6. apply plus_In in H6 as [w [-> [_ Hw]]].
      apply numeral_digits in Hc as [_ Hc]. unfold all_chars in Hc.
      simpl in Hc. rewrite andb_true_r in Hc.
      rewrite lstrip_blanks by assumption. simpl.
      rewrite (digit_not_space _ Hc). simpl. rewrite Hc. reflexivity. }
  unfold format_end. cbv zeta. simpl drop at 6.
  rewrite <- E2, <- E3, <- E4, <- E5, E8, <- E9, E10. simpl drop at 2.
  rewrite E12. now symmetry.
Qed.

(** ** The layout and the compiled format *)

Lemma append_nil_r (w : string) : (w ++ "")%string = w.
Proof. induction w as [|c w IH]; simpl; [reflexivity | now rewrite IH]. Qed.

Lemma append_assoc (u v w : string) :
  ((u ++ v) ++ w)%string = (u ++ v ++ w)%string.
Proof. induction u as [|c u IH]; simpl; [reflexivity | now rewrite IH]. Qed.

Lemma spaces_blanks (s r : string) :
  In r (spaces s) <-> exists w, s = (w ++ r)%string /\ blanks w = true.
Proof.
  unfold spaces, blanks. rewrite plus_In. split.
  - intros [w [-> [Ht Ha]]]. exists w. now rewrite Ht, Ha.
  - intros [w [-> H]]. apply andb_true_iff in H as [Ht Ha]. now exists w.
Qed.

Lemma re_Y_digits (s r : string) :
  In r (re_Y s) <->
  exists Y, s = (Y ++ r)%string /\ String.length Y = 4%nat
            /\ all_chars PyStr.isdigit Y = true.
Proof.
  unfold re_Y, digit. cbn [times]. split.
  - intros H.
    apply seq_In in H as [r1 [H1 H]]. apply seq_In in H as [r2 [H2 H]].
    apply seq_In in H as [r3 [H3 H]]. apply seq_In in H as [r4 [H4 [<- | []]]].
    apply chr_In in H1 as [c1 [-> D1]]. apply chr_In in H2 as [c2 [-> D2]].
    apply chr_In in H3 as [c3 [-> D3]]. apply chr_In in H4 as [c4 [-> D4]].
    exists (String c1 (String c2 (String c3 (String c4 "")))).
    unfold all_chars. simpl. now rewrite D1, D2, D3, D4.
  - intros [Y [-> [Hl Hd]]].
    destruct Y as [|c1 [|c2 [|c3 [|c4 [|c5 Y]]]]]; try discriminate.
    unfold all_chars in Hd. simpl in Hd. rewrite !andb_true_iff in Hd.
    destruct Hd as [D1 [D2 [D3 [D4 _]]]]. simpl.
    apply seq_In. eexists. split; [now apply chr1_In|].
    apply seq_In. eexists. split; [now apply chr1_In|].
    apply seq_In. eexists. split; [now apply chr1_In|].
    apply seq_In. eexists. split; [now apply chr1_In|]. now left.
Qed.

Lemma seqToRE_names (names : list string) (s r : string) :
  In r (seqToRE names s) <->
  exists v, s = (v ++ r)%string /\ name_of names v = true.
Proof.
  split.
  - intros H. apply seqToRE_In in H as [v [-> Hv]]. exists v.
    split; [reflexivity | now apply name_of_In].
  - intros [v [-> Hv]]. apply seqToRE_complete. now apply name_of_In.
Qed.

Lemma numeral_1_9 (c : ascii) :
  numeral 1 9 (String c "") = true -> numeral 1 31 (String c "") = true.
Proof. revert c. apply implb_reflect. vm_compute. reflexivity. Qed.

(** A text that some way of matching the format reads to its end has the
    layout. *)
Lemma format_regex_layout (s : string) (found : found_dict) :
  In (found, "") (format_regex s) -> layout s.
Proof.
  intros H. apply format_regex_chain in H.
  destruct H as [r1 [r2 [r3 [r4 [r5 [r6 [r7 [r8 [r9 [r10 [r11 [r12 H]]]]]]]]]]]].
  destruct H as [H1 [H2 [H3 [H4 [H5 [H6 [H7 [H8 [H9 [H10 [H11 [H12 [H13 _]]]]]]]]]]]]].
  apply re_Y_digits in H1 as [Y [-> [HYl HYd]]].
  apply spaces_blanks in H2 as [w1 [-> Hw1]].
  apply seqToRE_names in H3 as [a [-> Ha]].
  apply spaces_blanks in H4 as [w2 [-> Hw2]].
  apply seqToRE_names in H5 as [b [-> Hb]].
  apply spaces_blanks in H6 as [w3 [-> Hw3]].
  apply lit_In in H8, H11. subst r7 r10.
  apply spaces_blanks in H9 as [w4 [-> Hw4]].
  apply re_I_In, starts_numeral_app in H10 as [I [-> HI]].
  apply re_M_In, starts_numeral_app in H12 as [M [-> HM]].
  apply seqToRE_names in H13 as [p [-> Hp]]. rewrite append_nil_r in H7.
  apply re_d_In in H7 as [H7 | [c [-> Hc]]].
  - apply starts_numeral_app in H7 as [d [-> Hd]].
    exists Y, w1, a, w2, b, w3, d, w4, I, M, p. repeat split; assumption.
  - exists Y, w1, a, w2, b, (w3 ++ " ")%string, (String c ""), w4, I, M, p.
    rewrite append_assoc. repeat split; try assumption.
    + unfold blanks in *. apply andb_true_iff in Hw3 as [Ht Hs].
      rewrite all_chars_app, Hs. destruct w3; [discriminate | reflexivity].
    + now apply numeral_1_9.
Qed.

(** A text that has the layout can be matched to its end. *)
Lemma layout_format_regex (s : string) :
  layout s -> exists found, In (found, "") (format_regex s).
Proof.
  intros [Y [w1 [a [w2 [b [w3 [d [w4 [I [M [p H]]]]]]]]]]].
  destruct H as [-> [HYl [HYd [Hw1 [Ha [Hw2 [Hb [Hw3 [Hd [Hw4 [HI [HM Hp]]]]]]]]]]]].
  eexists. apply format_regex_chain.
  do 12 eexists.
  split; [apply re_Y_digits; exists Y; repeat split; eassumption|].
  split; [apply spaces_blanks; exists w1; split; [reflexivity | assumption]|].
  split; [apply seqToRE_names; exists a; split; [reflexivity | assumption]|].
  split; [apply spaces_blanks; exists w2; split; [reflexivity | assumption]|].
  split; [apply seqToRE_names; exists b; split; [reflexivity | assumption]|].
  split; [apply spaces_blanks; exists w3; split; [reflexivity | assumption]|].
  split; [apply re_d_In; left; apply starts_numeral_app; exists d;
          split; [reflexivity | assumption]|].
  split; [apply lit_In; reflexivity|].
  split; [apply spaces_blanks; exists w4; split; [reflexivity | assumption]|].
  split; [apply re_I_In, starts_numeral_app; exists I;
          split; [reflexivity | assumption]|].
  split; [apply lit_In; reflexivity|].
  split; [apply re_M_In, starts_numeral_app; exists M;
          split; [reflexivity | assumption]|].
  split; [apply seqToRE_names; exists p; split;
          [now rewrite append_nil_r | assumption]|].
  reflexivity.
Qed.

(** The format matches a text exactly when the text has the layout. *)
Lemma match_format_layout (s : string) :
  (exists found, match_format s = Some found) <-> layout s.
Proof.
  split.
  - intros [found H]. apply match_format_In in H.
    now apply format_regex_layout in H.
  - intros H. apply layout_format_regex in H as [found H].
    pose proof (format_regex_end _ _ _ H) as Hend.
    unfold match_format.
    destruct (format_regex s) as [|[f rest] l] eqn:E; [contradiction|].
    assert (Hr : rest = format_end s).
    { apply (format_regex_end s f rest). rewrite E. now left. }
    rewrite <- Hend in Hr. subst rest. now exists f.
Qed.



(** ** Vehicle *)




























(** ** What a text of the layout says *)

Lemma layout_reads (s : string) :
  layout s <-> exists mo d h mi pm, reads s mo d h mi pm.
Proof.
  split.
  - intros [Y [w1 [a [w2 [b [w3 [dt [w4 [I [M [p H]]]]]]]]]]].
    do 5 eexists. exists Y, w1, a, w2, b, w3, dt, w4, I, M, p.
    repeat split; try apply H; reflexivity.
  - intros [mo [d [h [mi [pm [Y [w1 [a [w2 [b [w3 [dt [w4 [I [M [p H]]]]]]]]]]]]]]]].
    exists Y, w1, a, w2, b, w3, dt, w4, I, M, p.
    repeat split; apply H.
Qed.

Lemma take_digits_run (w r : string) :
  all_chars PyStr.isdigit w = true -> first_is PyStr.isdigit r = false ->
  take_digits (w ++ r) = w.
Proof.
  unfold all_chars. induction w as [|c w IH]; intros Hw Hr.
  - destruct r as [|c r]; [reflexivity|].
    cbn [first_is] in Hr. cbn [append take_digits]. now rewrite Hr.
  - cbn [list_ascii_of_string forallb] in Hw.
    apply andb_true_iff in Hw as [Hc Hw].
    cbn [append take_digits]. now rewrite Hc, IH.
Qed.

Lemma lower_char_twice (c : ascii) :
  PyStr.lower_char (PyStr.lower_char c) = PyStr.lower_char c.
Proof. destruct c as [[] [] [] [] [] [] [] []]; reflexivity. Qed.

Lemma name_length (names : list string) (n : nat) (w : string) :
  forallb (fun v => (String.length v =? n)%nat && starts_with_letter v) names = true ->
  name_of names w = true ->
  String.length w = n /\ forall r, starts_with_letter (w ++ r) = true.
Proof.
  intros Hn Hw. apply name_of_In in Hw. rewrite forallb_forall in Hn.
  apply Hn in Hw. apply andb_true_iff in Hw as [Hl Hs].
  apply Nat.eqb_eq in Hl. rewrite lower_length in Hl. split; [exact Hl|].
  intro r. destruct w as [|c w]; [discriminate|].
  unfold starts_with_letter in *. cbn [PyStr.lower append first_is] in *.
  now rewrite lower_char_twice in Hs.
Qed.

Lemma blanks_lstrip (w r : string) :
  blanks w = true -> first_is PyStr.isspace r = false ->
  PyStr.lstrip (w ++ r) = r.
Proof.
  intros Hw Hr. unfold blanks in Hw. apply andb_true_iff in Hw as [_ Hw].
  rewrite lstrip_blanks by exact Hw. now apply lstrip_first.
Qed.

Lemma numeral_first_digit (lo hi : Z) (w r : string) :
  numeral lo hi w = true -> first_is PyStr.isdigit (w ++ r) = true.
Proof.
  intro H. apply numeral_digits in H as [Ht Hd].
  now apply first_digit_of_run.
Qed.

Lemma substring_3 (w r : string) :
  String.length w = 3%nat -> substring 0 3 (w ++ r) = w.
Proof. intro H. rewrite <- H. apply substring_prefix. Qed.

Lemma drop_n (n : nat) (w r : string) :
  String.length w = n -> drop n (w ++ r) = r.
Proof. intros <-. apply drop_app. Qed.

(** The fields of a text of the layout are where going over the text
    from the left finds them. *)
Lemma reads_texts (Y w1 a w2 b w3 dt w4 I M p : string) :
  String.length Y = 4%nat ->
  blanks w1 = true -> name_of a_weekday a = true ->
  blanks w2 = true -> name_of (tl a_month) b = true ->
  blanks w3 = true -> numeral 1 31 dt = true ->
  blanks w4 = true -> numeral 1 12 I = true ->
  numeral 0 59 M = true -> name_of am_pm p = true ->
  let s := (Y ++ w1 ++ a ++ w2 ++ b ++ w3 ++ dt ++ "," ++ w4 ++ I ++ ":" ++ M ++ p)%string in
  month_text s = b /\ day_text s = dt /\ hour_text s = I
  /\ minute_text s = M /\ meridiem_text s = p.
Proof.
  intros HY Hw1 Ha Hw2 Hb Hw3 Hd Hw4 HI HM Hp s.
  destruct names_3 as [Nw [Nm Np]].
  destruct (name_length _ _ _ Nw Ha) as [La Sa].
  destruct (name_length _ _ _ Nm Hb) as [Lb Sb].
  destruct (name_length _ _ _ Np Hp) as [Lp Sp].
  pose proof (numeral_digits _ _ _ Hd) as [_ Dd].
  pose proof (numeral_digits _ _ _ HI) as [_ DI].
  pose proof (numeral_digits _ _ _ HM) as [_ DM].
  assert (E1 : at_weekday s
               = (a ++ w2 ++ b ++ w3 ++ dt ++ "," ++ w4 ++ I ++ ":" ++ M ++ p)%string).
  { unfold at_weekday, s. rewrite (drop_n 4) by exact HY.
    apply blanks_lstrip; [exact Hw1|]. apply first_letter_not_space, Sa. }
  assert (E2 : at_month s
               = (b ++ w3 ++ dt ++ "," ++ w4 ++ I ++ ":" ++ M ++ p)%string).
  { unfold at_month. rewrite E1, (drop_n 3) by exact La.
    apply blanks_lstrip; [exact Hw2|]. apply first_letter_not_space, Sb. }
  assert (E3 : at_day s = (dt ++ "," ++ w4 ++ I ++ ":" ++ M ++ p)%string).
  { unfold at_day. rewrite E2, (drop_n 3) by exact Lb.
    apply blanks_lstrip; [exact Hw3|].
    apply first_digit_not_space. eapply numeral_first_digit. exact Hd. }
  assert (E4 : at_hour s = (I ++ ":" ++ M ++ p)%string).
  { unfold at_hour. rewrite E3, drop_digits_run by (exact Dd || reflexivity).
    cbn [append drop].
    apply blanks_lstrip; [exact Hw4|].
    apply first_digit_not_space. eapply numeral_first_digit. exact HI. }
  assert (E5 : at_minute s = (M ++ p)%string).
  { unfold at_minute. rewrite E4, drop_digits_run by (exact DI || reflexivity).
    reflexivity. }
  assert (Fp : first_is PyStr.isdigit p = false).
  { apply first_letter_not_digit. rewrite <- (append_nil_r p). apply Sp. }
  unfold month_text, day_text, hour_text, minute_text, meridiem_text.
  rewrite E2, E3, E4, E5.
  rewrite substring_3 by exact Lb.
  rewrite !take_digits_run by (assumption || reflexivity).
  rewrite drop_digits_run by assumption. auto.
Qed.

(** A text of the layout says one thing only. *)
Lemma reads_unique (s : string) (mo d h mi : Z) (pm : bool)
    (mo' d' h' mi' : Z) (pm' : bool) :
  reads s mo d h mi pm -> reads s mo' d' h' mi' pm' ->
  mo = mo' /\ d = d' /\ h = h' /\ mi = mi' /\ pm = pm'.
Proof.
  intros [Y [w1 [a [w2 [b [w3 [dt [w4 [I [M [p H]]]]]]]]]]]
         [Y' [w1' [a' [w2' [b' [w3' [dt' [w4' [I' [M' [p' H']]]]]]]]]]].
  destruct H as [E [HY [_ [Hw1 [Ha [Hw2 [Hb [Hw3 [Hd [Hw4 [HI [HM [Hp H]]]]]]]]]]]]].
  destruct H' as [E' [HY' [_ [Hw1' [Ha' [Hw2' [Hb' [Hw3' [Hd' [Hw4' [HI' [HM' [Hp' H']]]]]]]]]]]]].
  destruct (reads_texts Y w1 a w2 b w3 dt w4 I M p) as [T1 [T2 [T3 [T4 T5]]]];
    try assumption.
  destruct (reads_texts Y' w1' a' w2' b' w3' dt' w4' I' M' p')
    as [T1' [T2' [T3' [T4' T5']]]]; try assumption.
  rewrite <- E in T1, T2, T3, T4, T5. rewrite <- E' in T1', T2', T3', T4', T5'.
  destruct H as [-> [-> [-> [-> ->]]]]. destruct H' as [-> [-> [-> [-> ->]]]].
  rewrite <- T1, <- T2, <- T3, <- T4, <- T5.
  rewrite <- T1', <- T2', <- T3', <- T4', <- T5'. auto.
Qed.

Lemma int_digit_ok (c : ascii) : int_digit_okb c = true.
Proof. apply (ascii_reflect int_digit_okb). vm_compute. reflexivity. Qed.

Lemma int_digits_ok (c1 c2 : ascii) : int_digits_okb c1 c2 = true.
Proof. apply (ascii2_reflect int_digits_okb). vm_compute. reflexivity. Qed.

(** [int] reads a numeral of the layout as the number it writes. *)
Lemma int_group_numeral (lo hi : Z) (w : string) :
  numeral lo hi w = true -> int_group w = decimal 0 w.
Proof.
  unfold numeral, all_chars. intro H.
  apply andb_true_iff in H as [H _]. apply andb_true_iff in H as [H _].
  apply andb_true_iff in H as [Hl Hd].
  destruct w as [|c1 [|c2 [|c3 w]]]; try discriminate.
  - cbn [list_ascii_of_string forallb] in Hd. rewrite andb_true_r in Hd.
    pose proof (int_digit_ok c1) as Hc. unfold int_digit_okb in Hc.
    rewrite Hd in Hc. cbn [implb] in Hc.
    apply andb_true_iff in Hc as [Hc _]. now apply Z.eqb_eq.
  - cbn [list_ascii_of_string forallb] in Hd. rewrite andb_true_r in Hd.
    pose proof (int_digits_ok c1 c2) as Hc. unfold int_digits_okb in Hc.
    rewrite Hd in Hc. cbn [implb] in Hc. now apply Z.eqb_eq.
Qed.

Lemma int_group_blank_digit (c : ascii) :
  numeral 1 9 (String c "") = true ->
  int_group (String " " (String c "")) = decimal 0 (String c "").
Proof.
  intro H. apply numeral_digits in H as [_ Hd]. unfold all_chars in Hd.
  cbn [list_ascii_of_string forallb] in Hd. rewrite andb_true_r in Hd.
  pose proof (int_digit_ok c) as Hc. unfold int_digit_okb in Hc.
  rewrite Hd in Hc. cbn [implb] in Hc.
  apply andb_true_iff in Hc as [_ Hc]. now apply Z.eqb_eq.
Qed.

Lemma month_of_number (b : string) :
  name_of (tl a_month) b = true ->
  index (PyStr.lower b) a_month = month_number b.
Proof.
  intro H. apply name_of_In in H. unfold month_number. cbv zeta.
  cbn [tl a_month In] in H.
  repeat (destruct H as [<-|H]; [reflexivity|]). contradiction.
Qed.

Lemma numeral_range (lo hi : Z) (w : string) :
  numeral lo hi w = true -> lo <= decimal 0 w <= hi.
Proof.
  unfold numeral. intro H. apply andb_true_iff in H as [H H2].
  apply andb_true_iff in H as [_ H1]. apply Z.leb_le in H1, H2. lia.
Qed.

Lemma hour_of_clock24 (I p : string) :
  numeral 1 12 I = true -> name_of am_pm p = true ->
  hour_of I p = clock24 (decimal 0 I) (is_pm p).
Proof.
  intros HI Hp. pose proof (numeral_range _ _ _ HI) as Hr.
  unfold hour_of, clock24, is_pm. cbv zeta.
  rewrite (int_group_numeral _ _ _ HI).
  apply name_of_In in Hp. cbn [am_pm In] in Hp.
  destruct Hp as [<-|[<-|[]]]; cbn [String.eqb Ascii.eqb Bool.eqb orb negb].
  - destruct (Z.eqb_spec (decimal 0 I) 12) as [->|Hn]; [reflexivity|].
    rewrite Z.mod_small by lia. lia.
  - destruct (Z.eqb_spec (decimal 0 I) 12) as [->|Hn]; [reflexivity|].
    cbn [negb]. rewrite Z.mod_small by lia. lia.
Qed.

(** A match of the format to the end of a text says what the text says:
    the fields of the match are the fields of the layout. *)
Lemma format_regex_reads (s : string) (found : found_dict) :
  In (found, "") (format_regex s) ->
  reads s (month_of found) (day_of found) (decimal 0 (g_I found))
        (minute_of found) (is_pm (g_p found))
  /\ hour_of (g_I found) (g_p found)
     = clock24 (decimal 0 (g_I found)) (is_pm (g_p found)).
Proof.
  intros H. apply format_regex_chain in H.
  destruct H as [r1 [r2 [r3 [r4 [r5 [r6 [r7 [r8 [r9 [r10 [r11 [r12 H]]]]]]]]]]]].
  destruct H as [H1 [H2 [H3 [H4 [H5 [H6 [H7 [H8 [H9 [H10 [H11 [H12 [H13 Hf]]]]]]]]]]]]].
  apply re_Y_digits in H1 as [Y [-> [HYl HYd]]].
  apply spaces_blanks in H2 as [w1 [-> Hw1]].
  apply seqToRE_names in H3 as [a [-> Ha]].
  apply spaces_blanks in H4 as [w2 [-> Hw2]].
  apply seqToRE_names in H5 as [b [-> Hb]].
  apply spaces_blanks in H6 as [w3 [-> Hw3]].
  apply lit_In in H8, H11. subst r7 r10.
  apply spaces_blanks in H9 as [w4 [-> Hw4]].
  apply re_I_In, starts_numeral_app in H10 as [I [-> HI]].
  apply re_M_In, starts_numeral_app in H12 as [M [-> HM]].
  apply seqToRE_names in H13 as [p [-> Hp]].
  rewrite !matched_app in Hf.
  rewrite append_nil_r in H7. rewrite ?append_nil_r in Hf.
  apply re_d_In in H7 as [H7 | [c [-> Hc]]].
  - apply starts_numeral_app in H7 as [dt [-> Hd]].
    rewrite matched_app in Hf. subst found.
    unfold month_of, day_of, minute_of. cbn [g_b g_d g_I g_M g_p].
    split; [|now apply hour_of_clock24].
    exists Y, w1, a, w2, b, w3, dt, w4, I, M, p.
    rewrite (int_group_numeral _ _ _ Hd), (int_group_numeral _ _ _ HM).
    repeat split; try assumption. now apply month_of_number.
  - assert (Em : forall r, matched (String " " (String c r)) r
                           = String " " (String c "")) by apply matched_2.
    rewrite Em in Hf. subst found.
    unfold month_of, day_of, minute_of. cbn [g_b g_d g_I g_M g_p].
    split; [|now apply hour_of_clock24].
    exists Y, w1, a, w2, b, (w3 ++ " ")%string, (String c ""), w4, I, M, p.
    rewrite (int_group_blank_digit _ Hc), (int_group_numeral _ _ _ HM).
    rewrite append_assoc. repeat split; try assumption.
    + unfold blanks in *. apply andb_true_iff in Hw3 as [Ht Hs].
      rewrite all_chars_app, Hs. destruct w3; [discriminate | reflexivity].
    + now apply numeral_1_9.
    + now apply month_of_number.
Qed.

(** The match of the format and what the text says. *)
Lemma match_format_reads (s : string) (mo d h mi : Z) (pm : bool) :
  reads s mo d h mi pm <->
  exists found, match_format s = Some found
                /\ month_of found = mo /\ day_of found = d
                /\ decimal 0 (g_I found) = h /\ minute_of found = mi
                /\ is_pm (g_p found) = pm.
Proof.
  split.
  - intro H.
    assert (Hl : layout s) by (apply layout_reads; eauto 6).
    apply match_format_layout in Hl as [found Hm].
    pose proof (match_format_In _ _ Hm) as Hin.
    apply format_regex_reads in Hin as [Hr _].
    destruct (reads_unique _ _ _ _ _ _ _ _ _ _ _ Hr H) as [E1 [E2 [E3 [E4 E5]]]].
    exists found. auto 6.
  - intros [found [Hm [<- [<- [<- [<- <-]]]]]].
    apply match_format_In in Hm. now apply format_regex_reads in Hm.
Qed.

Lemma match_format_hour (s : string) (found : found_dict) :
  match_format s = Some found ->
  hour_of (g_I found) (g_p found)
  = clock24 (decimal 0 (g_I found)) (is_pm (g_p found)).
Proof.
  intro H. apply match_format_In in H. now apply format_regex_reads in H.
Qed.

(** What [strptime] makes of a text with the current year in front, by
    what the text says. *)
Lemma strptime_reads (now : Z) (date_str : string) (mo d h mi : Z) (pm : bool) :
  2007 <= now <= 2037 ->
  reads (date_with_year now date_str) mo d h mi pm ->
  strptime (date_with_year now date_str)
  = if d <=? Calendar.days_in_month now mo
    then Ok (mkdatetime now mo d (clock24 h pm) mi None)
    else Raise ValueError.
Proof.
  intros Hn H. apply match_format_reads in H as [found [Hm H]].
  rewrite strptime_cases by exact Hn. rewrite Hm.
  rewrite (match_format_hour _ _ Hm).
  destruct H as [-> [-> [-> [-> ->]]]]. reflexivity.
Qed.

(** A text that [strptime] accepts with the current year in front says
    the date and time [strptime] returns. *)
Lemma strptime_Ok_reads (now : Z) (date_str : string) (naive : datetime) :
  2007 <= now <= 2037 ->
  strptime (date_with_year now date_str) = Ok naive ->
  exists mo d h mi pm,
    reads (date_with_year now date_str) mo d h mi pm
    /\ d <= Calendar.days_in_month now mo
    /\ naive = mkdatetime now mo d (clock24 h pm) mi None.
Proof.
  intros Hn H. rewrite strptime_cases in H by exact Hn.
  destruct (match_format (date_with_year now date_str)) as [found|] eqn:Hm;
    [|discriminate].
  destruct (Z.leb_spec (day_of found) (Calendar.days_in_month now (month_of found)))
    as [Hd|Hd]; [|discriminate].
  injection H as <-.
  exists (month_of found), (day_of found), (decimal 0 (g_I found)),
    (minute_of found), (is_pm (g_p found)).
  split; [|split; [exact Hd|]].
  - apply match_format_reads. exists found. auto 6.
  - now rewrite (match_format_hour _ _ Hm).
Qed.

(** ** Texts written in the layout of the source *)

Lemma replace_from_step (c1 c2 a : ascii) (new r : string) :
  Ascii.eqb a c1 && first_is (Ascii.eqb c2) r = false ->
  PyStr.replace_from (String c1 (String c2 "")) new 0 (String a r)
  = String a (PyStr.replace_from (String c1 (String c2 "")) new 0 r).
Proof.
  intro H. cbn [PyStr.replace_from PyStr.strip_prefix].
  rewrite (Ascii.eqb_sym c1 a).
  destruct (Ascii.eqb a c1); [|reflexivity].
  destruct r as [|b r]; [reflexivity|].
  cbn [andb first_is] in H. now rewrite H.
Qed.

(** A stretch of text without the pair is left as it is. *)
Lemma replace_from_prefix (c1 c2 : ascii) (new u T : string) :
  pair_free c1 c2 u = true ->
  first_is (Ascii.eqb c2) T = false ->
  PyStr.replace_from (String c1 (String c2 "")) new 0 (u ++ T)
  = (u ++ PyStr.replace_from (String c1 (String c2 "")) new 0 T)%string.
Proof.
  intros Hu HT. induction u as [|a u IH]; [reflexivity|].
  cbn [pair_free] in Hu. apply andb_true_iff in Hu as [Ha Hu].
  cbn [append]. rewrite replace_from_step.
  - now rewrite IH.
  - apply negb_true_iff in Ha. destruct u as [|b u]; [|exact Ha].
    cbn [append]. rewrite HT. apply andb_false_r.
Qed.

Lemma pair_free_app (c1 c2 : ascii) (u v : string) :
  pair_free c1 c2 u = true -> pair_free c1 c2 v = true ->
  first_is (Ascii.eqb c2) v = false ->
  pair_free c1 c2 (u ++ v) = true.
Proof.
  intros Hu Hv Hf. induction u as [|a u IH]; [exact Hv|].
  cbn [pair_free] in Hu. apply andb_true_iff in Hu as [Ha Hu].
  cbn [append pair_free]. rewrite IH by exact Hu. rewrite andb_true_r.
  destruct u as [|b u]; [|exact Ha].
  cbn [append]. rewrite Hf. now rewrite andb_false_r.
Qed.

(** After a blank any text may follow. *)
Lemma pair_free_blank (c1 c2 : ascii) (v : string) :
  Ascii.eqb " " c1 = false -> pair_free c1 c2 v = true ->
  pair_free c1 c2 (String " " v) = true.
Proof. intros H Hv. cbn [pair_free]. now rewrite H, Hv. Qed.

Lemma pair_free_lower (c1 c2 : ascii) (s : string) :
  small c1 = true -> small c2 = true ->
  pair_free c1 c2 (PyStr.lower s) = true -> pair_free c1 c2 s = true.
Proof.
  unfold small. intros H1 H2. apply Ascii.eqb_eq in H1, H2.
  induction s as [|a s IH]; [reflexivity|].
  cbn [PyStr.lower pair_free]. intro H. apply andb_true_iff in H as [Ha Hs].
  rewrite (IH Hs), andb_true_r.
  destruct (Ascii.eqb_spec a c1) as [->|Hn]; [|reflexivity].
  rewrite H1, Ascii.eqb_refl in Ha. cbn [andb] in Ha |- *.
  destruct s as [|b s]; [reflexivity|]. cbn [PyStr.lower first_is] in Ha |- *.
  destruct (Ascii.eqb_spec c2 b) as [<-|Hb]; [|reflexivity].
  now rewrite H2, Ascii.eqb_refl in Ha.
Qed.

Lemma pair_free_digits (c1 c2 : ascii) (w : string) :
  PyStr.isdigit c1 = false ->
  all_chars PyStr.isdigit w = true -> pair_free c1 c2 w = true.
Proof.
  intros H1. unfold all_chars. induction w as [|a w IH]; [reflexivity|].
  cbn [list_ascii_of_string forallb pair_free]. intro H.
  apply andb_true_iff in H as [Ha Hw]. rewrite (IH Hw), andb_true_r.
  destruct (Ascii.eqb_spec a c1) as [->|Hn]; [congruence|reflexivity].
Qed.

Lemma name_meridiem_free (names : list string) (w : string) :
  forallb meridiem_free names = true -> name_of names w = true ->
  pair_free "a" "m" w = true /\ pair_free "p" "m" w = true.
Proof.
  intros Hn Hw. apply name_of_In in Hw. rewrite forallb_forall in Hn.
  apply Hn in Hw. unfold meridiem_free in Hw.
  apply andb_true_iff in Hw as [Ha Hp].
  split; apply pair_free_lower; auto.
Qed.

Lemma first_digit_not (c : ascii) (w r : string) :
  PyStr.isdigit c = false -> PyStr.truthy w = true ->
  all_chars PyStr.isdigit w = true ->
  first_is (Ascii.eqb c) (w ++ r) = false.
Proof.
  intros Hc Ht Hw. destruct w as [|a w]; [discriminate|].
  unfold all_chars in Hw. cbn [list_ascii_of_string forallb] in Hw.
  apply andb_true_iff in Hw as [Ha _]. cbn [append first_is].
  destruct (Ascii.eqb_spec c a) as [->|Hn]; [congruence|reflexivity].
Qed.

Lemma length_2_truthy (w : string) : String.length w = 2%nat -> PyStr.truthy w = true.
Proof. destruct w; [discriminate|reflexivity]. Qed.

(** The date up to its meridiem holds no "am" and no "pm". *)
Lemma body_pair_free (c1 : ascii) (a b dd I MM : string) :
  c1 = "a"%char \/ c1 = "p"%char ->
  name_of a_weekday a = true -> name_of (tl a_month) b = true ->
  String.length dd = 2%nat -> all_chars PyStr.isdigit dd = true ->
  numeral 1 12 I = true ->
  String.length MM = 2%nat -> all_chars PyStr.isdigit MM = true ->
  pair_free c1 "m" (a ++ " " ++ b ++ " " ++ dd ++ ", " ++ I ++ ":" ++ MM) = true.
Proof.
  intros Hc Ha Hb Ld Dd HI LM DM.
  assert (Na : forallb meridiem_free a_weekday = true) by reflexivity.
  assert (Nb : forallb meridiem_free (tl a_month) = true) by reflexivity.
  destruct (name_meridiem_free _ _ Na Ha) as [Pa1 Pa2].
  destruct (name_meridiem_free _ _ Nb Hb) as [Pb1 Pb2].
  destruct (numeral_digits _ _ _ HI) as [TI DI].
  assert (Hd : PyStr.isdigit c1 = false) by (destruct Hc; subst; reflexivity).
  assert (Hs : Ascii.eqb " " c1 = false) by (destruct Hc; subst; reflexivity).
  assert (Pa : pair_free c1 "m" a = true) by (destruct Hc; subst; assumption).
  assert (Pb : pair_free c1 "m" b = true) by (destruct Hc; subst; assumption).
  assert (Hm : PyStr.isdigit "m" = false) by reflexivity.
  apply pair_free_app; [exact Pa| |reflexivity].
  apply pair_free_blank; [exact Hs|].
  apply pair_free_app; [exact Pb| |reflexivity].
  apply pair_free_blank; [exact Hs|].
  apply pair_free_app;
    [now apply pair_free_digits| |reflexivity].
  change (", " ++ I ++ ":" ++ MM)%string
    with (String "," (String " " (I ++ ":" ++ MM)))%string.
  cbn [pair_free first_is].
  replace (Ascii.eqb "," c1) with false by (destruct Hc; subst; reflexivity).
  rewrite Hs. cbn [andb negb].
  apply pair_free_app; [now apply pair_free_digits| |reflexivity].
  change (":" ++ MM)%string with (String ":" MM).
  cbn [pair_free].
  replace (Ascii.eqb ":" c1) with false by (destruct Hc; subst; reflexivity).
  cbn [andb negb]. now apply pair_free_digits.
Qed.

(** The first step of [parse_auction_date] on a date of the layout: the
    meridiem is put in capitals and nothing else of the date changes. *)
Lemma replace_written (a b dd I MM p rest : string) :
  name_of a_weekday a = true -> name_of (tl a_month) b = true ->
  String.length dd = 2%nat -> all_chars PyStr.isdigit dd = true ->
  numeral 1 12 I = true ->
  String.length MM = 2%nat -> all_chars PyStr.isdigit MM = true ->
  In p ["AM"; "PM"; "am"; "pm"] ->
  PyStr.replace "pm" "PM"
    (PyStr.replace "am" "AM"
       ((a ++ " " ++ b ++ " " ++ dd ++ ", " ++ I ++ ":" ++ MM) ++ p ++ rest))
  = ((a ++ " " ++ b ++ " " ++ dd ++ ", " ++ I ++ ":" ++ MM)
     ++ meridiem_capitals p
     ++ PyStr.replace "pm" "PM" (PyStr.replace "am" "AM" rest))%string.
Proof.
  intros Ha Hb Ld Dd HI LM DM Hp.
  pose proof (body_pair_free "a" a b dd I MM (or_introl eq_refl)
                Ha Hb Ld Dd HI LM DM) as Fa.
  pose proof (body_pair_free "p" a b dd I MM (or_intror eq_refl)
                Ha Hb Ld Dd HI LM DM) as Fp.
  set (body := (a ++ " " ++ b ++ " " ++ dd ++ ", " ++ I ++ ":" ++ MM)%string) in *.
  unfold PyStr.replace.
  cbn [In] in Hp. destruct Hp as [<-|[<-|[<-|[<-|[]]]]].
  - rewrite (replace_from_prefix "a" "m" "AM" body) by (exact Fa || reflexivity).
    cbn [append]. rewrite !replace_from_step by reflexivity.
    rewrite (replace_from_prefix "p" "m" "PM" body) by (exact Fp || reflexivity).
    rewrite !replace_from_step by reflexivity. reflexivity.
  - rewrite (replace_from_prefix "a" "m" "AM" body) by (exact Fa || reflexivity).
    cbn [append]. rewrite !replace_from_step by reflexivity.
    rewrite (replace_from_prefix "p" "m" "PM" body) by (exact Fp || reflexivity).
    rewrite !replace_from_step by reflexivity. reflexivity.
  - rewrite (replace_from_prefix "a" "m" "AM" body) by (exact Fa || reflexivity).
    cbn [append PyStr.replace_from PyStr.strip_prefix Ascii.eqb Bool.eqb
         String.length Nat.sub].
    rewrite (replace_from_prefix "p" "m" "PM" body) by (exact Fp || reflexivity).
    rewrite !replace_from_step by reflexivity. reflexivity.
  - rewrite (replace_from_prefix "a" "m" "AM" body) by (exact Fa || reflexivity).
    cbn [append]. rewrite !replace_from_step by reflexivity.
    rewrite (replace_from_prefix "p" "m" "PM" body) by (exact Fp || reflexivity).
    cbn [append PyStr.replace_from PyStr.strip_prefix Ascii.eqb Bool.eqb
         String.length Nat.sub].
    reflexivity.
Qed.

(** *** The pattern on a date of the layout *)

Lemma flat_map_nil {A B : Type} (l : list A) :
  flat_map (fun _ : A => @nil B) l = [].
Proof. induction l; simpl; auto. Qed.

Lemma seq_assoc (m1 m2 m3 : matcher) (s : string) :
  seq (seq m1 m2) m3 s = seq m1 (seq m2 m3) s.
Proof.
  unfold seq. induction (m1 s) as [|r l IH]; simpl; [reflexivity|].
  now rewrite flat_map_app, IH.
Qed.

Lemma seq_eps (m : matcher) (s : string) : seq eps m s = m s.
Proof. unfold seq, eps. simpl. apply app_nil_r. Qed.

Lemma seq_chr_cons (p : ascii -> bool) (m : matcher) (c : ascii) (r : string) :
  seq (chr p) m (String c r) = if p c then m r else [].
Proof.
  unfold seq, chr. destruct (p c); simpl; [apply app_nil_r|reflexivity].
Qed.

Lemma seq_alt (m1 m2 m : matcher) (s : string) :
  seq (alt m1 m2) m s = seq m1 m s ++ seq m2 m s.
Proof. unfold seq, alt. apply flat_map_app. Qed.

Lemma seq_lit (c : ascii) (m : matcher) (r : string) :
  seq (lit c) m (String c r) = m r.
Proof. unfold lit. rewrite seq_chr_cons. now rewrite Ascii.eqb_refl. Qed.

Lemma seq_lit_other (c a : ascii) (m : matcher) (r : string) :
  Ascii.eqb c a = false -> seq (lit c) m (String a r) = [].
Proof. intro H. unfold lit. rewrite seq_chr_cons. now rewrite H. Qed.

(** A run of [n] characters of a class is taken by [n] times the class. *)
Lemma seq_times (p : ascii -> bool) (m : matcher) (w r : string) :
  all_chars p w = true ->
  seq (times (String.length w) (chr p)) m (w ++ r)%string = m r.
Proof.
  unfold all_chars. induction w as [|c w IH]; intro H.
  - cbn [String.length times append]. apply seq_eps.
  - cbn [list_ascii_of_string forallb] in H. apply andb_true_iff in H as [Hc Hw].
    cbn [String.length times append].
    rewrite seq_assoc, seq_chr_cons, Hc. now apply IH.
Qed.

Lemma seq_times_2_short (p : ascii -> bool) (m : matcher) (c1 c2 : ascii)
    (r : string) :
  p c2 = false -> seq (times 2 (chr p)) m (String c1 (String c2 r)) = [].
Proof.
  intro H. cbn [times]. rewrite seq_assoc, seq_chr_cons.
  destruct (p c1); [|reflexivity].
  now rewrite seq_assoc, seq_chr_cons, H.
Qed.

Lemma letter_of_small (c : ascii) :
  PyStr.islower_ascii (PyStr.lower_char c) = true -> PyStr.isalpha_ascii c = true.
Proof. destruct c as [[] [] [] [] [] [] [] []]; vm_compute; congruence. Qed.

Lemma lower_letters (w : string) :
  all_chars PyStr.islower_ascii (PyStr.lower w) = true ->
  all_chars PyStr.isalpha_ascii w = true.
Proof.
  unfold all_chars. induction w as [|c w IH]; [reflexivity|].
  cbn [PyStr.lower list_ascii_of_string forallb]. intro H.
  apply andb_true_iff in H as [Hc Hw].
  now rewrite (letter_of_small _ Hc), IH.
Qed.

(** A name of three letters. *)
Lemma name_letters (names : list string) (w : string) :
  forallb (fun n => (String.length n =? 3)%nat && all_chars PyStr.islower_ascii n)
          names = true ->
  name_of names w = true ->
  String.length w = 3%nat /\ all_chars PyStr.isalpha_ascii w = true.
Proof.
  intros Hn Hw. apply name_of_In in Hw. rewrite forallb_forall in Hn.
  apply Hn in Hw. apply andb_true_iff in Hw as [Hl Hs].
  apply Nat.eqb_eq in Hl. rewrite lower_length in Hl.
  split; [exact Hl | now apply lower_letters].
Qed.

Lemma digit_not_colon (c : ascii) :
  PyStr.isdigit c = true -> Ascii.eqb ":" c = false.
Proof. destruct c as [[] [] [] [] [] [] [] []]; vm_compute; congruence. Qed.

(** The pattern matches a date of the layout from its start to its
    meridiem, in one way only. *)
Lemma date_pattern_written (a b dd I MM P X : string) :
  name_of a_weekday a = true -> name_of (tl a_month) b = true ->
  String.length dd = 2%nat -> all_chars PyStr.isdigit dd = true ->
  numeral 1 12 I = true ->
  String.length MM = 2%nat -> all_chars PyStr.isdigit MM = true ->
  P = "AM" \/ P = "PM" ->
  date_pattern
    ((a ++ " " ++ b ++ " " ++ dd ++ ", " ++ I ++ ":" ++ MM) ++ P ++ X)%string
  = [X].
Proof.
  intros Ha Hb Ld Dd HI LM DM HP.
  assert (Nw : forallb (fun n => (String.length n =? 3)%nat
                                 && all_chars PyStr.islower_ascii n)
                       a_weekday = true) by reflexivity.
  assert (Nm : forallb (fun n => (String.length n =? 3)%nat
                                 && all_chars PyStr.islower_ascii n)
                       (tl a_month) = true) by reflexivity.
  destruct (name_letters _ _ Nw Ha) as [La Aa].
  destruct (name_letters _ _ Nm Hb) as [Lb Ab].
  unfold date_pattern, seqs, DataProcessor.alpha, DataProcessor.digit,
    DataProcessor.APM. cbn [fold_right].
  rewrite !append_assoc.
  rewrite <- La at 1. rewrite seq_times by exact Aa.
  cbn [append]. rewrite seq_lit.
  rewrite <- Lb at 1. rewrite seq_times by exact Ab.
  cbn [append]. rewrite seq_lit.
  rewrite <- Ld at 1. rewrite seq_times by exact Dd.
  cbn [append]. rewrite !seq_lit.
  rewrite seq_alt.
  assert (Hend : forall Z,
            seq (times 2 (chr PyStr.isdigit))
                (seq (times 2 (chr (fun c => Ascii.eqb c "A" || Ascii.eqb c "P"
                                             || Ascii.eqb c "M")))
                     eps)
                (MM ++ P ++ Z)%string = [Z]).
  { intro Z. rewrite <- LM at 1. rewrite seq_times by exact DM.
    destruct HP as [-> | ->]; cbn [append times];
      repeat (rewrite ?seq_assoc, seq_chr_cons;
              cbn [Ascii.eqb Bool.eqb orb eqb]);
      now rewrite ?seq_eps. }
  unfold numeral, all_chars in HI.
  apply andb_true_iff in HI as [HI _]. apply andb_true_iff in HI as [HI _].
  apply andb_true_iff in HI as [Hl Hd].
  destruct I as [|i1 [|i2 [|i3 I]]]; try discriminate;
    cbn [list_ascii_of_string forallb] in Hd.
  - rewrite andb_true_r in Hd. cbn [append].
    rewrite seq_times_2_short by reflexivity. cbn [app times].
    rewrite seq_assoc, seq_chr_cons, Hd, seq_eps, seq_lit. apply Hend.
  - apply andb_true_iff in Hd as [H1 H2]. rewrite andb_true_r in H2.
    cbn [append].
    change (String i1 (String i2 (String ":" (MM ++ P ++ X))))
      with ((String i1 (String i2 "")) ++ String ":" (MM ++ P ++ X))%string.
    change 2%nat with (String.length (String i1 (String i2 ""))) at 1.
    rewrite seq_times
      by (unfold all_chars; cbn [list_ascii_of_string forallb];
          now rewrite H1, H2).
    rewrite seq_lit, Hend. cbn [append times].
    rewrite seq_assoc, seq_chr_cons, H1, seq_eps.
    rewrite seq_lit_other by (now apply digit_not_colon). reflexivity.
Qed.

(** The meridiem in capitals is one of the two the pattern looks for, and
    says what the meridiem said. *)
Lemma meridiem_capitals_spec (p : string) :
  In p ["AM"; "PM"; "am"; "pm"] ->
  (meridiem_capitals p = "AM" \/ meridiem_capitals p = "PM")
  /\ name_of am_pm (meridiem_capitals p) = true
  /\ is_pm (meridiem_capitals p) = is_pm p.
Proof.
  cbn [In]. intros [<-|[<-|[<-|[<-|[]]]]]; vm_compute; auto.
Qed.

(** A match at the start of the text is the match [search] finds. *)
Lemma search_here (m : matcher) (s rest : string) :
  rmatch m s = Some rest -> Re.search m s = Some (matched s rest).
Proof. intro H. destruct s; cbn [Re.search]; now rewrite H. Qed.

(** The first two steps of [parse_auction_date] on a text that starts with
    a date of the layout: what is kept is the date, with its meridiem in
    capitals; what follows the meridiem is dropped. *)
Lemma clean_date_written (a b dd I MM p rest : string) :
  name_of a_weekday a = true -> name_of (tl a_month) b = true ->
  String.length dd = 2%nat -> all_chars PyStr.isdigit dd = true ->
  numeral 1 12 I = true ->
  String.length MM = 2%nat -> all_chars PyStr.isdigit MM = true ->
  In p ["AM"; "PM"; "am"; "pm"] ->
  clean_date (a ++ " " ++ b ++ " " ++ dd ++ ", " ++ I ++ ":" ++ MM ++ p ++ rest)
  = (a ++ " " ++ b ++ " " ++ dd ++ ", " ++ I ++ ":" ++ MM ++ meridiem_capitals p)%string.
Proof.
  intros Ha Hb Ld Dd HI LM DM Hp.
  destruct (meridiem_capitals_spec p Hp) as [HP _].
  assert (E : forall t,
             (a ++ " " ++ b ++ " " ++ dd ++ ", " ++ I ++ ":" ++ MM ++ t)%string
             = ((a ++ " " ++ b ++ " " ++ dd ++ ", " ++ I ++ ":" ++ MM) ++ t)%string).
  { intro t. now rewrite !append_assoc. }
  rewrite !E. unfold clean_date.
  rewrite replace_written by assumption.
  set (X := PyStr.replace "pm" "PM" (PyStr.replace "am" "AM" rest)).
  pose proof (date_pattern_written a b dd I MM (meridiem_capitals p) X
                Ha Hb Ld Dd HI LM DM HP) as Hm.
  set (body := (a ++ " " ++ b ++ " " ++ dd ++ ", " ++ I ++ ":" ++ MM)%string) in *.
  assert (Hs : Re.search date_pattern (body ++ meridiem_capitals p ++ X)%string
               = Some (matched (body ++ meridiem_capitals p ++ X)%string X)).
  { apply search_here. unfold rmatch. now rewrite Hm. }
  rewrite Hs. rewrite <- append_assoc. apply matched_app.
Qed.

(** Two digits write a number below 100. *)
Lemma decimal_2 (w : string) :
  String.length w = 2%nat -> all_chars PyStr.isdigit w = true ->
  0 <= decimal 0 w <= 99.
Proof.
  intros Hl Hd. destruct w as [|c1 [|c2 [|]]]; try discriminate.
  unfold all_chars in Hd. cbn [list_ascii_of_string forallb] in Hd.
  apply andb_true_iff in Hd as [H1 Hd]. apply andb_true_iff in Hd as [H2 _].
  assert (H : forall c, PyStr.isdigit c = true -> 0 <= digit_value c <= 9).
  { intros c Hc.
    assert (R : forall x, implb (PyStr.isdigit x)
                               ((0 <=? digit_value x) && (digit_value x <=? 9)) = true)
      by (apply ascii_reflect; vm_compute; reflexivity).
    specialize (R c). rewrite Hc in R. cbn [implb] in R.
    apply andb_true_iff in R as [R1 R2]. apply Z.leb_le in R1, R2. lia. }
  apply H in H1, H2. cbn [decimal]. lia.
Qed.

Lemma numeral_2 (lo hi : Z) (w : string) :
  String.length w = 2%nat -> all_chars PyStr.isdigit w = true ->
  lo <= decimal 0 w <= hi -> numeral lo hi w = true.
Proof.
  intros Hl Hd Hr. unfold numeral. rewrite Hl, Hd. cbn [Nat.eqb orb andb].
  apply andb_true_iff. split; apply Z.leb_le; lia.
Qed.

(** A text that starts with a date as the files write it has the layout
    after the first two steps, with the current year in front, and says
    there what the date says. *)
Lemma written_reads (now : Z) (date_str : string) (mo d h mi : Z) (pm : bool) :
  2007 <= now <= 2037 ->
  written date_str mo d h mi pm -> 1 <= d <= 31 ->
  reads (date_with_year now date_str) mo d h mi pm.
Proof.
  intros Hn [a [b [dd [I [MM [p [rest H]]]]]]] Hd.
  destruct H as [-> [Ha [Hb [Hmo [Ld [Dd [Ed [HI [Eh [LM [DM [Emi [Hmi [Hp Epm]]]]]]]]]]]]]].
  destruct (meridiem_capitals_spec p Hp) as [_ [Np Ep]].
  destruct (year_text now Hn) as [[c1 [c2 [c3 [c4 EY]]]] _].
  assert (HY : forallb (fun y => year_digitsb y) table_years = true)
    by (vm_compute; reflexivity).
  rewrite forallb_forall in HY. specialize (HY now (in_table_years now Hn)).
  unfold year_digitsb in HY. apply andb_true_iff in HY as [LY DY].
  apply Nat.eqb_eq in LY.
  unfold date_with_year. rewrite clean_date_written by assumption.
  pose proof (decimal_2 MM LM DM) as RM.
  exists (str_of_int now), " ", a, " ", b, " ", dd, " ", I, MM, (meridiem_capitals p).
  split; [reflexivity|].
  repeat split; try assumption; try reflexivity.
  - apply numeral_2; try assumption. lia.
  - apply numeral_2; try assumption. lia.
  - now rewrite Ep.
Qed.



(** ** The date parser *)

Lemma central_utcoffset_cases (naive : datetime) :
  central_utcoffset naive = -300 \/ central_utcoffset naive = -360.
Proof. unfold central_utcoffset. cbv zeta. destruct (_ && _); auto. Qed.

Lemma utc_minutes_range (now : Z) (naive : datetime) :
  2007 <= now <= 2037 -> year naive = now -> valid_datetime naive ->
  year_start now + 300 <= to_minutes naive - central_utcoffset naive
    < year_start (now + 1) + 360
  /\ year_start 2007 <= to_minutes naive - central_utcoffset naive
       < year_start 2039.
Proof.
  intros Hy Hn Hv. subst now.
  pose proof (to_minutes_in_year naive Hy Hv) as Hm.
  pose proof (central_utcoffset_cases naive) as Ho.
  pose proof (year_start_bounds (year naive) ltac:(lia)) as [H1 [H2 H3]].
  pose proof (year_start_bounds (year naive + 1) ltac:(lia)) as [H4 [H5 H6]].
  lia.
Qed.


(** The clock of the UTC datetime of a Central wall-clock time: the
    minute stays, and the hour is on by the hours Central is behind. *)
Lemma utc_clock (r wall : datetime) :
  valid_datetime r -> 0 <= hour wall <= 23 -> 0 <= minute wall <= 59 ->
  to_minutes r = to_minutes wall - central_utcoffset wall ->
  hour r = (hour wall + hours_behind wall) mod 24 /\ minute r = minute wall.
Proof.
  intros [_ [_ [Hh Hm]]] Hwh Hwm E. unfold to_minutes, hours_behind in *.
  generalize dependent (Calendar.ymd2ord (year r) (month r) (day r)).
  generalize dependent (Calendar.ymd2ord (year wall) (month wall) (day wall)).
  intros B A E.
  destruct (central_utcoffset_cases wall) as [O|O]; rewrite O in *.
  - change ((0 - -300) / 60) with 5.
    assert (Em : minute r = minute wall) by lia.
    split; [|exact Em].
    apply (Z.mod_unique _ _ (A - B)); lia.
  - change ((0 - -360) / 60) with 6.
    assert (Em : minute r = minute wall) by lia.
    split; [|exact Em].
    apply (Z.mod_unique _ _ (A - B)); lia.
Qed.

(** What [parse_auction_date] returns for a text that says, after the
    first two steps, an existing day. *)
Lemma parse_auction_date_reads (now : Z) (date_str : string)
    (mo d h mi : Z) (pm : bool) :
  2007 <= now <= 2037 ->
  reads (date_with_year now date_str) mo d h mi pm ->
  d <= Calendar.days_in_month now mo ->
  let wall := mkdatetime now mo d (clock24 h pm) mi None in
  exists r, parse_auction_date now date_str = Ok r
    /\ r = of_minutes (to_minutes wall - central_utcoffset wall) (Some UTC)
    /\ tz r = Some UTC /\ valid_datetime r
    /\ to_minutes r = to_minutes wall - central_utcoffset wall
    /\ hour r = (clock24 h pm + hours_behind wall) mod 24
    /\ minute r = mi.
Proof.
  intros Hy Hr Hd wall.
  pose proof (strptime_reads now date_str mo d h mi pm Hy Hr) as Hs.
  apply Z.leb_le in Hd. rewrite Hd in Hs. fold wall in Hs.
  rewrite parse_auction_date_spec, Hs by assumption.
  destruct (strptime_Ok _ _ _ Hy Hs) as [Hyear [Hv _]].
  destruct (utc_minutes_range now wall Hy Hyear Hv) as [_ Hrange].
  destruct (of_minutes_spec _ (Some UTC) Hrange) as [Hm [Hvr [Ht _]]].
  eexists. split; [reflexivity|]. split; [reflexivity|].
  split; [exact Ht|]. split; [exact Hvr|]. split; [exact Hm|].
  destruct Hv as [_ [_ [Hh Hmi]]].
  exact (utc_clock _ wall Hvr Hh Hmi Hm).
Qed.


(** The text of the test says 1 December, 8:30 in the morning. *)
Lemma sample_written : written "Mon Dec 01, 8:30am CST" 12 1 8 30 false.
Proof.
  exists "Mon", "Dec", "01", "8", "30", "am", " CST".
  repeat split; try reflexivity; try (vm_compute; discriminate).
  cbn [In]. auto.
Qed.



Lemma late_on_new_years_eve_spec (naive : datetime) :
  2007 <= year naive <= 2037 -> valid_datetime naive ->
  (late_on_new_years_eve naive = true
   <-> year_start (year naive + 1) <= to_minutes naive + 360).
Proof.
  intros Hy [Hmo [Hd [Hh Hmi]]].
  assert (H : forallb (fun y => forallb (year_end_okb y)
                                        [1;2;3;4;5;6;7;8;9;10;11;12])
                      table_years = true) by (vm_compute; reflexivity).
  rewrite forallb_forall in H. specialize (H _ (in_table_years _ Hy)).
  rewrite forallb_forall in H.
  assert (Hin : In (month naive) [1;2;3;4;5;6;7;8;9;10;11;12]) by (simpl; lia).
  specialize (H _ Hin). unfold year_end_okb in H.
  unfold late_on_new_years_eve, to_minutes.
  destruct (Z.eqb_spec (month naive) 12) as [E|E].
  - apply Z.eqb_eq in H. rewrite E in *.
    change (Calendar.days_in_month (year naive) 12) with 31 in Hd.
    unfold Calendar.ymd2ord in *.
    cbn [andb]. rewrite andb_true_iff, Z.eqb_eq, Z.leb_le. lia.
  - apply Z.leb_le in H. simpl. unfold Calendar.ymd2ord in *.
    split; [discriminate | lia].
Qed.

Lemma late_offset (naive : datetime) :
  2007 <= year naive <= 2037 ->
  year_start (year naive + 1) <= to_minutes naive + 360 ->
  central_utcoffset naive = -360.
Proof.
  intros Hy Hl.
  destruct (info_at_year (year naive) Hy) as [_ [_ [_ [_ [_ Hby]]]]].
  unfold central_utcoffset. cbv zeta.
  destruct (Z.ltb_spec (to_minutes naive) (dst_end (year naive) - 60)); [lia|].
  now rewrite andb_false_r.
Qed.

(** C8, as amended.  [parse_auction_date] puts the current year in front
    of the text: the date read in US Central has the current year.  The
    UTC datetime returned has the current year as well, except for the
    Central times of 31 December from 18:00 on, whose UTC datetime falls
    in the year after. *)
Theorem parse_auction_date_year (now : Z) (date_str : string) (r : datetime) :
  2007 <= now <= 2037 ->
  parse_auction_date now date_str = Ok r ->
  exists naive,
    Strptime.strptime (str_of_int now ++ " " ++ clean_date date_str)%string
      = Ok naive
    /\ year naive = now
    /\ r = of_minutes (to_minutes naive - central_utcoffset naive) (Some UTC)
    /\ year r = if late_on_new_years_eve naive then now + 1 else now.
Proof.
  intros Hy H. rewrite parse_auction_date_spec in H by assumption.
  fold (date_with_year now date_str).
  destruct (Strptime.strptime (date_with_year now date_str)) as [naive|e] eqn:E;
    [|discriminate].
  injection H as <-. exists naive.
  destruct (strptime_Ok _ _ _ Hy E) as [Hyear [Hv _]].
  split; [reflexivity|]. split; [assumption|]. split; [reflexivity|].
  subst now.
  pose proof (late_on_new_years_eve_spec naive Hy Hv) as Hl.
  pose proof (to_minutes_in_year naive Hy Hv) as Hm.
  pose proof (central_utcoffset_cases naive) as Ho.
  pose proof (year_start_bounds (year naive + 1) ltac:(lia)) as [_ [_ Hn]].
  destruct (late_on_new_years_eve naive).
  - assert (Hge : year_start (year naive + 1) <= to_minutes naive + 360)
      by (now apply Hl).
    rewrite (late_offset naive Hy Hge).
    apply of_minutes_year; lia.
  - assert (Hlt : to_minutes naive + 360 < year_start (year naive + 1)).
    { destruct (Z.lt_ge_cases (to_minutes naive + 360)
                              (year_start (year naive + 1)))
        as [?|Hge]; [assumption|].
      apply Hl in Hge. discriminate. }
    apply of_minutes_year; lia.
Qed.

Lemma parse_auction_date_year_witness :
  2007 <= 2026 <= 2037
  /\ parse_auction_date 2026 "Mon Dec 01, 8:30am CST"
     = Ok (mkdatetime 2026 12 1 14 30 (Some UTC))
  /\ exists naive,
    Strptime.strptime (str_of_int 2026 ++ " "
                       ++ clean_date "Mon Dec 01, 8:30am CST")%string
      = Ok naive
    /\ year naive = 2026
    /\ mkdatetime 2026 12 1 14 30 (Some UTC)
       = of_minutes (to_minutes naive - central_utcoffset naive) (Some UTC)
    /\ year (mkdatetime 2026 12 1 14 30 (Some UTC))
       = if late_on_new_years_eve naive then 2026 + 1 else 2026.
Proof.
  split; [lia|]. split; [vm_compute; reflexivity|].
  apply (parse_auction_date_year 2026 "Mon Dec 01, 8:30am CST");
    [lia | vm_compute; reflexivity].
Defined.

(** Against C8 as stated: in 2026 the text "Thu Dec 31, 8:30PM" gives a
    datetime of the year 2027. *)
Lemma parse_auction_date_year_counterexample :
  parse_auction_date 2026 "Thu Dec 31, 8:30PM"
    = Ok (mkdatetime 2027 1 1 2 30 (Some UTC))
  /\ year (mkdatetime 2027 1 1 2 30 (Some UTC)) <> 2026.
Proof. split; [vm_compute; reflexivity | discriminate]. Qed.

Lemma conforms_to_layout_match (now : Z) (date_str : string) :
  conforms_to_layout now date_str <->
  exists found, match_format (date_with_year now date_str) = Some found.
Proof. unfold conforms_to_layout. symmetry. apply match_format_layout. Qed.

(** C3, as amended.  For a current year from 2007 to 2037,
    [parse_auction_date] fails exactly when the text, after the first two
    steps and with the year in front, does not have the layout, or has it
    and says a day that the month it says does not have in the current
    year; the failure is a [ValueError].  When the text has the layout and
    says a day that its month has, the UTC datetime of that day, hour and
    minute of US Central is returned.  A text that starts with a date as
    the files write it, with a day from 01 to 31, has the layout after the
    first two steps. *)
Theorem parse_auction_date_fails_iff (now : Z) (date_str : string) :
  2007 <= now <= 2037 ->
  (parse_auction_date now date_str = Raise ValueError
   <-> ~ conforms_to_layout now date_str
       \/ exists mo d h mi pm,
            reads (date_with_year now date_str) mo d h mi pm
            /\ Calendar.days_in_month now mo < d)
  /\ (forall e, parse_auction_date now date_str = Raise e -> e = ValueError)
  /\ (forall mo d h mi pm,
        reads (date_with_year now date_str) mo d h mi pm ->
        d <= Calendar.days_in_month now mo ->
        let wall := mkdatetime now mo d (clock24 h pm) mi None in
        exists r, parse_auction_date now date_str = Ok r
          /\ tz r = Some UTC
          /\ to_minutes r = to_minutes wall - central_utcoffset wall)
  /\ (forall mo d h mi pm,
        written date_str mo d h mi pm -> 1 <= d <= 31 ->
        conforms_to_layout now date_str
        /\ reads (date_with_year now date_str) mo d h mi pm).
Proof.
  intros Hy. split; [|split; [|split]].
  - rewrite parse_auction_date_spec by assumption.
    unfold conforms_to_layout. rewrite layout_reads. split.
    + intro H.
      destruct (strptime (date_with_year now date_str)) as [naive|e] eqn:E;
        [discriminate|].
      destruct (match_format (date_with_year now date_str)) as [found|] eqn:Hm.
      * right.
        assert (Hr : reads (date_with_year now date_str)
                           (month_of found) (day_of found)
                           (decimal 0 (g_I found)) (minute_of found)
                           (is_pm (g_p found))).
        { apply match_format_reads. exists found. auto 6. }
        do 5 eexists. split; [exact Hr|].
        rewrite (strptime_reads _ _ _ _ _ _ _ Hy Hr) in E.
        destruct (Z.leb_spec (day_of found)
                             (Calendar.days_in_month now (month_of found)));
          [discriminate | assumption].
      * left. intros [mo [d [h [mi [pm Hr]]]]].
        apply match_format_reads in Hr as [found [Hf _]]. congruence.
    + intros [H | [mo [d [h [mi [pm [Hr Hd]]]]]]].
      * destruct (strptime (date_with_year now date_str)) as [naive|e] eqn:E.
        { exfalso. apply H.
          destruct (strptime_Ok_reads _ _ _ Hy E) as [mo [d [h [mi [pm [Hr _]]]]]].
          eauto 6. }
        rewrite strptime_cases in E by assumption.
        destruct (match_format _); [destruct (_ <=? _)|]; congruence.
      * rewrite (strptime_reads _ _ _ _ _ _ _ Hy Hr).
        apply Z.leb_gt in Hd. now rewrite Hd.
  - intros e. rewrite parse_auction_date_spec, strptime_cases by assumption.
    destruct (match_format _); [destruct (_ <=? _)|]; congruence.
  - intros mo d h mi pm Hr Hd wall.
    destruct (parse_auction_date_reads now date_str mo d h mi pm Hy Hr Hd)
      as [r [E [_ [Ht [_ [Hm _]]]]]].
    exists r. auto.
  - intros mo d h mi pm Hw Hd.
    pose proof (written_reads now date_str mo d h mi pm Hy Hw Hd) as Hr.
    split; [|exact Hr]. unfold conforms_to_layout. apply layout_reads. eauto 6.
Qed.

Lemma parse_auction_date_fails_iff_witness :
  2007 <= 2026 <= 2037
  /\ written "Mon Dec 01, 8:30am CST" 12 1 8 30 false
  /\ conforms_to_layout 2026 "Mon Dec 01, 8:30am CST"
  /\ reads (date_with_year 2026 "Mon Dec 01, 8:30am CST") 12 1 8 30 false.
Proof.
  assert (Hy : 2007 <= 2026 <= 2037) by lia.
  split; [exact Hy|]. split; [exact sample_written|].
  refine (proj2 (proj2 (proj2
            (parse_auction_date_fails_iff 2026 "Mon Dec 01, 8:30am CST" Hy)))
            12 1 8 30 false sample_written _).
  lia.
Defined.

(** Against C3 as stated: with the year 2026 in front,
    "Mon Feb 30, 8:30AM" has the layout, and [parse_auction_date] fails
    on it. *)
Lemma parse_auction_date_layout_counterexample :
  conforms_to_layout 2026 "Mon Feb 30, 8:30AM"
  /\ parse_auction_date 2026 "Mon Feb 30, 8:30AM" = Raise ValueError.
Proof.
  split; [|vm_compute; reflexivity].
  exists "2026", " ", "Mon", " ", "Feb", " ", "30", " ", "8", "30", "AM".
  vm_compute. repeat split; reflexivity.
Qed.



(** ** The order and the shape of the merged list *)

Lemma contains_app (k : key) (d e : auctions_dict) :
  contains k (d ++ e) = contains k d || contains k e.
Proof. unfold contains. apply existsb_app. Qed.

Lemma contains_false (k : key) (d : auctions_dict) :
  contains k d = false <-> ~ In k (map fst d).
Proof.
  rewrite <- contains_In. destruct (contains k d); split; intro H;
    try discriminate; try reflexivity. exfalso. apply H. reflexivity.
Qed.

Lemma append_vehicle_keys (k : key) (v : Vehicle) (d : auctions_dict) :
  map fst (append_vehicle k v d) = map fst d.
Proof.
  induction d as [|[k' a] d IH]; simpl; [reflexivity|].
  destruct (key_eqb k' k); simpl; [reflexivity|]. now rewrite IH.
Qed.

Lemma merge_triple_keys (d : auctions_dict) (t : triple) :
  map fst (merge_triple d t)
  = if contains (key_of t) d then map fst d else map fst d ++ [key_of t].
Proof.
  destruct t as [[dt loc] v]. unfold merge_triple, key_of. simpl.
  rewrite append_vehicle_keys.
  destruct (contains (dt, loc) d); simpl; [reflexivity|].
  unfold insert_new. now rewrite map_app.
Qed.

Lemma filter_filter {A : Type} (p q : A -> bool) (l : list A) :
  filter p (filter q l) = filter (fun x => q x && p x) l.
Proof.
  induction l as [|x l IH]; simpl; [reflexivity|].
  destruct (q x); simpl; [destruct (p x)|]; now rewrite IH.
Qed.

Lemma contains_keys (k : key) (d : auctions_dict) :
  contains k d = existsb (fun k' => key_eqb k' k) (map fst d).
Proof.
  unfold contains. induction d as [|e d IH]; simpl; [reflexivity|].
  now rewrite IH.
Qed.

Lemma contains_merge_triple (k : key) (d : auctions_dict) (t : triple) :
  contains k (merge_triple d t) = contains k d || key_eqb (key_of t) k.
Proof.
  rewrite (contains_keys k (merge_triple d t)), merge_triple_keys.
  destruct (contains (key_of t) d) eqn:Hc.
  - rewrite <- contains_keys.
    destruct (key_eqb (key_of t) k) eqn:Hk; [|now rewrite orb_false_r].
    apply key_eqb_eq in Hk. subst k. now rewrite Hc.
  - rewrite existsb_app, <- contains_keys. simpl. now rewrite orb_false_r.
Qed.

Lemma key_eqb_sym (a b : key) : key_eqb a b = key_eqb b a.
Proof.
  destruct (key_eqb a b) eqn:E.
  - apply key_eqb_eq in E. subst. symmetry. apply key_eqb_refl.
  - destruct (key_eqb b a) eqn:E'; [|reflexivity].
    apply key_eqb_eq in E'. subst. now rewrite key_eqb_refl in E.
Qed.

Lemma fold_merge_keys (ts : list triple) (d : auctions_dict) :
  map fst (fold_left merge_triple ts d)
  = map fst d ++ filter (absent_from d) (distinct (map key_of ts)).
Proof.
  revert d. induction ts as [|t ts IH]; intro d; simpl.
  - now rewrite app_nil_r.
  - rewrite IH, merge_triple_keys. unfold absent_from at 2.
    destruct (contains (key_of t) d) eqn:Hc; simpl.
    + f_equal. rewrite filter_filter. apply filter_ext_in. intros k _.
      unfold absent_from. rewrite contains_merge_triple.
      rewrite (key_eqb_sym (key_of t) k).
      destruct (key_eqb k (key_of t)) eqn:Hk; simpl.
      * apply key_eqb_eq in Hk. subst k. now rewrite Hc.
      * now rewrite orb_false_r.
    + rewrite <- app_assoc. simpl. do 2 f_equal.
      rewrite filter_filter. apply filter_ext_in. intros k _.
      unfold absent_from. rewrite contains_merge_triple.
      rewrite (key_eqb_sym (key_of t) k).
      destruct (key_eqb k (key_of t)), (contains k d); reflexivity.
Qed.

Lemma merge_keys (results : list (list triple)) :
  map auction_key (merge results) = map fst (merge_dict results).
Proof.
  unfold merge. apply (keys_of_values _ (List.concat results)).
  apply merge_dict_inv.
Qed.

Lemma distinct_subset (ks : list key) (k : key) :
  In k (distinct ks) <-> In k ks.
Proof.
  induction ks as [|k' ks IH]; simpl; [tauto|].
  rewrite filter_In, IH. split.
  - intros [H|[H _]]; auto.
  - intros [H|H]; [now left|].
    destruct (key_eqb k k') eqn:E.
    + left. apply key_eqb_eq in E. now subst.
    + right. split; [assumption|reflexivity].
Qed.

Lemma distinct_NoDup (ks : list key) : NoDup (distinct ks).
Proof.
  induction ks as [|k ks IH]; simpl; constructor.
  - rewrite filter_In. intros [_ H]. now rewrite key_eqb_refl in H.
  - now apply NoDup_filter.
Qed.

Lemma distinct_length (ks : list key) :
  (List.length (distinct ks) <= List.length ks)%nat.
Proof.
  induction ks as [|k ks IH]; simpl; [lia|].
  pose proof (filter_length_le (fun k' => negb (key_eqb k' k)) (distinct ks)).
  lia.
Qed.

Lemma distinct_fixed (ks : list key) : NoDup ks -> distinct ks = ks.
Proof.
  induction 1 as [|k ks Hk Hn IH]; simpl; [reflexivity|].
  rewrite IH. f_equal. apply forallb_filter_id. apply forallb_forall.
  intros k' Hin. destruct (key_eqb k' k) eqn:E; [|reflexivity].
  apply key_eqb_eq in E. subst. contradiction.
Qed.

(** X1. The Auctions come out in the order in which their keys first appear
    in the rows, read file by file: the keys of the merged list are the
    keys of the rows with the repetitions after the first left out.  So
    there are as many Auctions as distinct keys, never more than rows. *)
Theorem merge_order_of_first_appearance (results : list (list triple)) :
  map auction_key (merge results) = distinct (map key_of (List.concat results))
  /\ List.length (merge results)
     = List.length (distinct (map key_of (List.concat results)))
  /\ (List.length (merge results) <= List.length (List.concat results))%nat.
Proof.
  assert (H : map auction_key (merge results)
              = distinct (map key_of (List.concat results))).
  { rewrite merge_keys. unfold merge_dict.
    rewrite fold_merge_concat, fold_merge_keys. simpl.
    apply forallb_filter_id. apply forallb_forall. reflexivity. }
  split; [exact H|]. split.
  - rewrite <- H. now rewrite length_map.
  - rewrite <- (length_map auction_key), H.
    rewrite <- (length_map key_of (List.concat results)).
    apply distinct_length.
Qed.

Lemma merge_triple_app (d e : auctions_dict) (t : triple) :
  ~ In (key_of t) (map fst d) ->
  merge_triple (d ++ e) t = d ++ merge_triple e t.
Proof.
  intro Hk. destruct t as [[dt loc] v]. unfold merge_triple, key_of in *.
  simpl in *. rewrite contains_app.
  apply contains_false in Hk as Hc. rewrite Hc. simpl.
  destruct (contains (dt, loc) e); simpl.
  - now apply append_vehicle_app.
  - unfold insert_new. rewrite <- app_assoc. now apply append_vehicle_app.
Qed.

Lemma fold_merge_app (ts : list triple) (d e : auctions_dict) :
  (forall t, In t ts -> ~ In (key_of t) (map fst d)) ->
  fold_left merge_triple ts (d ++ e) = d ++ fold_left merge_triple ts e.
Proof.
  revert e. induction ts as [|t ts IH]; intros e H; simpl; [reflexivity|].
  rewrite merge_triple_app by (apply H; now left).
  apply IH. intros u Hu. apply H. now right.
Qed.

Lemma merge_single (results : list (list triple)) :
  merge results = map snd (fold_left merge_triple (List.concat results) []).
Proof. unfold merge, merge_dict. now rewrite fold_merge_concat. Qed.

Lemma merge_triple_last (d : auctions_dict) (dt : datetime)
    (loc : option string) (vs : list Vehicle) (v : Vehicle) :
  ~ In (dt, loc) (map fst d) ->
  merge_triple (d ++ [((dt, loc), mkAuction dt loc vs)]) (dt, loc, v)
  = d ++ [((dt, loc), mkAuction dt loc (vs ++ [v]))].
Proof.
  intro Hk.
  rewrite merge_triple_app by exact Hk. f_equal.
  unfold merge_triple, contains. simpl.
  rewrite key_eqb_refl. simpl. now rewrite key_eqb_refl.
Qed.

(** Triples of one key, merged into a dict that ends with the Auction of
    that key, all go to that Auction. *)
Lemma fold_merge_same_key (ws : list Vehicle) (d : auctions_dict)
    (dt : datetime) (loc : option string) (vs : list Vehicle) :
  ~ In (dt, loc) (map fst d) ->
  fold_left merge_triple (map (fun v => (dt, loc, v)) ws)
            (d ++ [((dt, loc), mkAuction dt loc vs)])
  = d ++ [((dt, loc), mkAuction dt loc (vs ++ ws))].
Proof.
  revert vs. induction ws as [|w ws IH]; intros vs Hk.
  - cbn [map fold_left]. now rewrite app_nil_r.
  - cbn [map fold_left]. rewrite merge_triple_last by exact Hk.
    rewrite IH by exact Hk. now rewrite <- app_assoc.
Qed.

Lemma merge_triple_first (d : auctions_dict) (dt : datetime)
    (loc : option string) (v : Vehicle) :
  ~ In (dt, loc) (map fst d) ->
  merge_triple d (dt, loc, v) = d ++ [((dt, loc), mkAuction dt loc [v])].
Proof.
  intro Hk. apply contains_false in Hk as Hc.
  unfold merge_triple. rewrite Hc. cbn [negb].
  unfold insert_new. rewrite append_vehicle_app by exact Hk.
  cbn [append_vehicle]. now rewrite key_eqb_refl.
Qed.

Lemma fold_merge_one_auction (d : auctions_dict) (a : Auction) :
  ~ In (auction_key a) (map fst d) -> vehicles a <> [] ->
  fold_left merge_triple (triples_of [a]) d = d ++ [(auction_key a, a)].
Proof.
  destruct a as [dt loc vs]. unfold auction_key, triples_of.
  cbn [flat_map date_utc location vehicles]. intros Hk Hv.
  rewrite app_nil_r.
  destruct vs as [|v vs]; [contradiction|].
  cbn [map fold_left]. rewrite merge_triple_first by exact Hk.
  now rewrite fold_merge_same_key by exact Hk.
Qed.

Lemma fold_merge_triples_of (out : list Auction) (d : auctions_dict) :
  NoDup (map fst d ++ map auction_key out) ->
  Forall (fun a => vehicles a <> []) out ->
  fold_left merge_triple (triples_of out) d
  = d ++ map (fun a => (auction_key a, a)) out.
Proof.
  revert d. induction out as [|a out IH]; intros d Hn Hv.
  - simpl. now rewrite app_nil_r.
  - change (triples_of (a :: out)) with (triples_of ([a] ++ out)).
    rewrite triples_of_app, fold_left_app.
    inversion Hv as [|? ? Ha Hout]; subst.
    assert (Hk : ~ In (auction_key a) (map fst d)).
    { intro Hin. cbn [map] in Hn. apply NoDup_remove_2 in Hn.
      apply Hn, in_or_app. now left. }
    rewrite fold_merge_one_auction by assumption.
    rewrite IH; [cbn [map]; now rewrite <- app_assoc| |exact Hout].
    rewrite map_app, <- app_assoc. exact Hn.
Qed.

Lemma merge_of_merged (out : list Auction) :
  merged_shape out -> merge [triples_of out] = out.
Proof.
  intros [Hn Hv]. rewrite merge_single. simpl. rewrite app_nil_r.
  rewrite fold_merge_triples_of by assumption. simpl.
  rewrite map_map. simpl. apply map_id.
Qed.

Lemma merge_has_merged_shape (results : list (list triple)) :
  merged_shape (merge results).
Proof.
  pose proof (merge_dict_inv results) as I. split.
  - rewrite merge_keys. apply (inv_nodup _ _ I).
  - unfold merge. apply Forall_forall. intros a Ha.
    apply in_map_iff in Ha as [[k a'] [E Hin]]. simpl in E. subst a'.
    destruct (inv_entry _ _ I k a Hin) as [Hk Hvs]. rewrite Hvs.
    apply vehicles_for_present. apply (inv_keys _ _ I).
    apply in_map_iff. now exists (k, a).
Qed.

(** X2. Merging is a normal form.  An Auction list with pairwise distinct
    keys and no empty Auction, taken apart into its triples and merged
    again, comes back unchanged; the list the merge returns is of this
    kind, so merging its triples once more changes nothing. *)
Theorem merge_is_a_normal_form :
  (forall out, merged_shape out -> merge [triples_of out] = out)
  /\ (forall results, merged_shape (merge results))
  /\ (forall results, merge [triples_of (merge results)] = merge results).
Proof.
  split; [exact merge_of_merged|]. split; [exact merge_has_merged_shape|].
  intro results. apply merge_of_merged, merge_has_merged_shape.
Qed.

(** X3. How the rows are spread over the files does not matter: the merge
    depends on the per-file lists only through their concatenation in
    task order.  Two files may be joined into one, and a file without
    rows may be dropped. *)
Theorem merge_ignores_file_boundaries :
  (forall results results',
      List.concat results = List.concat results' -> merge results = merge results')
  /\ (forall l1 l2 rest, merge (l1 :: l2 :: rest) = merge ((l1 ++ l2) :: rest))
  /\ (forall before after, merge (before ++ [] :: after) = merge (before ++ after)).
Proof.
  split; [|split].
  - intros results results' H. now rewrite !merge_single, H.
  - intros l1 l2 rest. rewrite !merge_single. simpl. now rewrite app_assoc.
  - intros before after. rewrite !merge_single, !concat_app. reflexivity.
Qed.

(** X4. Rows with keys that the earlier rows do not have are merged on
    their own: when no key of [us] occurs in [ts], the merge of [ts]
    followed by [us] is the merge of [ts] followed by the merge of [us]. *)
Theorem merge_of_disjoint_keys (ts us : list triple) :
  keys_apart ts us -> merge [ts; us] = merge [ts] ++ merge [us].
Proof.
  intro H. rewrite !merge_single. simpl. rewrite !app_nil_r.
  rewrite fold_left_app.
  rewrite <- (app_nil_r (fold_left merge_triple ts [])) at 1.
  rewrite fold_merge_app; [now rewrite map_app|].
  intros u Hu Hin.
  pose proof (merge_inv_fold ts) as I. apply (inv_keys _ _ I) in Hin.
  apply in_map_iff in Hin as [t [E Ht]]. exact (H t u Ht Hu E).
Qed.

Lemma merge_of_disjoint_keys_witness :
  keys_apart [(sample_day, Some "Dallas", sample_vehicle "VIN1")]
             [(sample_day, Some "Austin", sample_vehicle "VIN2")]
  /\ merge [[(sample_day, Some "Dallas", sample_vehicle "VIN1")];
            [(sample_day, Some "Austin", sample_vehicle "VIN2")]]
     = merge [[(sample_day, Some "Dallas", sample_vehicle "VIN1")]]
       ++ merge [[(sample_day, Some "Austin", sample_vehicle "VIN2")]].
Proof.
  assert (H : keys_apart [(sample_day, Some "Dallas", sample_vehicle "VIN1")]
                         [(sample_day, Some "Austin", sample_vehicle "VIN2")]).
  { intros t u [Ht|[]] [Hu|[]]. subst. discriminate. }
  split; [exact H|]. exact (merge_of_disjoint_keys _ _ H).
Defined.



(** ** Members, values and texts *)

Lemma isspace_lower_char (c : ascii) :
  PyStr.isspace (PyStr.lower_char c) = PyStr.isspace c.
Proof. destruct c as [[] [] [] [] [] [] [] []]; reflexivity. Qed.

Lemma lower_char_idem (c : ascii) :
  PyStr.lower_char (PyStr.lower_char c) = PyStr.lower_char c.
Proof. destruct c as [[] [] [] [] [] [] [] []]; reflexivity. Qed.

Lemma lower_idem (s : string) : PyStr.lower (PyStr.lower s) = PyStr.lower s.
Proof.
  induction s as [|c r IH]; simpl; [reflexivity|].
  now rewrite lower_char_idem, IH.
Qed.

Lemma lower_lstrip (s : string) :
  PyStr.lstrip (PyStr.lower s) = PyStr.lower (PyStr.lstrip s).
Proof.
  induction s as [|c r IH]; simpl; [reflexivity|].
  rewrite isspace_lower_char. now destruct (PyStr.isspace c).
Qed.

Lemma lower_rstrip (s : string) :
  PyStr.rstrip (PyStr.lower s) = PyStr.lower (PyStr.rstrip s).
Proof.
  induction s as [|c r IH]; simpl; [reflexivity|].
  rewrite IH, isspace_lower_char.
  destruct (PyStr.rstrip r); simpl; [|reflexivity].
  now destruct (PyStr.isspace c).
Qed.

Lemma lower_strip (s : string) :
  PyStr.strip (PyStr.lower s) = PyStr.lower (PyStr.strip s).
Proof. unfold PyStr.strip. now rewrite lower_lstrip, lower_rstrip. Qed.

Lemma rstrip_all_blanks (w : string) :
  all_chars PyStr.isspace w = true -> PyStr.rstrip w = "".
Proof.
  unfold all_chars. induction w as [|c r IH]; simpl; [reflexivity|].
  intro H. apply andb_true_iff in H as [Hc Hr].
  now rewrite (IH Hr), Hc.
Qed.

Lemma rstrip_blanks (s w : string) :
  all_chars PyStr.isspace w = true -> PyStr.rstrip (s ++ w) = PyStr.rstrip s.
Proof.
  intro Hw. induction s as [|c r IH]; simpl.
  - now apply rstrip_all_blanks.
  - now rewrite IH.
Qed.

Lemma lstrip_all_blanks (w : string) :
  all_chars PyStr.isspace w = true -> PyStr.lstrip w = "".
Proof.
  unfold all_chars. induction w as [|c r IH]; simpl; [reflexivity|].
  intro H. apply andb_true_iff in H as [Hc Hr]. now rewrite Hc, IH.
Qed.

(** What is left of the text on the left stays in front when blanks are
    added on the right. *)
Lemma lstrip_app_blanks (s w : string) :
  all_chars PyStr.isspace w = true ->
  PyStr.rstrip (PyStr.lstrip (s ++ w)) = PyStr.rstrip (PyStr.lstrip s).
Proof.
  intro Hw. induction s as [|c r IH]; simpl.
  - now rewrite lstrip_all_blanks.
  - destruct (PyStr.isspace c); [exact IH|].
    change (String c (r ++ w)) with (String c r ++ w)%string.
    now apply rstrip_blanks.
Qed.

Lemma strip_blanks (w1 s w2 : string) :
  all_chars PyStr.isspace w1 = true -> all_chars PyStr.isspace w2 = true ->
  PyStr.strip (w1 ++ s ++ w2) = PyStr.strip s.
Proof.
  intros H1 H2. unfold PyStr.strip. rewrite lstrip_blanks by exact H1.
  now apply lstrip_app_blanks.
Qed.

Lemma Transmission_of_value_spec (s : string) (m : Transmission) :
  Transmission_of_value s = Ok m <-> s = Transmission_value m.
Proof.
  unfold Transmission_of_value.
  cbv beta iota delta [find Transmission_members Transmission_value]. split.
  - destruct (String.eqb_spec "Automatic" s) as [E|_];
      [intro H; injection H as H; now subst|].
    destruct (String.eqb_spec "Manual" s) as [E|_];
      [intro H; injection H as H; now subst|].
    destruct (String.eqb_spec "Unknown" s) as [E|_];
      [intro H; injection H as H; now subst|]. discriminate.
  - intros ->. now destruct m.
Qed.

(** X5. Members and their values go back and forth.  The lookup of a
    member by value succeeds on exactly the three values and gives the
    member back, and raises a [ValueError] on any other text; [from_str]
    reads every value as its member and agrees with the lookup by value
    wherever that succeeds; reading the value of what [from_str] returned
    gives the same member again. *)
Theorem Transmission_value_round_trip :
  (forall m, Transmission_of_value (Transmission_value m) = Ok m)
  /\ (forall s m, Transmission_of_value s = Ok m <-> s = Transmission_value m)
  /\ (forall s, (forall m, s <> Transmission_value m) ->
                Transmission_of_value s = Raise ValueError)
  /\ (forall m, from_str (Some (Transmission_value m)) = m)
  /\ (forall s m, Transmission_of_value s = Ok m -> from_str (Some s) = m)
  /\ (forall value,
        from_str (Some (Transmission_value (from_str value))) = from_str value).
Proof.
  assert (Hv : forall m, from_str (Some (Transmission_value m)) = m)
    by (intros []; reflexivity).
  repeat split.
  - intros []; reflexivity.
  - apply Transmission_of_value_spec.
  - apply Transmission_of_value_spec.
  - intros s H. destruct (Transmission_of_value s) as [m|e] eqn:E.
    + apply Transmission_of_value_spec in E. now destruct (H m).
    + unfold Transmission_of_value in E.
      destruct (find _ _); [discriminate|]. now injection E as <-.
  - exact Hv.
  - intros s m H. apply Transmission_of_value_spec in H. subst. apply Hv.
  - intro value. apply Hv.
Qed.

(** X6. [from_str] looks through blanks around the text and through the
    case of its letters: blanks added in front and behind, and capitals
    put for small letters or the other way round, give the same member. *)
Theorem from_str_ignores_blanks_and_case :
  (forall w1 s w2,
      all_chars PyStr.isspace w1 = true -> all_chars PyStr.isspace w2 = true ->
      from_str (Some (w1 ++ s ++ w2)%string) = from_str (Some s))
  /\ (forall s t, PyStr.lower s = PyStr.lower t ->
                  from_str (Some s) = from_str (Some t))
  /\ (forall s, from_str (Some (PyStr.lower s)) = from_str (Some s)).
Proof.
  assert (Hl : forall s t, PyStr.lower s = PyStr.lower t ->
                           from_str (Some s) = from_str (Some t)).
  { intros s t H. rewrite !from_str_spec. cbv zeta.
    now rewrite <- !lower_strip, H. }
  split; [|split].
  - intros w1 s w2 H1 H2. rewrite !from_str_spec. cbv zeta.
    now rewrite strip_blanks.
  - exact Hl.
  - intro s. apply Hl, lower_idem.
Qed.



(** ** Rows and their failures *)

Lemma strptime_raises (s : string) (e : exn) :
  Strptime.strptime s = Raise e -> e = ValueError.
Proof.
  unfold Strptime.strptime. destruct (Strptime.match_format s).
  - apply datetime_new_Raise.
  - now intros [= <-].
Qed.

Lemma parse_auction_date_raises (now : Z) (s : string) (e : exn) :
  2007 <= now <= 2037 ->
  parse_auction_date now s = Raise e -> e = ValueError.
Proof.
  intros Hn. rewrite parse_auction_date_spec by exact Hn.
  destruct (Strptime.strptime (date_with_year now s)) eqn:E; [discriminate|].
  intros [= <-]. now apply strptime_raises in E.
Qed.

Lemma int_of_str_raises (s : string) (e : exn) :
  int_of_str s = Raise e -> e = ValueError.
Proof.
  unfold int_of_str.
  destruct (match int_rstrip (int_lstrip s) with
            | String "-" r => (-1, r)
            | String "+" r => (1, r)
            | _ => (1, int_rstrip (int_lstrip s))
            end) as [sign ds].
  destruct (digits_value 0 false ds); [discriminate|]. now intros [= <-].
Qed.

Lemma getitem_Ok (row : row_dict) (k : string) (v : option string) :
  getitem row k = Ok v <-> lookup k row = Some v.
Proof.
  unfold getitem. destruct (lookup k row); split; intro H;
    try discriminate; now injection H as ->.
Qed.

Lemma getitem_Raise (row : row_dict) (k : string) (e : exn) :
  getitem row k = Raise e <-> lookup k row = None /\ e = KeyError.
Proof.
  unfold getitem. destruct (lookup k row); split.
  - discriminate.
  - intros [H _]. discriminate.
  - intros [= <-]. auto.
  - now intros [_ ->].
Qed.

(** One step of a row: the lookup of a required column. *)
Ltac next_column H k v E :=
  match type of H with
  | bind (getitem ?row _) _ = Raise _ =>
      destruct (getitem row k) as [v|?e] eqn:E; cbn [bind] in H;
      [apply getitem_Ok in E
      |apply getitem_Raise in E as [E ->]; injection H as <-;
       exists k; split; [simpl; tauto | exact E]]
  end.

Lemma process_row_cause (now : Z) (row : row_dict) (e : exn) :
  2007 <= now <= 2037 ->
  process_row now row = Raise e -> cause now row e.
Proof.
  intros Hn H. unfold process_row in H.
  next_column H "Auction Date" vd Ed.
  destruct vd as [s|]; cbn [bind] in H;
    [|injection H as <-; exact Ed].
  destruct (parse_auction_date now s) as [date|e'] eqn:Ep; cbn [bind] in H.
  2:{ injection H as <-.
      pose proof (parse_auction_date_raises _ _ _ Hn Ep) as ->.
      left. now exists s. }
  next_column H "Branch Name" vb Eb.
  next_column H "Year" vy Ey.
  destruct vy as [y|]; cbn [bind] in H;
    [|injection H as <-; exact Ey].
  destruct (int_of_str y) as [n|e'] eqn:Ei; cbn [bind] in H.
  2:{ injection H as <-. pose proof (int_of_str_raises _ _ Ei) as ->.
      right. now exists y. }
  next_column H "Make" vmk Emk.
  next_column H "Model" vmd Emd.
  next_column H "Vin#" vvn Evn.
  next_column H "Engine" ven Een.
  destruct ven as [en|]; cbn [bind Engine_init validate_str] in H.
  2:{ injection H as <-. exists "Engine". split; [simpl; tauto|exact Een]. }
  destruct vmk as [mk|]; cbn [bind Vehicle_init validate_int validate_str] in H.
  2:{ injection H as <-. exists "Make". split; [simpl; tauto|exact Emk]. }
  destruct vmd as [md|]; cbn [bind] in H.
  2:{ injection H as <-. exists "Model". split; [simpl; tauto|exact Emd]. }
  destruct vvn as [vn|]; cbn [bind] in H.
  2:{ injection H as <-. exists "Vin#". split; [simpl; tauto|exact Evn]. }
  discriminate.
Qed.

Lemma lookup_full (k : string) (names row : list string) :
  full_row names row -> In k names ->
  exists v, lookup k (dict_of_row names row) = Some (Some v).
Proof.
  unfold full_row. revert row.
  induction names as [|n ns IH]; intros row Hl Hin; [contradiction|].
  destruct row as [|x xs]; simpl in Hl; [lia|]. simpl.
  destruct (in_dec string_dec k ns) as [Hk|Hk].
  - destruct (IH xs) as [v ->]; [lia|exact Hk|]. now exists v.
  - rewrite lookup_absent by exact Hk.
    destruct Hin as [->|Hin]; [|contradiction].
    rewrite String.eqb_refl. now exists x.
Qed.

Lemma process_row_accepts (now : Z) (row : row_dict)
    (d b y mk md vn en : string) :
  lookup "Auction Date" row = Some (Some d) ->
  lookup "Branch Name" row = Some (Some b) ->
  lookup "Year" row = Some (Some y) ->
  lookup "Make" row = Some (Some mk) ->
  lookup "Model" row = Some (Some md) ->
  lookup "Vin#" row = Some (Some vn) ->
  lookup "Engine" row = Some (Some en) ->
  is_ok (process_row now row)
  = is_ok (parse_auction_date now d) && is_ok (int_of_str y).
Proof.
  intros Hd Hb Hy Hmk Hmd Hvn Hen. unfold process_row, getitem.
  rewrite Hd, Hb, Hy, Hmk, Hmd, Hvn, Hen. cbn [bind].
  destruct (parse_auction_date now d); cbn [bind is_ok andb]; [|reflexivity].
  destruct (int_of_str y); reflexivity.
Qed.

(** X7. Every exception of [process_row] has its cause in the row.  A
    [KeyError] means that a required column is not in the header, an
    [AttributeError] that the row stops before the date, a [TypeError]
    that it stops before the year, a [ValueError] that the date or the
    year cannot be read, and a validation error that the row stops before
    the make, the model, the VIN or the engine; no other exception is
    raised.  The date is looked at first: without the date column the row
    fails with a [KeyError] whatever else it holds. *)
Theorem process_row_error_causes (now : Z) (row : row_dict) :
  2007 <= now <= 2037 ->
  (forall e, process_row now row = Raise e -> cause now row e)
  /\ (lookup "Auction Date" row = None -> process_row now row = Raise KeyError)
  /\ (lookup "Auction Date" row = Some None ->
      process_row now row = Raise AttributeError).
Proof.
  intro Hn. split; [|split].
  - intros e H. now apply process_row_cause.
  - intro H. unfold process_row, getitem. now rewrite H.
  - intro H. unfold process_row, getitem. now rewrite H.
Qed.

Lemma process_row_error_causes_witness :
  2007 <= 2026 <= 2037
  /\ (forall e,
        process_row 2026 (dict_of_row sample_header
                            ["Mon Dec 01, 8:30am CST"; "Austin"]) = Raise e ->
        cause 2026 (dict_of_row sample_header
                      ["Mon Dec 01, 8:30am CST"; "Austin"]) e)
  /\ process_row 2026 (dict_of_row sample_header
                         ["Mon Dec 01, 8:30am CST"; "Austin"])
     = Raise TypeError.
Proof.
  split; [lia|]. split; [|vm_compute; reflexivity].
  apply (process_row_error_causes 2026). lia.
Defined.

(** X8. In a file that has the seven required columns, a row with a field
    for every column of the header can fail only with a [ValueError], and
    it is accepted exactly when its date and its year can be read. *)
Theorem process_row_full_rows (now : Z) (names row : list string) :
  2007 <= now <= 2037 ->
  (forall k, In k required_columns -> In k names) ->
  full_row names row ->
  (forall e, process_row now (dict_of_row names row) = Raise e -> e = ValueError)
  /\ exists d y,
       lookup "Auction Date" (dict_of_row names row) = Some (Some d)
       /\ lookup "Year" (dict_of_row names row) = Some (Some y)
       /\ is_ok (process_row now (dict_of_row names row))
          = is_ok (parse_auction_date now d) && is_ok (int_of_str y).
Proof.
  intros Hn Hreq Hfull.
  assert (Hv : forall k, In k required_columns ->
               exists v, lookup k (dict_of_row names row) = Some (Some v)).
  { intros k Hk. apply lookup_full; auto. }
  destruct (Hv "Auction Date") as [d Hd]; [simpl; tauto|].
  destruct (Hv "Branch Name") as [b Hb]; [simpl; tauto|].
  destruct (Hv "Year") as [y Hy]; [simpl; tauto|].
  destruct (Hv "Make") as [mk Hmk]; [simpl; tauto|].
  destruct (Hv "Model") as [md Hmd]; [simpl; tauto|].
  destruct (Hv "Vin#") as [vn Hvn]; [simpl; tauto|].
  destruct (Hv "Engine") as [en Hen]; [simpl; tauto|].
  split.
  - intros e H. apply process_row_cause in H; [|exact Hn].
    destruct e; cbn [cause] in H; try contradiction; try reflexivity.
    + destruct H as [k [Hk Hnone]]. destruct (Hv k Hk) as [v Hs]. congruence.
    + congruence.
    + congruence.
    + destruct H as [k [Hk Hnone]].
      assert (Hk' : In k required_columns)
        by (simpl in Hk |- *; intuition).
      destruct (Hv k Hk') as [v Hs]. congruence.
  - exists d, y. split; [exact Hd|]. split; [exact Hy|].
    now apply (process_row_accepts now _ d b y mk md vn en).
Qed.

Lemma process_row_full_rows_witness :
  2007 <= 2026 <= 2037
  /\ (forall k, In k required_columns -> In k sample_header)
  /\ full_row sample_header
       ["Mon Dec 01, 8:30am CST"; "Austin"; "STARY"; "Fiat"; "500"; "VIN4"; "R4"]
  /\ (forall e,
        process_row 2026
          (dict_of_row sample_header
             ["Mon Dec 01, 8:30am CST"; "Austin"; "STARY"; "Fiat"; "500";
              "VIN4"; "R4"]) = Raise e -> e = ValueError).
Proof.
  assert (Hreq : forall k, In k required_columns -> In k sample_header)
    by (intros k H; exact H).
  assert (Hfull : full_row sample_header
            ["Mon Dec 01, 8:30am CST"; "Austin"; "STARY"; "Fiat"; "500";
             "VIN4"; "R4"]) by (unfold full_row; simpl; lia).
  split; [lia|]. split; [exact Hreq|]. split; [exact Hfull|].
  apply (process_row_full_rows 2026 sample_header
           ["Mon Dec 01, 8:30am CST"; "Austin"; "STARY"; "Fiat"; "500";
            "VIN4"; "R4"]); [lia | exact Hreq | exact Hfull].
Defined.

(** ** Runs that find nothing *)

Lemma mapM_id_Ok {A : Type} (tasks : list (result A)) (rs : list A) :
  mapM (fun t => t) tasks = Ok rs -> tasks = map Ok rs.
Proof.
  revert rs. induction tasks as [|t tasks IH]; simpl; intros rs H.
  - now injection H as <-.
  - destruct t as [a|e]; simpl in H; [|discriminate].
    destruct (mapM (fun t => t) tasks) as [ys|e]; simpl in H; [|discriminate].
    injection H as <-. simpl. now rewrite (IH ys).
Qed.

Lemma gather_Ok {A : Type} (completion : list nat) (tasks : list (result A))
    (rs : list A) :
  gather completion tasks = Ok rs -> tasks = map Ok rs.
Proof.
  unfold gather. destruct (first_raised completion tasks); [discriminate|].
  apply mapM_id_Ok.
Qed.

Lemma merge_nil (results : list (list triple)) :
  merge results = [] <-> Forall (fun l => l = []) results.
Proof.
  pose proof (merge_dict_inv results) as I. split.
  - intro H. unfold merge in H. apply map_eq_nil in H.
    assert (Hc : List.concat results = []).
    { destruct (List.concat results) as [|t ts] eqn:E; [reflexivity|].
      assert (Hin : In (key_of t) (map fst (merge_dict results))).
      { apply (inv_keys _ _ I). now left. }
      rewrite H in Hin. contradiction. }
    clear -Hc. induction results as [|l results IH]; [constructor|].
    simpl in Hc. apply app_eq_nil in Hc as [-> Hc]. constructor; auto.
  - intro H. rewrite merge_single.
    replace (List.concat results) with (@nil triple); [reflexivity|].
    clear I. induction H as [|l results -> _ IH]; [reflexivity|]. exact IH.
Qed.

(** X9. A run returns the empty list exactly when the directory exists
    and every CSV file in it is processed to no row at all; a directory
    without CSV files is such a case, and so is a file that holds nothing
    but a header and blank lines. *)
Theorem run_pipeline_empty_result
    (fs : filesystem) (now : Z) (completion : list nat) (dir : Path) :
  path_exists fs dir = true ->
  (outcome (run_pipeline fs now completion dir) = Ok []
   <-> forall f, In f (glob_csv fs dir) ->
                 process_file now (open_csv fs f) = Ok [])
  /\ (glob_csv fs dir = [] ->
      outcome (run_pipeline fs now completion dir) = Ok [])
  /\ (forall names blanks,
        Forall (fun r => r = []) blanks ->
        process_file now (Ok (mkcsv names blanks None)) = Ok []).
Proof.
  intro He.
  assert (Hall : (forall f, In f (glob_csv fs dir) ->
                            process_file now (open_csv fs f) = Ok []) ->
                 outcome (run_pipeline fs now completion dir) = Ok []).
  { intro H.
    rewrite (run_pipeline_merges fs now completion dir
               (map (fun _ => []) (glob_csv fs dir))) by
      (try exact He; rewrite map_map; apply map_ext_in; exact H).
    f_equal. apply merge_nil. apply Forall_forall.
    intros l Hl. apply in_map_iff in Hl as [f [<- _]]. reflexivity. }
  split; [split|split].
  - intro H. rewrite run_pipeline_outcome in H by exact He.
    destruct (gather completion (file_tasks fs now dir)) as [rs|e] eqn:G;
      [|discriminate].
    cbn [bind] in H. injection H as H. apply merge_nil in H.
    apply gather_Ok in G. unfold file_tasks in G.
    intros f Hf.
    assert (Hin : In (process_file now (open_csv fs f)) (map Ok rs)).
    { rewrite <- G. apply in_map_iff. now exists f. }
    apply in_map_iff in Hin as [l [<- Hl]].
    rewrite Forall_forall in H. now rewrite (H l Hl).
  - exact Hall.
  - intro Hg. apply Hall. rewrite Hg. intros f [].
  - intros names blanks Hb. unfold process_file, reader_rows. cbn [bind records trailer fieldnames].
    replace (filter (fun r => negb (Nat.eqb (List.length r) 0)) blanks)
      with (@nil (list string)); [reflexivity|].
    induction Hb as [|r blanks -> _ IH]; [reflexivity|]. exact IH.
Qed.

Lemma run_pipeline_empty_result_witness :
  path_exists empty_dir_fs "csv_files" = true
  /\ outcome (run_pipeline empty_dir_fs 2026 [] "csv_files") = Ok [].
Proof.
  split; [reflexivity|].
  apply (run_pipeline_empty_result empty_dir_fs 2026 [] "csv_files");
    reflexivity.
Defined.

